(** * Entity resolution, batch orchestration and ownership-tree building

    A shallow embedding of the resolution pipeline of the charity-data
    enrichment backend:
    - [app/services/charity_commission.py]: number extraction, the
      full-details fetch and the parsing of registry payloads;
    - [app/services/entity_resolver.py]: [resolve_entity],
      [_update_entity_from_charity], [process_batch], [confirm_resolution];
    - [app/services/ownership_builder.py]: the downward tree traversal and
      the get-or-create helpers.

    Python code runs in [Py S A], a state monad whose failures keep the
    state reached so far (a raised exception does not undo the mutations
    made before it).  The external collaborators (HTTP registry, OpenAI,
    difflib scoring, clock) are fields of an environment record [Env]; the
    database is explicit state. *)

From Stdlib Require Import String Ascii List Bool Arith Lia ZArith QArith.
From Stdlib Require Import Sorted RelationClasses Permutation.
Import ListNotations.
Open Scope nat_scope.
Open Scope string_scope.

(* ------------------------------------------------------------------ *)
(** ** Python exceptions and the [Py] monad *)

(** [except Exception] catches only subclasses of [Exception];
    [asyncio.CancelledError] and [KeyboardInterrupt] are [BaseException]s
    outside that hierarchy. *)
Inductive ExcClass := ExceptionClass | BaseExceptionOnly.

Record Exc := mkExc { exc_class : ExcClass; exc_type : string; exc_msg : string }.

Inductive Result (A : Type) := Ok (a : A) | Raise (e : Exc).
Arguments Ok {A} a.
Arguments Raise {A} e.

Definition Py (S A : Type) := S -> Result A * S.

Definition py_ret {S A} (a : A) : Py S A := fun s => (Ok a, s).

Definition py_bind {S A B} (m : Py S A) (k : A -> Py S B) : Py S B :=
  fun s => match m s with
           | (Ok a, s') => k a s'
           | (Raise e, s') => (Raise e, s')
           end.

Definition py_raise {S A} (e : Exc) : Py S A := fun s => (Raise e, s).
Definition py_get {S} : Py S S := fun s => (Ok s, s).
Definition py_put {S} (s : S) : Py S unit := fun _ => (Ok tt, s).
Definition py_modify {S} (f : S -> S) : Py S unit := fun s => (Ok tt, f s).

Declare Scope py_scope.
Delimit Scope py_scope with py.
Notation "x <- m ;; k" := (py_bind m (fun x => k))
  (at level 61, m at next level, right associativity) : py_scope.
Notation "m ;; k" := (py_bind m (fun _ => k))
  (at level 61, right associativity) : py_scope.
Open Scope py_scope.

Definition is_exception (e : Exc) : bool :=
  match exc_class e with ExceptionClass => true | BaseExceptionOnly => false end.

(** [try: body  except Exception as e: handler e] *)
Definition py_try_except {S A} (body : Py S A) (handler : Exc -> Py S A) : Py S A :=
  fun s => match body s with
           | (Raise e, s') => if is_exception e then handler e s' else (Raise e, s')
           | r => r
           end.

(** [try: body  finally: fin]: [fin] always runs; an exception it raises
    replaces the outcome of [body]. *)
Definition py_try_finally {S A} (body : Py S A) (fin : Py S unit) : Py S A :=
  fun s => match body s with
           | (r, s') => match fin s' with
                        | (Ok _, s'') => (r, s'')
                        | (Raise e, s'') => (Raise e, s'')
                        end
           end.

(** Python [for x in xs: f(x)] *)
Fixpoint py_for {S A} (xs : list A) (f : A -> Py S unit) : Py S unit :=
  match xs with
  | [] => py_ret tt
  | x :: xs' => f x ;; py_for xs' f
  end.

(** Truthiness of an optional string ([None] and [""] are falsy). *)
Definition truthy (o : option string) : bool :=
  match o with Some s => negb (String.eqb s EmptyString) | None => false end.

(** Python [a or b]. *)
Definition py_or {A} (t : A -> bool) (a b : A) : A := if t a then a else b.

(** SQL [col = :v]: NULL is equal to nothing. *)
Definition sql_eq (a b : option string) : bool :=
  match a, b with Some x, Some y => String.eqb x y | _, _ => false end.

Definition opt_str_eqb (a b : option string) : bool :=
  match a, b with
  | Some x, Some y => String.eqb x y
  | None, None => true
  | _, _ => false
  end.

(** [result.scalar_one_or_none()] *)
Definition MultipleResultsFound : Exc :=
  mkExc ExceptionClass "MultipleResultsFound" "Multiple rows were found when one or none was required".

Definition scalar_one_or_none {S A} (rows : list A) : Py S (option A) :=
  match rows with
  | [] => py_ret None
  | [x] => py_ret (Some x)
  | _ => py_raise MultipleResultsFound
  end.

(* ------------------------------------------------------------------ *)
(** ** Data model ([app/models/entity.py]) *)

Inductive EntityType := CHARITY | COMPANY | TRUST | CIO | UNKNOWN.

Inductive ResolutionStatus :=
  PENDING | MATCHED | MULTIPLE_MATCHES | NO_MATCH | MANUAL_REVIEW | CONFIRMED | REJECTED.

Definition rs_eqb (a b : ResolutionStatus) : bool :=
  match a, b with
  | PENDING, PENDING | MATCHED, MATCHED | MULTIPLE_MATCHES, MULTIPLE_MATCHES
  | NO_MATCH, NO_MATCH | MANUAL_REVIEW, MANUAL_REVIEW | CONFIRMED, CONFIRMED
  | REJECTED, REJECTED => true
  | _, _ => false
  end.

Inductive BatchStatus := UPLOADED | PROCESSING | COMPLETED | FAILED | PARTIAL.

(** Timestamps ([datetime]) are opaque values supplied by the clock. *)
Definition Time := string.

(** A scalar of the uploaded row ([original_data] values). *)
Inductive PyScalar := PStr (s : string) | PNum (z : Z) | PNone.

(** A parsed trustee ([{"name": ..., "id": ...}]). *)
Record Trustee := mkTrustee { t_name : option string; t_id : option string }.

(** A parsed subsidiary ([{"name": ..., "company_number": ...}]). *)
Record ParsedSub := mkParsedSub { ps_name : option string; ps_company_number : option string }.

(** [enriched_data]: the JSON bag the code writes into. *)
Record Enriched := mkEnriched {
  en_trustees : option (list Trustee);
  en_subsidiaries : option (list ParsedSub);
  en_ai_reasoning : option string }.

Definition enriched_empty := mkEnriched None None None.

(** A dict is truthy when it has a key. *)
Definition enriched_truthy (o : option Enriched) : bool :=
  match o with
  | None => false
  | Some en =>
      match en_trustees en, en_subsidiaries en, en_ai_reasoning en with
      | None, None, None => false
      | _, _, _ => true
      end
  end.

Record Entity := mkEntity {
  id : nat;
  batch_id : nat;
  original_name : string;
  original_data : option (list (string * PyScalar));
  entity_type : EntityType;
  resolved_name : option string;
  charity_number : option string;
  company_number : option string;
  charity_status : option string;
  charity_registration_date : option Time;
  charity_removal_date : option Time;
  charity_activities : option string;
  charity_contact_email : option string;
  charity_contact_phone : option string;
  charity_website : option string;
  charity_address : option string;
  latest_income : option Q;
  latest_expenditure : option Q;
  latest_financial_year_end : option Time;
  resolution_status : ResolutionStatus;
  resolution_confidence : option Q;
  resolution_method : option string;
  parent_entity_id : option nat;
  ownership_level : Z;
  enriched_data : option Enriched;
  resolved_at : option Time }.

(** An OwnershipEdge row ([EntityOwnership]). *)
Record EntityOwnership := mkEntityOwnership {
  owner_id : nat;
  owned_id : nat;
  ownership_type : option string;
  ownership_percentage : option Q;
  relationship_description : option string;
  source : option string;
  verified : bool }.

Record EntityBatch := mkEntityBatch {
  b_id : nat;
  status : BatchStatus;
  total_records : nat;
  processed_records : nat;
  matched_records : nat;
  failed_records : nat;
  error_message : option string;
  processing_started_at : option Time;
  processing_completed_at : option Time }.

(* ------------------------------------------------------------------ *)
(** ** Registry payloads ([app/services/charity_commission.py]) *)

(** JSON [null] and a missing key both read as [None] through [.get]. *)
Record Contact := mkContact {
  c_email : option string; c_phone : option string; c_web : option string;
  c_addressLine1 : option string; c_addressLine2 : option string;
  c_addressLine3 : option string; c_addressLine4 : option string;
  c_postcode : option string }.

Record Account := mkAccount {
  a_totalGrossIncome : option Q;
  a_totalGrossExpenditure : option Q;
  a_financialYearEnd : option string }.

Record RawTrustee := mkRawTrustee { rt_trusteeName : option string; rt_trusteeId : option string }.

Record RawSub := mkRawSub { rsub_subsidiaryName : option string; rsub_companyNumber : option string }.

(** A charity record as returned by the registry (detail or search hit);
    [get_full_charity_details] fills the three lists. *)
Record RawCharity := mkRawCharity {
  rc_charityNumber : option string;
  rc_registeredCharityNumber : option string;
  rc_charityName : option string;
  rc_name : option string;
  rc_registrationStatus : option string;
  rc_registrationDate : option string;
  rc_removalDate : option string;
  rc_activities : option string;
  rc_contact : option Contact;
  rc_trustees : list RawTrustee;
  rc_accounts : list Account;
  rc_subsidiaries : list RawSub }.

(** A CandidateMatch row ([EntityResolution]). *)
Record EntityResolution := mkEntityResolution {
  er_id : nat;
  er_entity_id : nat;
  er_charity_number : option string;
  er_candidate_name : option string;
  er_candidate_data : option RawCharity;
  er_confidence_score : Q;
  er_match_method : string;
  er_is_selected : bool }.

(** The body of [search_charities]: a dict (with or without a
    ["charities"] key), a bare list, or some other JSON value. *)
Inductive SearchResponse :=
  | SRDict (charities : option (list RawCharity))
  | SRList (charities : list RawCharity)
  | SROther.

(** The JSON object the AI returns, after [json.loads]. *)
Record AIResponse := mkAIResponse {
  ai_match_found : bool;
  ai_selected_index : option Z;
  ai_confidence : option (option Q);   (* missing key / null / value *)
  ai_reasoning : option (option string) }.

(** The external collaborators: HTTP registry endpoints (with their
    retries already applied), the OpenAI client, difflib's scoring of two
    names, [datetime.fromisoformat] and the clock. *)
Record Env := mkEnv {
  get_charity_by_number : string -> Result (option RawCharity);
  get_charity_trustees : string -> Result (list RawTrustee);
  get_charity_accounts : string -> Result (list Account);
  get_charity_subsidiaries : string -> Result (list RawSub);
  search_charities : option string -> nat -> Result SearchResponse;
  openai_client : bool;
  openai_chat : string -> list (option string * option string * Q) -> Result AIResponse;
  calculate_similarity : string -> string -> Q;
  fromisoformat : string -> option Time;
  utcnow : Time }.

(** The parsed form produced by [parse_charity_data]. *)
Record ParsedCharity := mkParsedCharity {
  p_charity_number : option string;
  p_name : option string;
  p_status : option string;
  p_registration_date : option Time;
  p_removal_date : option Time;
  p_activities : option string;
  p_contact_email : option string;
  p_contact_phone : option string;
  p_website : option string;
  p_address : option string;
  p_latest_income : option Q;
  p_latest_expenditure : option Q;
  p_financial_year_end : option Time;
  p_trustees : list Trustee;
  p_subsidiaries : list ParsedSub }.

Section Registry.
Variable env : Env.

(** [get_full_charity_details]: the four calls run under
    [asyncio.gather(..., return_exceptions=True)], so no exception of the
    calls escapes. *)
Definition get_full_charity_details (n : string) : option RawCharity :=
  match get_charity_by_number env n with
  | Raise _ | Ok None => None
  | Ok (Some d) =>
      let trs := match get_charity_trustees env n with Ok l => l | Raise _ => [] end in
      let accs := match get_charity_accounts env n with Ok l => l | Raise _ => [] end in
      let subs := match get_charity_subsidiaries env n with Ok l => l | Raise _ => [] end in
      Some {| rc_charityNumber := rc_charityNumber d;
              rc_registeredCharityNumber := rc_registeredCharityNumber d;
              rc_charityName := rc_charityName d; rc_name := rc_name d;
              rc_registrationStatus := rc_registrationStatus d;
              rc_registrationDate := rc_registrationDate d;
              rc_removalDate := rc_removalDate d;
              rc_activities := rc_activities d; rc_contact := rc_contact d;
              rc_trustees := trs; rc_accounts := accs; rc_subsidiaries := subs |}
  end.

(** [datetime.fromisoformat(s.replace("Z", "+00:00"))] guarded by
    [if data.get(key)] and [except (ValueError, TypeError): pass]. *)
Definition parse_date (o : option string) : option Time :=
  match o with
  | Some s => if truthy (Some s) then fromisoformat env s else None
  | None => None
  end.

Fixpoint join_parts (parts : list string) : string :=
  match parts with
  | [] => ""
  | [p] => p
  | p :: ps => p ++ ", " ++ join_parts ps
  end.

Definition parse_charity_data (d : RawCharity) : ParsedCharity :=
  let contact := match rc_contact d with
                 | Some c => c
                 | None => mkContact None None None None None None None None
                 end in
  let address_parts :=
    flat_map (fun o => match o with Some s => if truthy (Some s) then [s] else [] | None => [] end)
      [c_addressLine1 contact; c_addressLine2 contact; c_addressLine3 contact;
       c_addressLine4 contact; c_postcode contact] in
  let '(inc, expd, fye) :=
    match rc_accounts d with
    | [] => (None, None, None)
    | a :: _ => (a_totalGrossIncome a, a_totalGrossExpenditure a, parse_date (a_financialYearEnd a))
    end in
  {| p_charity_number := py_or truthy (rc_charityNumber d) (rc_registeredCharityNumber d);
     p_name := py_or truthy (rc_charityName d) (rc_name d);
     p_status := rc_registrationStatus d;
     p_registration_date := parse_date (rc_registrationDate d);
     p_removal_date := parse_date (rc_removalDate d);
     p_activities := rc_activities d;
     p_contact_email := c_email contact;
     p_contact_phone := c_phone contact;
     p_website := c_web contact;
     p_address := match address_parts with [] => None | _ => Some (join_parts address_parts) end;
     p_latest_income := inc;
     p_latest_expenditure := expd;
     p_financial_year_end := fye;
     p_trustees := map (fun t => mkTrustee (rt_trusteeName t) (rt_trusteeId t)) (rc_trustees d);
     p_subsidiaries := map (fun s => mkParsedSub (rsub_subsidiaryName s) (rsub_companyNumber s))
                           (rc_subsidiaries d) |}.

End Registry.

(* ------------------------------------------------------------------ *)
(** ** [extract_charity_number]

    The three patterns [\b(\d{6,8})\b], [\b(SC\d{5,6})\b] and
    [\b(NI\d{5,6})\b] are tried in this order with [re.search] and
    [re.IGNORECASE]; the first pattern that matches anywhere wins and its
    group is upper-cased.  Text is ASCII: [\w] is [[A-Za-z0-9_]]. *)

Definition is_digit (c : ascii) : bool :=
  let n := nat_of_ascii c in Nat.leb 48 n && Nat.leb n 57.
Definition is_upper (c : ascii) : bool :=
  let n := nat_of_ascii c in Nat.leb 65 n && Nat.leb n 90.
Definition is_lower (c : ascii) : bool :=
  let n := nat_of_ascii c in Nat.leb 97 n && Nat.leb n 122.
Definition is_word (c : ascii) : bool :=
  is_digit c || is_upper c || is_lower c || Ascii.eqb c "_"%char.

Definition upper_char (c : ascii) : ascii :=
  if is_lower c then ascii_of_nat (nat_of_ascii c - 32) else c.
Definition lower_char (c : ascii) : ascii :=
  if is_upper c then ascii_of_nat (nat_of_ascii c + 32) else c.

Definition str_upper (s : string) : string := string_of_list_ascii (map upper_char (list_ascii_of_string s)).
Definition str_lower (s : string) : string := string_of_list_ascii (map lower_char (list_ascii_of_string s)).

Definition word_opt (o : option ascii) : bool :=
  match o with Some c => is_word c | None => false end.

(** [\b] between the character before a position and the one at it. *)
Definition boundary (prev next : option ascii) : bool := xorb (word_opt prev) (word_opt next).

(** A pattern [\b(<prefix>\d{lo,hi})\b]; the prefix is matched ignoring case. *)
Record Pattern := mkPattern { pat_prefix : list ascii; pat_lo : nat; pat_hi : nat }.

Definition charity_patterns : list Pattern :=
  [ mkPattern [] 6 8;
    mkPattern ["S"; "C"]%char 5 6;
    mkPattern ["N"; "I"]%char 5 6 ].

Fixpoint prefix_ci (p l : list ascii) : option (list ascii) :=
  match p, l with
  | [], _ => Some l
  | c :: p', d :: l' => if Ascii.eqb (upper_char c) (upper_char d) then prefix_ci p' l' else None
  | _ :: _, [] => None
  end.

Definition last_opt (prev : option ascii) (l : list ascii) : option ascii :=
  match rev l with c :: _ => Some c | [] => prev end.

(** Greedy [\d{lo,hi}] followed by [\b]: the counts are tried from [hi]
    down to [lo]. *)
Fixpoint digits_greedy (k lo : nat) (before l : list ascii) (prev : option ascii) : option nat :=
  let ok := Nat.leb lo k && Nat.leb k (length l) && forallb is_digit (firstn k l)
            && boundary (last_opt prev (before ++ firstn k l)) (nth_error l k) in
  if ok then Some k
  else match k with
       | 0 => None
       | S k' => if Nat.ltb k' lo then None else digits_greedy k' lo before l prev
       end.

(** The group matched by the pattern at the start of [l], [prev] being the
    character just before. *)
Definition match_at (pt : Pattern) (prev : option ascii) (l : list ascii) : option (list ascii) :=
  if boundary prev (hd_error l) then
    match prefix_ci (pat_prefix pt) l with
    | Some rest =>
        match digits_greedy (pat_hi pt) (pat_lo pt) (firstn (length (pat_prefix pt)) l) rest prev with
        | Some k => Some (firstn (length (pat_prefix pt) + k) l)
        | None => None
        end
    | None => None
    end
  else None.

(** [re.search]: the leftmost start position that matches. *)
Fixpoint search_from (pt : Pattern) (prev : option ascii) (l : list ascii) : option (list ascii) :=
  match match_at pt prev l with
  | Some g => Some g
  | None => match l with
            | [] => None
            | c :: l' => search_from pt (Some c) l'
            end
  end.

Fixpoint first_pattern (pts : list Pattern) (l : list ascii) : option (list ascii) :=
  match pts with
  | [] => None
  | pt :: pts' => match search_from pt None l with
                  | Some g => Some g
                  | None => first_pattern pts' l
                  end
  end.

Definition extract_charity_number (text : string) : option string :=
  match first_pattern charity_patterns (list_ascii_of_string text) with
  | Some g => Some (str_upper (string_of_list_ascii g))
  | None => None
  end.

(* ------------------------------------------------------------------ *)
(** ** Field updates of an [Entity] (Python attribute assignment) *)

Definition set_resolution (e : Entity) (st : ResolutionStatus) (conf : option Q)
    (meth : option string) (rat : option Time) : Entity :=
  {| id := id e; batch_id := batch_id e; original_name := original_name e;
     original_data := original_data e; entity_type := entity_type e;
     resolved_name := resolved_name e; charity_number := charity_number e;
     company_number := company_number e; charity_status := charity_status e;
     charity_registration_date := charity_registration_date e;
     charity_removal_date := charity_removal_date e;
     charity_activities := charity_activities e;
     charity_contact_email := charity_contact_email e;
     charity_contact_phone := charity_contact_phone e;
     charity_website := charity_website e; charity_address := charity_address e;
     latest_income := latest_income e; latest_expenditure := latest_expenditure e;
     latest_financial_year_end := latest_financial_year_end e;
     resolution_status := st; resolution_confidence := conf;
     resolution_method := meth; parent_entity_id := parent_entity_id e;
     ownership_level := ownership_level e; enriched_data := enriched_data e;
     resolved_at := rat |}.

(** [entity.resolution_status = st] *)
Definition set_status (e : Entity) (st : ResolutionStatus) : Entity :=
  set_resolution e st (resolution_confidence e) (resolution_method e) (resolved_at e).

(** [entity.resolution_status = st; entity.resolved_at = now] *)
Definition set_status_at (e : Entity) (st : ResolutionStatus) (now : Time) : Entity :=
  set_resolution e st (resolution_confidence e) (resolution_method e) (Some now).

Definition set_enriched (e : Entity) (en : option Enriched) : Entity :=
  {| id := id e; batch_id := batch_id e; original_name := original_name e;
     original_data := original_data e; entity_type := entity_type e;
     resolved_name := resolved_name e; charity_number := charity_number e;
     company_number := company_number e; charity_status := charity_status e;
     charity_registration_date := charity_registration_date e;
     charity_removal_date := charity_removal_date e;
     charity_activities := charity_activities e;
     charity_contact_email := charity_contact_email e;
     charity_contact_phone := charity_contact_phone e;
     charity_website := charity_website e; charity_address := charity_address e;
     latest_income := latest_income e; latest_expenditure := latest_expenditure e;
     latest_financial_year_end := latest_financial_year_end e;
     resolution_status := resolution_status e;
     resolution_confidence := resolution_confidence e;
     resolution_method := resolution_method e; parent_entity_id := parent_entity_id e;
     ownership_level := ownership_level e; enriched_data := en;
     resolved_at := resolved_at e |}.

(** [entity.enriched_data = entity.enriched_data or {}] *)
Definition enriched_or_empty (o : option Enriched) : Enriched :=
  match o with
  | Some en => if enriched_truthy (Some en) then en else enriched_empty
  | None => enriched_empty
  end.

(** [_update_entity_from_charity] (entity_resolver.py, lines 373-405). *)
Definition update_entity_from_charity (now : Time) (e : Entity) (cd : ParsedCharity)
    (method : string) (confidence : Q) : Entity :=
  let en := enriched_or_empty (enriched_data e) in
  {| id := id e; batch_id := batch_id e; original_name := original_name e;
     original_data := original_data e;
     entity_type := CHARITY;
     resolved_name := p_name cd;
     charity_number := p_charity_number cd;
     company_number := company_number e;
     charity_status := p_status cd;
     charity_registration_date := p_registration_date cd;
     charity_removal_date := p_removal_date cd;
     charity_activities := p_activities cd;
     charity_contact_email := p_contact_email cd;
     charity_contact_phone := p_contact_phone cd;
     charity_website := p_website cd;
     charity_address := p_address cd;
     latest_income := p_latest_income cd;
     latest_expenditure := p_latest_expenditure cd;
     latest_financial_year_end := p_financial_year_end cd;
     resolution_status := MATCHED;
     resolution_confidence := Some confidence;
     resolution_method := Some method;
     parent_entity_id := parent_entity_id e;
     ownership_level := ownership_level e;
     enriched_data := Some (mkEnriched (Some (p_trustees cd)) (Some (p_subsidiaries cd))
                                       (en_ai_reasoning en));
     resolved_at := Some now |}.

(* ------------------------------------------------------------------ *)
(** ** The resolver ([EntityResolverService]) *)

(** One entry of the list returned by [search_candidates]. *)
Record Candidate := mkCandidate {
  cand_charity_number : option string;
  cand_name : string;
  cand_status : option string;
  cand_similarity : Q;
  cand_raw : RawCharity }.

(** The database as the resolver sees it: the entity being resolved
    (an ORM object mutated in place) and the CandidateMatch table. *)
Record RState := mkRState { rs_entity : Entity; rs_resolutions : list EntityResolution }.

Definition q95 : Q := 95 # 100.

(** [candidates.sort(key=lambda x: x["similarity_score"], reverse=True)]:
    stable, so equal scores keep their order. *)
Fixpoint insert_desc (c : Candidate) (l : list Candidate) : list Candidate :=
  match l with
  | [] => [c]
  | d :: l' => if negb (Qle_bool (cand_similarity c) (cand_similarity d)) then c :: d :: l'
               else d :: insert_desc c l'
  end.

Definition sort_desc (l : list Candidate) : list Candidate :=
  fold_left (fun acc c => insert_desc c acc) l [].

Section Resolver.
Variable env : Env.

Definition candidate_of (entity_name : string) (charity : RawCharity) : Candidate :=
  (* [charity.get("charityName") or charity.get("name", "")] *)
  let charity_name := match py_or truthy (rc_charityName charity) (rc_name charity) with
                      | Some n => n | None => "" end in
  (* [charity.get("charityNumber") or charity.get("registeredCharityNumber", "")] *)
  let charity_num := py_or truthy (rc_charityNumber charity)
                       (match rc_registeredCharityNumber charity with
                        | Some n => Some n | None => Some "" end) in
  {| cand_charity_number := charity_num; cand_name := charity_name;
     cand_status := rc_registrationStatus charity;
     cand_similarity := calculate_similarity env entity_name charity_name;
     cand_raw := charity |}.

(** [search_candidates] (entity_resolver.py, lines 76-124); an
    [Exception] of the registry search is logged and swallowed. *)
Definition search_candidates {S} (entity_name : string) : Py S (list Candidate) :=
  let max_results := 5 in
  py_try_except
    (fun s => match search_charities env (Some entity_name) (max_results * 2) with
              | Raise e => (Raise e, s)
              | Ok results =>
                  let charities := match results with
                                   | SRDict (Some l) => l
                                   | SRDict None => []
                                   | SRList l => l
                                   | SROther => []
                                   end in
                  (Ok (firstn max_results
                         (sort_desc (map (candidate_of entity_name) (firstn max_results charities)))), s)
              end)
    (fun _ => py_ret []).

(** [ai_resolve_entity] (lines 126-206): [None] when no client or no
    candidates; an [Exception] of the call is swallowed.  The confidence and
    reasoning are returned as [result.get(key, default)], so a JSON [null]
    comes back as [None]. *)
Definition ai_resolve_entity {S} (entity_name : string) (candidates : list Candidate)
    : Py S (option (option string * option Q * option string)) :=
  if negb (openai_client env) then py_ret None else
  match candidates with
  | [] => py_ret None
  | _ =>
    py_try_except
      (fun s =>
         match openai_chat env entity_name
                 (map (fun c => (Some (cand_name c), cand_charity_number c, cand_similarity c)) candidates) with
         | Raise e => (Raise e, s)
         | Ok r =>
             match ai_match_found r, ai_selected_index r with
             | true, Some sel =>
                 if Z.eqb sel 0 then (Ok None, s) else
                 let idx := (sel - 1)%Z in
                 if (0 <=? idx)%Z && (idx <? Z.of_nat (length candidates))%Z then
                   match nth_error candidates (Z.to_nat idx) with
                   | Some c =>
                       let conf := match ai_confidence r with
                                   | None => Some (8 # 10) | Some o => o end in
                       let reas := match ai_reasoning r with
                                   | None => Some "AI matched" | Some o => o end in
                       (Ok (Some (cand_charity_number c, conf, reas)), s)
                   | None => (Ok None, s)
                   end
                 else (Ok None, s)
             | _, _ => (Ok None, s)
             end
         end)
      (fun _ => py_ret None)
  end.

Definition get_entity : Py RState Entity := fun s => (Ok (rs_entity s), s).
Definition put_entity (e : Entity) : Py RState unit :=
  fun s => (Ok tt, mkRState e (rs_resolutions s)).

Definition next_resolution_id (rows : list EntityResolution) : nat :=
  S (fold_left (fun m r => Nat.max m (er_id r)) rows 0).

(** [self.db.add(EntityResolution(...))] for one candidate. *)
Definition add_resolution (eid : nat) (c : Candidate) : Py RState unit :=
  fun s =>
    let row := {| er_id := next_resolution_id (rs_resolutions s); er_entity_id := eid;
                  er_charity_number := cand_charity_number c;
                  er_candidate_name := Some (cand_name c);
                  er_candidate_data := Some (cand_raw c);
                  er_confidence_score := cand_similarity c;
                  er_match_method := "fuzzy_search"; er_is_selected := false |} in
    (Ok tt, mkRState (rs_entity s) (rs_resolutions s ++ [row])).

(** [update(EntityResolution).where(entity_id == eid)
     .where(charity_number == num).values(is_selected=True)] *)
Definition mark_selected (eid : nat) (num : option string) : Py RState unit :=
  fun s =>
    (Ok tt, mkRState (rs_entity s)
              (map (fun r => if Nat.eqb (er_entity_id r) eid && sql_eq (er_charity_number r) num
                             then {| er_id := er_id r; er_entity_id := er_entity_id r;
                                     er_charity_number := er_charity_number r;
                                     er_candidate_name := er_candidate_name r;
                                     er_candidate_data := er_candidate_data r;
                                     er_confidence_score := er_confidence_score r;
                                     er_match_method := er_match_method r;
                                     er_is_selected := true |}
                             else r) (rs_resolutions s))).

(** [get_full_charity_details(number)] called with a Python value that may
    be [None]: [normalize_charity_number(None)] raises inside the gathered
    calls, which [return_exceptions=True] turns into "no data". *)
Definition details_of (n : option string) : option RawCharity :=
  match n with Some x => get_full_charity_details env x | None => None end.

(** The stage-2 scan: [original_name], then every string value of
    [original_data] in iteration order; the first value that yields a
    number wins. *)
Fixpoint scan_original_data (kvs : list (string * PyScalar)) : option string :=
  match kvs with
  | [] => None
  | (_, PStr v) :: kvs' =>
      match extract_charity_number v with
      | Some n => Some n
      | None => scan_original_data kvs'
      end
  | _ :: kvs' => scan_original_data kvs'
  end.

Definition extracted_number (e : Entity) : option string :=
  match extract_charity_number (original_name e) with
  | Some n => Some n
  | None => match original_data e with Some kvs => scan_original_data kvs | None => None end
  end.

Definition TypeError_format : Exc :=
  mkExc ExceptionClass "TypeError" "unsupported format string passed to NoneType.__format__".
Definition TypeError_subscript : Exc :=
  mkExc ExceptionClass "TypeError" "'NoneType' object is not subscriptable".

(** Stage 6 of [resolve_entity] (lines 352-371). *)
Definition fallback (candidates : list Candidate) : Py RState unit :=
  e <- get_entity ;;
  let best_candidate_score := match candidates with c :: _ => Some (cand_similarity c) | [] => None end in
  let st := if Nat.ltb 1 (length candidates) then MULTIPLE_MATCHES else MANUAL_REVIEW in
  put_entity (set_resolution e st best_candidate_score (Some "needs_review") (Some (utcnow env))).

(** Stages 3-6 of [resolve_entity] (lines 265-371). *)
Definition resolve_by_search (use_ai : bool) : Py RState unit :=
  e <- get_entity ;;
  candidates <- search_candidates (original_name e) ;;
  match candidates with
  | [] => put_entity (set_status_at e NO_MATCH (utcnow env))
  | best_match :: _ =>
    py_for candidates (add_resolution (id e)) ;;
    let exact :=
      if Qle_bool q95 (cand_similarity best_match)
      then details_of (cand_charity_number best_match) else None in
    match exact with
    | Some charity_data =>
        put_entity (update_entity_from_charity (utcnow env) e
                      (parse_charity_data env charity_data) "exact_match"
                      (cand_similarity best_match)) ;;
        mark_selected (id e) (cand_charity_number best_match)
    | None =>
      if use_ai && openai_client env then
        ai_result <- ai_resolve_entity (original_name e) candidates ;;
        match ai_result with
        | Some (num, conf, reasoning) =>
            (* the debug_log of line 328 formats [confidence:.2f] and
               slices [reasoning[:50]] *)
            match conf, reasoning with
            | None, _ => py_raise TypeError_format
            | Some _, None => py_raise TypeError_subscript
            | Some c, Some r =>
                match details_of num with
                | Some charity_data =>
                    let e1 := update_entity_from_charity (utcnow env) e
                                (parse_charity_data env charity_data) "ai_match" c in
                    let en := enriched_or_empty (enriched_data e1) in
                    put_entity (set_enriched e1
                                  (Some (mkEnriched (en_trustees en) (en_subsidiaries en) (Some r)))) ;;
                    mark_selected (id e) num
                | None => fallback candidates
                end
            end
        | None => fallback candidates
        end
      else fallback candidates
    end
  end.

(** [resolve_entity] (entity_resolver.py, lines 208-371). *)
Definition resolve_entity (use_ai : bool) : Py RState unit :=
  e <- get_entity ;;
  let direct := if truthy (charity_number e) then details_of (charity_number e) else None in
  match direct with
  | Some charity_data =>
      put_entity (update_entity_from_charity (utcnow env) e
                    (parse_charity_data env charity_data) "direct_lookup" 1)
  | None =>
      match extracted_number e with
      | Some n =>
          match get_full_charity_details env n with
          | Some charity_data =>
              put_entity (update_entity_from_charity (utcnow env) e
                            (parse_charity_data env charity_data) "number_extraction" q95)
          | None => resolve_by_search use_ai
          end
      | None => resolve_by_search use_ai
      end
  end.

(** [confirm_resolution] (lines 592-643), once the entity row has been
    loaded: [resolution_id] selects a CandidateMatch row, [manual] is the
    manually entered number. *)
Definition ValueError_entity : Exc := mkExc ExceptionClass "ValueError" "Entity not found".

Definition confirm_resolution (entity_id : nat) (resolution_id : option nat)
    (manual : option string) : Py RState unit :=
  e <- get_entity ;;
  if negb (Nat.eqb (id e) entity_id) then py_raise ValueError_entity else
  s <- py_get ;;
  let found := match resolution_id with
               | Some rid => find (fun r => Nat.eqb (er_id r) rid) (rs_resolutions s)
               | None => None
               end in
  let charity_num := match found with Some r => er_charity_number r | None => manual end in
  (match found with
   | Some r => fun s' =>
       (Ok tt, mkRState (rs_entity s')
                 (map (fun x => if Nat.eqb (er_id x) (er_id r)
                                then {| er_id := er_id x; er_entity_id := er_entity_id x;
                                        er_charity_number := er_charity_number x;
                                        er_candidate_name := er_candidate_name x;
                                        er_candidate_data := er_candidate_data x;
                                        er_confidence_score := er_confidence_score x;
                                        er_match_method := er_match_method x;
                                        er_is_selected := true |}
                                else x) (rs_resolutions s')))
   | None => py_ret tt
   end) ;;
  if truthy charity_num then
    match details_of charity_num with
    | Some charity_data =>
        put_entity (set_status (update_entity_from_charity (utcnow env) e
                                  (parse_charity_data env charity_data) "manual_confirm" 1)
                               CONFIRMED)
    | None => py_ret tt
    end
  else put_entity (set_status_at e REJECTED (utcnow env)).

End Resolver.

(* ------------------------------------------------------------------ *)
(** ** The batch orchestrator ([EntityResolverService.process_batch]) *)

(** The database state of a run: the batch row, the batch's entity rows
    (in query order), the snapshots of the batch row written by each
    successful [flush] (what a poller can observe), the number of database
    round trips made so far, and the local counters [processed], [matched],
    [failed] of the running frame. *)
Record PBState := mkPBState {
  pb_batch : EntityBatch;
  pb_entities : list Entity;
  pb_flushed : list EntityBatch;
  pb_calls : nat;
  pb_processed : nat;
  pb_matched : nat;
  pb_failed : nat }.

(** The collaborators of [process_batch]: the outcome of the [k]-th
    database round trip, the per-record resolver (its outcome together
    with the entity as it mutated it in place), and the clock. *)
Record PBEnv := mkPBEnv {
  db_fault : nat -> option Exc;
  resolve : Entity -> Result unit * Entity;
  pb_now : Time }.

Definition with_batch (s : PBState) (b : EntityBatch) : PBState :=
  mkPBState b (pb_entities s) (pb_flushed s) (pb_calls s) (pb_processed s) (pb_matched s) (pb_failed s).
Definition with_entities (s : PBState) (es : list Entity) : PBState :=
  mkPBState (pb_batch s) es (pb_flushed s) (pb_calls s) (pb_processed s) (pb_matched s) (pb_failed s).
Definition with_locals (s : PBState) (p m f : nat) : PBState :=
  mkPBState (pb_batch s) (pb_entities s) (pb_flushed s) (pb_calls s) p m f.

Definition set_batch_status (b : EntityBatch) (st : BatchStatus) : EntityBatch :=
  mkEntityBatch (b_id b) st (total_records b) (processed_records b) (matched_records b)
    (failed_records b) (error_message b) (processing_started_at b) (processing_completed_at b).
Definition set_batch_started (b : EntityBatch) (t : Time) : EntityBatch :=
  mkEntityBatch (b_id b) (status b) (total_records b) (processed_records b) (matched_records b)
    (failed_records b) (error_message b) (Some t) (processing_completed_at b).
Definition set_batch_completed (b : EntityBatch) (t : Time) : EntityBatch :=
  mkEntityBatch (b_id b) (status b) (total_records b) (processed_records b) (matched_records b)
    (failed_records b) (error_message b) (processing_started_at b) (Some t).
Definition set_batch_total (b : EntityBatch) (n : nat) : EntityBatch :=
  mkEntityBatch (b_id b) (status b) n (processed_records b) (matched_records b)
    (failed_records b) (error_message b) (processing_started_at b) (processing_completed_at b).
Definition set_batch_counters (b : EntityBatch) (p m f : nat) : EntityBatch :=
  mkEntityBatch (b_id b) (status b) (total_records b) p m f
    (error_message b) (processing_started_at b) (processing_completed_at b).
Definition set_batch_error (b : EntityBatch) (msg : string) : EntityBatch :=
  mkEntityBatch (b_id b) (status b) (total_records b) (processed_records b) (matched_records b)
    (failed_records b) (Some msg) (processing_started_at b) (processing_completed_at b).

Definition eligible (e : Entity) : bool :=
  rs_eqb (resolution_status e) PENDING || rs_eqb (resolution_status e) MANUAL_REVIEW
  || rs_eqb (resolution_status e) MULTIPLE_MATCHES.

Definition is_matched (e : Entity) : bool := rs_eqb (resolution_status e) MATCHED.

Definition ValueError_batch : Exc := mkExc ExceptionClass "ValueError" "Batch not found".

Section Orchestrator.
Variable penv : PBEnv.

(** One database round trip ([execute] or [flush]). *)
Definition db_call : Py PBState unit :=
  fun s =>
    let s' := mkPBState (pb_batch s) (pb_entities s) (pb_flushed s) (S (pb_calls s))
                (pb_processed s) (pb_matched s) (pb_failed s) in
    match db_fault penv (pb_calls s) with
    | Some e => (Raise e, s')
    | None => (Ok tt, s')
    end.

(** [await self.db.flush()]: the batch row becomes visible to pollers. *)
Definition db_flush : Py PBState unit :=
  db_call ;;
  py_modify (fun s => mkPBState (pb_batch s) (pb_entities s) (pb_flushed s ++ [pb_batch s])
                        (pb_calls s) (pb_processed s) (pb_matched s) (pb_failed s)).

Definition modify_batch (f : EntityBatch -> EntityBatch) : Py PBState unit :=
  py_modify (fun s => with_batch s (f (pb_batch s))).

Definition find_entity (eid : nat) : Py PBState (option Entity) :=
  fun s => (Ok (find (fun e => Nat.eqb (id e) eid) (pb_entities s)), s).

Definition store_entity (e : Entity) : Py PBState unit :=
  py_modify (fun s => with_entities s (map (fun x => if Nat.eqb (id x) (id e) then e else x)
                                           (pb_entities s))).

(** The body of the per-record [try] (lines 493-518). *)
Definition resolve_one (eid : nat) : Py PBState unit :=
  oe <- find_entity eid ;;
  match oe with
  | None => py_ret tt
  | Some e =>
      let '(r, e') := resolve penv e in
      store_entity e' ;;
      match r with
      | Raise ex => py_raise ex
      | Ok _ =>
          if is_matched e'
          then py_modify (fun s => with_locals s (pb_processed s) (S (pb_matched s)) (pb_failed s))
          else py_ret tt
      end
  end.

(** The per-record [except Exception] (lines 520-534). *)
Definition record_failed (eid : nat) (_ : Exc) : Py PBState unit :=
  oe <- find_entity eid ;;
  (match oe with
   | Some e => store_entity (set_status_at e MANUAL_REVIEW (pb_now penv))
   | None => py_ret tt
   end) ;;
  py_modify (fun s => with_locals s (pb_processed s) (pb_matched s) (S (pb_failed s))).

(** The per-record [finally] (lines 536-543). *)
Definition record_progress (already_matched : nat) : Py PBState unit :=
  py_modify (fun s => with_locals s (S (pb_processed s)) (pb_matched s) (pb_failed s)) ;;
  py_modify (fun s => with_batch s (set_batch_counters (pb_batch s)
                                      (already_matched + pb_processed s) (pb_matched s) (pb_failed s))) ;;
  db_flush.

Definition process_record (already_matched : nat) (eid : nat) : Py PBState unit :=
  py_try_finally (py_try_except (resolve_one eid) (record_failed eid))
                 (record_progress already_matched).

(** Lines 556-565. *)
Definition final_status (matched failed : nat) : BatchStatus :=
  if Nat.ltb 0 failed && Nat.eqb matched 0 then FAILED
  else if Nat.ltb 0 failed then PARTIAL
  else COMPLETED.

(** The guarded body of [process_batch] (lines 448-572). *)
Definition process_body : Py PBState unit :=
  db_call ;;
  s <- py_get ;;
  let entities := map id (filter eligible (pb_entities s)) in
  match entities with
  | [] =>
      modify_batch (fun b => set_batch_completed (set_batch_status b COMPLETED) (pb_now penv)) ;;
      db_flush
  | _ =>
      db_call ;;
      s1 <- py_get ;;
      let all_entities := pb_entities s1 in
      modify_batch (fun b => set_batch_total b (length all_entities)) ;;
      let already_matched := length (filter is_matched all_entities) in
      py_modify (fun s2 => with_locals s2 0 already_matched 0) ;;
      py_for entities (process_record already_matched) ;;
      s3 <- py_get ;;
      modify_batch (fun b => set_batch_completed
                               (set_batch_status b (final_status (pb_matched s3) (pb_failed s3)))
                               (pb_now penv)) ;;
      db_flush
  end.

(** The outer [except Exception as e] (lines 574-584). *)
Definition batch_failed (e : Exc) : Py PBState unit :=
  modify_batch (fun b => set_batch_error (set_batch_status b FAILED)
                           (exc_type e ++ ": " ++ exc_msg e)) ;;
  db_flush ;;
  py_raise e.

(** [process_batch] (lines 407-590); [close()] in the [finally] only
    closes the HTTP client. *)
Definition process_batch (the_batch_id : nat) : Py PBState unit :=
  db_call ;;
  s <- py_get ;;
  if negb (Nat.eqb (b_id (pb_batch s)) the_batch_id) then py_raise ValueError_batch else
  modify_batch (fun b => set_batch_started (set_batch_status b PROCESSING) (pb_now penv)) ;;
  db_flush ;;
  py_try_finally (py_try_except process_body batch_failed) (py_ret tt).

End Orchestrator.

(* ------------------------------------------------------------------ *)
(** ** The ownership-tree builder ([OwnershipTreeBuilder]) *)

(** The database (entity rows, ownership rows) and the builder's visited
    sets [_visited_charities] and [_visited_companies]. *)
Record TBState := mkTBState {
  tb_entities : list Entity;
  tb_edges : list EntityOwnership;
  tb_visited_charities : list string;
  tb_visited_companies : list string }.

(** A node of the returned tree ([_entity_to_dict] plus
    ["ownership_type"] and ["children"] / ["parents"]). *)
#[warnings="-register-all"]
Inductive TreeNode := Node (eid : nat) (otype : option string) (kids : list TreeNode).

Inductive Direction := Up | Down | Both.

Record Tree := mkTree {
  tree_root : nat;
  tree_children : list TreeNode;
  tree_parents : list TreeNode;
  total_entities : Z;
  max_depth_reached : Z }.

Definition str_mem (x : string) (l : list string) : bool := existsb (String.eqb x) l.

Definition opt_mem (x : option string) (l : list string) : bool :=
  match x with Some v => str_mem v l | None => false end.

Definition next_entity_id (es : list Entity) : nat :=
  S (fold_left (fun m e => Nat.max m (id e)) es 0).

Definition ValueError_root : Exc := mkExc ExceptionClass "ValueError" "Entity not found".
Definition AttributeError_get : Exc :=
  mkExc ExceptionClass "AttributeError" "'list' object has no attribute 'get'".
Definition AttributeError_lower : Exc :=
  mkExc ExceptionClass "AttributeError" "'NoneType' object has no attribute 'lower'".

(** Runs [f] over [xs] threading a local accumulator; stops at the first
    exception and returns the accumulator reached so far with it, as a
    Python loop does with its local variables. *)
Fixpoint for_acc {S A B} (xs : list A) (acc : B) (f : B -> A -> Py S B) (s : S)
    : B * option Exc * S :=
  match xs with
  | [] => (acc, None, s)
  | x :: xs' =>
      match f acc x s with
      | (Ok acc', s') => for_acc xs' acc' f s'
      | (Raise e, s') => (acc, Some e, s')
      end
  end.

Section Builder.
Variable env : Env.

Definition add_entity (e : Entity) : Py TBState unit :=
  py_modify (fun s => mkTBState (tb_entities s ++ [e]) (tb_edges s)
                        (tb_visited_charities s) (tb_visited_companies s)).

Definition visit_company (c : string) : Py TBState unit :=
  py_modify (fun s => mkTBState (tb_entities s) (tb_edges s)
                        (tb_visited_charities s) (tb_visited_companies s ++ [c])).

Definition visit_charity (c : string) : Py TBState unit :=
  py_modify (fun s => mkTBState (tb_entities s) (tb_edges s)
                        (tb_visited_charities s ++ [c]) (tb_visited_companies s)).

(** [_get_or_create_subsidiary_entity] (ownership_builder.py, lines 267-302). *)
Definition get_or_create_subsidiary_entity (parent : Entity) (name : string)
    (cn : option string) (level : Z) : Py TBState (option Entity) :=
  s <- py_get ;;
  existing <- (if truthy cn then
                 scalar_one_or_none
                   (filter (fun e => Nat.eqb (batch_id e) (batch_id parent)
                                     && sql_eq (company_number e) cn) (tb_entities s))
               else py_ret None) ;;
  match existing with
  | Some x => py_ret (Some x)
  | None =>
      let e := {| id := next_entity_id (tb_entities s); batch_id := batch_id parent;
                  original_name := name; original_data := None;
                  entity_type := COMPANY; resolved_name := Some name;
                  charity_number := None; company_number := cn;
                  charity_status := None; charity_registration_date := None;
                  charity_removal_date := None; charity_activities := None;
                  charity_contact_email := None; charity_contact_phone := None;
                  charity_website := None; charity_address := None;
                  latest_income := None; latest_expenditure := None;
                  latest_financial_year_end := None;
                  resolution_status := MATCHED; resolution_confidence := Some 1%Q;
                  resolution_method := Some "subsidiary_discovery";
                  parent_entity_id := Some (id parent); ownership_level := level;
                  enriched_data := None; resolved_at := None |} in
      add_entity e ;;
      py_ret (Some e)
  end.

(** [_get_or_create_related_charity] (lines 304-359). *)
Definition get_or_create_related_charity (parent : Entity) (cnum : string)
    (name : string) (level : Z) : Py TBState (option Entity) :=
  s <- py_get ;;
  existing <- scalar_one_or_none
                (filter (fun e => Nat.eqb (batch_id e) (batch_id parent)
                                  && sql_eq (charity_number e) (Some cnum)) (tb_entities s)) ;;
  match existing with
  | Some x => py_ret (Some x)
  | None =>
      match get_full_charity_details env cnum with
      | None => py_ret None
      | Some charity_data =>
          let parsed := parse_charity_data env charity_data in
          let e := {| id := next_entity_id (tb_entities s); batch_id := batch_id parent;
                      original_name := name; original_data := None;
                      entity_type := CHARITY; resolved_name := p_name parsed;
                      charity_number := Some cnum; company_number := None;
                      charity_status := p_status parsed;
                      charity_registration_date := p_registration_date parsed;
                      charity_removal_date := None;
                      charity_activities := p_activities parsed;
                      charity_contact_email := p_contact_email parsed;
                      charity_contact_phone := None;
                      charity_website := p_website parsed;
                      charity_address := p_address parsed;
                      latest_income := p_latest_income parsed;
                      latest_expenditure := p_latest_expenditure parsed;
                      latest_financial_year_end := p_financial_year_end parsed;
                      resolution_status := MATCHED; resolution_confidence := Some 1%Q;
                      resolution_method := Some "related_discovery";
                      parent_entity_id := Some (id parent); ownership_level := level;
                      enriched_data := Some (mkEnriched (Some (p_trustees parsed))
                                                        (Some (p_subsidiaries parsed)) None);
                      resolved_at := None |} in
          add_entity e ;;
          py_ret (Some e)
      end
  end.

(** [_create_ownership] (lines 361-393). *)
Definition create_ownership (owner owned : nat) (otype src : string)
    (description : option string) (percentage : option Q) : Py TBState EntityOwnership :=
  s <- py_get ;;
  existing <- scalar_one_or_none
                (filter (fun o => Nat.eqb (owner_id o) owner && Nat.eqb (owned_id o) owned)
                        (tb_edges s)) ;;
  match existing with
  | Some x => py_ret x
  | None =>
      let o := {| owner_id := owner; owned_id := owned; ownership_type := Some otype;
                  ownership_percentage := percentage; relationship_description := description;
                  source := Some src; verified := true |} in
      py_modify (fun s' => mkTBState (tb_entities s') (tb_edges s' ++ [o])
                             (tb_visited_charities s') (tb_visited_companies s')) ;;
      py_ret o
  end.

(** One trustee of the parent (lines 170-215, inside the per-trustee
    [try]): the search hit whose lower-cased name equals the trustee's
    becomes a related charity; the loop breaks after it. *)
Fixpoint trustee_hits (parent : Entity) (trustee_name : option string) (level : Z)
    (charities : list RawCharity) : Py TBState (option TreeNode) :=
  match charities with
  | [] => py_ret None
  | charity :: rest =>
      s <- py_get ;;
      let charity_num := py_or truthy (rc_charityNumber charity) (rc_registeredCharityNumber charity) in
      if negb (truthy charity_num) || opt_mem charity_num (tb_visited_charities s)
      then trustee_hits parent trustee_name level rest
      else if opt_str_eqb charity_num (charity_number parent)
      then trustee_hits parent trustee_name level rest
      else
        let charity_name := match py_or truthy (rc_charityName charity) (rc_name charity) with
                            | Some n => n | None => "" end in
        match trustee_name, charity_num with
        | None, _ => py_raise AttributeError_lower
        | _, None => py_ret None
        | Some tn, Some cnum =>
            if String.eqb (str_lower charity_name) (str_lower tn) then
              visit_charity cnum ;;
              related <- get_or_create_related_charity parent cnum charity_name level ;;
              match related with
              | Some r =>
                  create_ownership (id parent) (id r) "trustee_charity" "charity_commission"
                    (Some ("Trustee: " ++ tn)) None ;;
                  py_ret (Some (Node (id r) (Some "trustee_charity") []))
              | None => py_ret None
              end
            else trustee_hits parent trustee_name level rest
        end
  end.

Definition trustee_step (parent : Entity) (level : Z) (t : Trustee) : Py TBState (option TreeNode) :=
  py_try_except
    (match search_charities env (t_name t) 3 with
     | Raise e => py_raise e
     | Ok (SRDict (Some l)) => trustee_hits parent (t_name t) level l
     | Ok (SRDict None) => py_ret None
     | Ok _ => py_raise AttributeError_get
     end)
    (fun _ => py_ret None).

Fixpoint trustees_loop (parent : Entity) (level : Z) (ts : list Trustee) : Py TBState (list TreeNode) :=
  match ts with
  | [] => py_ret []
  | t :: ts' =>
      o <- trustee_step parent level t ;;
      rest <- trustees_loop parent level ts' ;;
      py_ret (match o with Some n => n :: rest | None => rest end)
  end.

(** [_build_downward_tree] (lines 95-217).  [fuel] bounds the recursion;
    [S (Z.to_nat max_depth)] is enough since every nested call raises the
    depth by one and the guard stops it past [max_depth]. *)
Fixpoint build_downward_tree (fuel : nat) (parent : Entity) (current_depth max_depth : Z)
    : Py TBState (list TreeNode * Z) :=
  if (max_depth <? current_depth)%Z then py_ret ([], (current_depth - 1)%Z) else
  match fuel with
  | O => py_ret ([], (current_depth - 1)%Z)
  | S fuel' =>
    (* one subsidiary: returns the updated (children, max_depth_reached) *)
    let sub_step (acc : list TreeNode * Z) (sub : RawSub) : Py TBState (list TreeNode * Z) :=
      let '(children, mdr) := acc in
      let sub_name := match rsub_subsidiaryName sub with Some n => n | None => "Unknown" end in
      let cn := rsub_companyNumber sub in
      s <- py_get ;;
      if truthy cn && opt_mem cn (tb_visited_companies s) then py_ret acc else
      (match cn with Some c => if truthy cn then visit_company c else py_ret tt | None => py_ret tt end) ;;
      child <- get_or_create_subsidiary_entity parent sub_name cn current_depth ;;
      match child with
      | None => py_ret acc
      | Some ch =>
          create_ownership (id parent) (id ch) "subsidiary" "charity_commission" None None ;;
          if truthy (charity_number ch) then
            r <- build_downward_tree fuel' ch (current_depth + 1) max_depth ;;
            let '(grandchildren, depth) := r in
            py_ret (app children [Node (id ch) (Some "subsidiary") grandchildren], Z.max mdr depth)
          else py_ret (app children [Node (id ch) (Some "subsidiary") []], mdr)
      end in
    (* the [try] around the subsidiaries (lines 109-164) *)
    acc <- (if truthy (charity_number parent) then
              fun s =>
                match get_charity_subsidiaries env
                        (match charity_number parent with Some c => c | None => "" end) with
                | Raise e => if is_exception e then (Ok ([], current_depth), s) else (Raise e, s)
                | Ok subs =>
                    match for_acc subs ([], current_depth) sub_step s with
                    | (acc, None, s') => (Ok acc, s')
                    | (acc, Some e, s') => if is_exception e then (Ok acc, s') else (Raise e, s')
                    end
                end
            else py_ret ([], current_depth)) ;;
    let '(children, mdr) := acc in
    (* trustees cached on the parent (lines 166-215) *)
    related <- (if enriched_truthy (enriched_data parent) then
                  let ts := match enriched_data parent with
                            | Some en => match en_trustees en with Some l => l | None => [] end
                            | None => [] end in
                  trustees_loop parent current_depth ts
                else py_ret []) ;;
    py_ret (app children related, mdr)
  end.

Definition find_entity_by_id (s : TBState) (eid : nat) : option Entity :=
  find (fun e => Nat.eqb (id e) eid) (tb_entities s).

(** [_build_upward_tree] (lines 219-265): reads stored edges only. *)
Fixpoint build_upward_tree (fuel : nat) (child : Entity) (current_depth max_depth : Z)
    : Py TBState (list TreeNode * Z) :=
  if (max_depth <? current_depth)%Z then py_ret ([], (current_depth - 1)%Z) else
  match fuel with
  | O => py_ret ([], (current_depth - 1)%Z)
  | S fuel' =>
    s0 <- py_get ;;
    let ownerships := filter (fun o => Nat.eqb (owned_id o) (id child)) (tb_edges s0) in
    let step (acc : list TreeNode * Z) (o : EntityOwnership) : Py TBState (list TreeNode * Z) :=
      let '(parents, mdr) := acc in
      s <- py_get ;;
      match find_entity_by_id s (owner_id o) with
      | None => py_ret acc
      | Some owner =>
          if truthy (charity_number owner) && opt_mem (charity_number owner) (tb_visited_charities s)
          then py_ret acc else
          (match charity_number owner with
           | Some c => if truthy (Some c) then visit_charity c else py_ret tt
           | None => py_ret tt end) ;;
          r <- build_upward_tree fuel' owner (current_depth + 1) max_depth ;;
          let '(grandparents, depth) := r in
          py_ret (app parents [Node (id owner) (ownership_type o) grandparents], Z.max mdr depth)
      end in
    fun s => match for_acc ownerships ([], current_depth) step s with
             | (acc, None, s') => (Ok acc, s')
             | (_, Some e, s') => (Raise e, s')
             end
  end.

(** [_count_tree_entities] *)
Fixpoint count_node (n : TreeNode) : Z :=
  match n with
  | Node _ _ kids =>
      1 + (fix count_list (l : list TreeNode) : Z :=
             match l with [] => 0 | k :: l' => count_node k + count_list l' end) kids
  end%Z.

Definition count_tree_entities (nodes : list TreeNode) : Z :=
  fold_right (fun n acc => count_node n + acc)%Z 0%Z nodes.

Definition reset_visited (root : Entity) : Py TBState unit :=
  py_modify (fun s => mkTBState (tb_entities s) (tb_edges s)
                        (match charity_number root with
                         | Some c => if truthy (Some c) then [c] else [] | None => [] end)
                        (match company_number root with
                         | Some c => if truthy (Some c) then [c] else [] | None => [] end)).

(** [build_tree_for_entity] (lines 30-93). *)
Definition build_tree_for_entity (entity_id : nat) (max_depth : Z) (direction : Direction)
    : Py TBState Tree :=
  s <- py_get ;;
  match find_entity_by_id s entity_id with
  | None => py_raise ValueError_root
  | Some root =>
      reset_visited root ;;
      let fuel := S (Z.to_nat max_depth) in
      down <- (match direction with
               | Down | Both => if truthy (charity_number root)
                                then build_downward_tree fuel root 1 max_depth
                                else py_ret ([], 0%Z)
               | Up => py_ret ([], 0%Z)
               end) ;;
      let '(children, d1) := down in
      up <- (match direction with
             | Up | Both => build_upward_tree fuel root 1 max_depth
             | Down => py_ret ([], 0%Z)
             end) ;;
      let '(parents, d2) := up in
      py_ret {| tree_root := id root; tree_children := children; tree_parents := parents;
                total_entities := 1 + count_tree_entities children + count_tree_entities parents;
                max_depth_reached := Z.max 0 (Z.max d1 d2) |}
  end.

End Builder.

Section BatchTrees.
Variable env : Env.

(** [build_trees_for_batch] (ownership_builder.py, lines 418-468): the
    matched root Records (ownership level 0) of the batch are selected once,
    before the loop; a build that raises an [Exception] is logged and
    skipped.  The result is [(trees_built, total_related_entities)]. *)
Definition build_trees_for_batch (the_batch_id : nat) (max_depth : Z) : Py TBState (nat * Z) :=
  s <- py_get ;;
  let entities := filter (fun e => Nat.eqb (batch_id e) the_batch_id && is_matched e
                                   && Z.eqb (ownership_level e) 0) (tb_entities s) in
  let step (acc : nat * Z) (e : Entity) : Py TBState (nat * Z) :=
    let '(trees_built, total_related) := acc in
    py_try_except
      (py_modify (fun s' => mkTBState (tb_entities s') (tb_edges s') [] []) ;;
       tree <- build_tree_for_entity env (id e) max_depth Down ;;
       py_ret (S trees_built, (total_related + (total_entities tree - 1))%Z))
      (fun _ => py_ret acc) in
  fun s1 => match for_acc entities (0, 0%Z) step s1 with
            | (acc, None, s2) => (Ok acc, s2)
            | (_, Some e, s2) => (Raise e, s2)
            end.

End BatchTrees.

(* ------------------------------------------------------------------ *)
(** ** The registry client ([CharityCommissionService]) and name
    normalisation

    Text is ASCII, as for [extract_charity_number]: [str.isspace] and the
    regex class [\s] are the characters 9-13 and 28-32, [\w] is
    [[A-Za-z0-9_]]. *)

Definition py_isspace (c : ascii) : bool :=
  let n := nat_of_ascii c in (Nat.leb 9 n && Nat.leb n 13) || (Nat.leb 28 n && Nat.leb n 32).

Fixpoint lstrip_chars (l : list ascii) : list ascii :=
  match l with
  | c :: l' => if py_isspace c then lstrip_chars l' else l
  | [] => []
  end.

(** [s.strip()] *)
Definition py_strip (s : string) : string :=
  string_of_list_ascii (rev (lstrip_chars (rev (lstrip_chars (list_ascii_of_string s))))).

(** [s.split()]: the maximal runs of non-whitespace characters; [cur] is
    the run being read, reversed. *)
Fixpoint split_go (l cur : list ascii) : list (list ascii) :=
  match l with
  | [] => match cur with [] => [] | _ => [rev cur] end
  | c :: l' =>
      if py_isspace c
      then match cur with [] => split_go l' [] | _ => rev cur :: split_go l' [] end
      else split_go l' (c :: cur)
  end.

Definition py_split (s : string) : list string :=
  map string_of_list_ascii (split_go (list_ascii_of_string s) []).

(** [' '.join(words)] *)
Fixpoint join_space (ws : list string) : string :=
  match ws with
  | [] => ""
  | [w] => w
  | w :: ws' => w ++ " " ++ join_space ws'
  end.

Fixpoint is_prefix (p l : list ascii) : bool :=
  match p, l with
  | [], _ => true
  | c :: p', d :: l' => Ascii.eqb c d && is_prefix p' l'
  | _ :: _, [] => false
  end.

Fixpoint contains_go (hay needle : list ascii) : bool :=
  is_prefix needle hay || match hay with [] => false | _ :: h => contains_go h needle end.

(** [needle in hay] on strings. *)
Definition str_contains (hay needle : string) : bool :=
  contains_go (list_ascii_of_string hay) (list_ascii_of_string needle).

(** [s.replace(old, "")]: the occurrences of [old] are found left to right
    without overlapping; [skip] counts the characters of the occurrence
    being removed that are still ahead. *)
Fixpoint remove_go (old : list ascii) (skip : nat) (l : list ascii) : list ascii :=
  match l with
  | [] => []
  | c :: l' =>
      match skip with
      | S k => remove_go old k l'
      | O => if is_prefix old l then remove_go old (length old - 1) l'
             else c :: remove_go old 0 l'
      end
  end.

Definition str_remove (old s : string) : string :=
  match list_ascii_of_string old with
  | [] => s
  | o => string_of_list_ascii (remove_go o 0 (list_ascii_of_string s))
  end.

(** [[a-zA-Z0-9]] *)
Definition is_alnum (c : ascii) : bool := is_digit c || is_upper c || is_lower c.

(** [normalize_charity_number] (charity_commission.py, lines 47-52):
    [re.sub(r'[^a-zA-Z0-9]', '', charity_number.strip()).upper()]. *)
Definition normalize_charity_number (charity_number : string) : string :=
  str_upper (string_of_list_ascii
               (filter is_alnum (list_ascii_of_string (py_strip charity_number)))).

(** A search hit of [_get_mock_search_results]. *)
Definition mock_hit (num name : string) : RawCharity :=
  {| rc_charityNumber := Some num; rc_registeredCharityNumber := None;
     rc_charityName := Some name; rc_name := None;
     rc_registrationStatus := Some "Registered"; rc_registrationDate := None;
     rc_removalDate := None; rc_activities := None; rc_contact := None;
     rc_trustees := []; rc_accounts := []; rc_subsidiaries := [] |}.

(** The dict [mock_charities] of [_get_mock_search_results], in insertion
    order (lines 122-134). *)
Definition mock_charities : list (string * RawCharity) :=
  [ ("british red cross", mock_hit "220949" "THE BRITISH RED CROSS SOCIETY");
    ("oxfam", mock_hit "202918" "OXFAM");
    ("cancer research uk", mock_hit "1089464" "CANCER RESEARCH UK");
    ("nspcc", mock_hit "216401" "NATIONAL SOCIETY FOR THE PREVENTION OF CRUELTY TO CHILDREN");
    ("save the children", mock_hit "213890" "SAVE THE CHILDREN INTERNATIONAL");
    ("barnardo's", mock_hit "216250" "BARNARDO'S");
    ("barnardos", mock_hit "216250" "BARNARDO'S");
    ("marie curie", mock_hit "207994" "MARIE CURIE");
    ("macmillan", mock_hit "261017" "MACMILLAN CANCER SUPPORT");
    ("age uk", mock_hit "1128267" "AGE UK");
    ("shelter", mock_hit "263710" "SHELTER, NATIONAL CAMPAIGN FOR HOMELESS PEOPLE LIMITED") ].

(** [_get_mock_search_results] (lines 119-150). *)
Definition get_mock_search_results (search_term : string) : SearchResponse :=
  let search_lower := py_strip (str_lower search_term) in
  let results := map snd (filter (fun kc => str_contains (fst kc) search_lower
                                            || str_contains search_lower (fst kc))
                                  mock_charities) in
  let results :=
    match results with
    | [] => map snd (filter (fun kc => existsb (fun word => str_contains (fst kc) word)
                                                 (py_split search_lower))
                            mock_charities)
    | _ => results
    end in
  SRDict (Some results).

(** An entry of [mock_details]; the keys a payload lacks read as [None]. *)
Definition mock_detail (num name : string) (date : option string) (activities : string)
    (contact : Contact) : RawCharity :=
  {| rc_charityNumber := Some num; rc_registeredCharityNumber := None;
     rc_charityName := Some name; rc_name := None;
     rc_registrationStatus := Some "Registered"; rc_registrationDate := date;
     rc_removalDate := None; rc_activities := Some activities; rc_contact := Some contact;
     rc_trustees := []; rc_accounts := []; rc_subsidiaries := [] |}.

Definition web_only (web : string) : Contact :=
  mkContact None None (Some web) None None None None None.

(** The dict [mock_details] of [_get_mock_charity_details] (lines 192-288). *)
Definition mock_details : list (string * RawCharity) :=
  [ ("220949", mock_detail "220949" "THE BRITISH RED CROSS SOCIETY" (Some "1963-01-01T00:00:00Z")
       "The British Red Cross helps people in crisis, whoever and wherever they are."
       (mkContact (Some "information@redcross.org.uk") (Some "0344 871 11 11")
          (Some "https://www.redcross.org.uk") (Some "44 Moorfields") (Some "London")
          None None (Some "EC2Y 9AL")));
    ("202918", mock_detail "202918" "OXFAM" (Some "1962-01-01T00:00:00Z")
       "Oxfam works to find solutions to poverty and injustice around the world."
       (mkContact (Some "enquiries@oxfam.org.uk") (Some "0300 200 1300")
          (Some "https://www.oxfam.org.uk") (Some "Oxfam House") (Some "John Smith Drive")
          (Some "Oxford") None (Some "OX4 2JY")));
    ("1089464", mock_detail "1089464" "CANCER RESEARCH UK" (Some "2002-02-04T00:00:00Z")
       "Cancer Research UK is dedicated to saving lives through research, influence and information."
       (mkContact (Some "supporter.services@cancer.org.uk") (Some "0300 123 1022")
          (Some "https://www.cancerresearchuk.org") (Some "2 Redman Place") (Some "London")
          None None (Some "E20 1JQ")));
    ("216401", mock_detail "216401" "NATIONAL SOCIETY FOR THE PREVENTION OF CRUELTY TO CHILDREN" None
       "NSPCC is the leading children's charity fighting to end child abuse."
       (web_only "https://www.nspcc.org.uk"));
    ("213890", mock_detail "213890" "SAVE THE CHILDREN INTERNATIONAL" None
       "Save the Children fights for children's rights and delivers immediate and lasting improvements."
       (web_only "https://www.savethechildren.org.uk"));
    ("216250", mock_detail "216250" "BARNARDO'S" None
       "Barnardo's supports vulnerable children, young people and their families."
       (web_only "https://www.barnardos.org.uk"));
    ("207994", mock_detail "207994" "MARIE CURIE" None
       "Marie Curie provides care and support for people living with terminal illness."
       (web_only "https://www.mariecurie.org.uk"));
    ("261017", mock_detail "261017" "MACMILLAN CANCER SUPPORT" None
       "Macmillan Cancer Support provides specialist health care and support services."
       (web_only "https://www.macmillan.org.uk"));
    ("1128267", mock_detail "1128267" "AGE UK" None
       "Age UK helps everyone make the most of later life."
       (web_only "https://www.ageuk.org.uk"));
    ("263710", mock_detail "263710" "SHELTER, NATIONAL CAMPAIGN FOR HOMELESS PEOPLE LIMITED" None
       "Shelter helps millions of people struggling with bad housing or homelessness."
       (web_only "https://www.shelter.org.uk")) ].

(** [d.get(k)] on a dict given as its list of items. *)
Definition dict_get {A} (k : string) (d : list (string * A)) : option A :=
  match find (fun kv => String.eqb (fst kv) k) d with Some (_, v) => Some v | None => None end.

(** [_get_mock_charity_details] (lines 190-293). *)
Definition get_mock_charity_details (charity_number : string) : option RawCharity :=
  dict_get charity_number mock_details.

(** The outcome of one [await client.get(...)]: a response, with its status
    code and what [response.json()] gives, or an exception of the
    transport. *)
Inductive HttpReply (A : Type) :=
  | HttpResponse (status_code : Z) (json : Result A)
  | HttpFailure (e : Exc).
Arguments HttpResponse {A} status_code json.
Arguments HttpFailure {A} e.

(** [response.raise_for_status()] raises unless the status is 2xx. *)
Definition is_success (code : Z) : bool := (200 <=? code)%Z && (code <? 300)%Z.

Definition HTTPStatusError (code : Z) : Exc :=
  mkExc ExceptionClass "HTTPStatusError" "raise_for_status".

(** The query parameters of [/allcharities]. *)
Record SearchRequest := mkSearchRequest {
  q_searchText : string; q_status : option string; q_page : nat; q_pageSize : nat }.

(** One attempt of [search_charities] (lines 70-117); [tenacity]'s
    retries are outside the function. *)
Definition search_charities_once (api_key : option string)
    (http_get : SearchRequest -> HttpReply SearchResponse)
    (search_term : string) (st : option string) (page page_size : nat) : Result SearchResponse :=
  if negb (truthy api_key) then Ok (get_mock_search_results search_term) else
  let params := mkSearchRequest search_term (if truthy st then st else None) page page_size in
  match http_get params with
  | HttpFailure e => Raise e
  | HttpResponse code json =>
      if is_success code then json
      else if Z.eqb code 401 || Z.eqb code 403 || Z.eqb code 404
      then Ok (get_mock_search_results search_term)
      else Raise (HTTPStatusError code)
  end.

(** One attempt of [get_charity_by_number] (lines 152-188). *)
Definition get_charity_by_number_once (api_key : option string)
    (http_get : string -> HttpReply (option RawCharity)) (charity_number : string)
    : Result (option RawCharity) :=
  let normalized := normalize_charity_number charity_number in
  if negb (truthy api_key) then Ok (get_mock_charity_details normalized) else
  match http_get ("/charities/" ++ normalized) with
  | HttpFailure e => Raise e
  | HttpResponse code json =>
      if Z.eqb code 404 then Ok None
      else if is_success code then json
      else if Z.eqb code 404 then Ok (get_mock_charity_details normalized)
      else if Z.eqb code 401 || Z.eqb code 403 then Ok (get_mock_charity_details normalized)
      else Raise (HTTPStatusError code)
  end.

(** One attempt of [get_charity_trustees], [get_charity_accounts] or
    [get_charity_subsidiaries] (lines 295-380), which differ only in the
    last path segment. *)
Definition get_registry_list_once {A} (segment : string)
    (http_get : string -> HttpReply (list A)) (charity_number : string) : Result (list A) :=
  let normalized := normalize_charity_number charity_number in
  match http_get ("/charities/" ++ normalized ++ segment) with
  | HttpFailure e => Raise e
  | HttpResponse code json =>
      if Z.eqb code 404 then Ok []
      else if is_success code then json
      else if Z.eqb code 404 then Ok []
      else Raise (HTTPStatusError code)
  end.

Definition get_charity_trustees_once := @get_registry_list_once RawTrustee "/trustees".
Definition get_charity_accounts_once := @get_registry_list_once Account "/accounts".
Definition get_charity_subsidiaries_once := @get_registry_list_once RawSub "/subsidiaries".

Definition name_suffixes : list string :=
  [" limited"; " ltd"; " plc"; " llp"; " cic"; " cio";
   " charity"; " charitable"; " trust"; " foundation";
   " association"; " society"; " organisation"; " organization";
   " uk"; " england"; " wales"; " scotland"].

(** [normalize_name] (entity_resolver.py, lines 50-67). *)
Definition normalize_name (name : string) : string :=
  let normalized := str_lower name in
  let normalized := fold_left (fun acc suffix => str_remove suffix acc) name_suffixes normalized in
  let normalized := string_of_list_ascii
                      (filter (fun c => is_word c || py_isspace c) (list_ascii_of_string normalized)) in
  let normalized := join_space (py_split normalized) in
  py_strip normalized.

(* ------------------------------------------------------------------ *)
(** ** Concrete fixtures *)

(** Candidates ranked by descending similarity. *)
Definition cand_ge (a b : Candidate) : Prop := (cand_similarity b <= cand_similarity a)%Q.

(** What [resolve_by_search] keeps of a CandidateMatch row: its record,
    its registry number and its selection flag. *)
Definition row_key (r : EntityResolution) : nat * option string * bool :=
  (er_entity_id r, er_charity_number r, er_is_selected r).

(** The (owner, owned) pair filter of [_create_ownership]'s query. *)
Definition edge_pair (owner owned : nat) (o : EntityOwnership) : bool :=
  Nat.eqb (owner_id o) owner && Nat.eqb (owned_id o) owned.

(** No two OwnershipEdges share an (owner, owned) pair. *)
Definition pairs_unique (edges : list EntityOwnership) : Prop :=
  forall owner owned, length (filter (edge_pair owner owned) edges) <= 1.



(** [m] only ever moves the state along [R], whatever its outcome. *)
Definition preserves {S A} (R : S -> S -> Prop) (m : Py S A) : Prop :=
  forall s r s', m s = (r, s') -> R s s'.

(** Entity rows are only appended, and each appended row satisfies [P]. *)
Definition grows (P : Entity -> Prop) (s s' : TBState) : Prop :=
  exists new, tb_entities s' = app (tb_entities s) new /\ Forall P new.

(** Ownership rows stay unique per (owner, owned) pair. *)
Definition edges_stay_unique (s s' : TBState) : Prop :=
  pairs_unique (tb_edges s) -> pairs_unique (tb_edges s').

(** The row built by [_get_or_create_subsidiary_entity]. *)
Definition sub_record_ok (cn : option string) (level : Z) (e : Entity) : Prop :=
  entity_type e = COMPANY /\ company_number e = cn /\ charity_number e = None /\
  ownership_level e = level /\ resolution_status e = MATCHED /\
  resolution_confidence e = Some 1%Q /\ resolution_method e = Some "subsidiary_discovery".

(** The row built by [_get_or_create_related_charity]. *)
Definition rel_record_ok (cnum : string) (level : Z) (e : Entity) : Prop :=
  entity_type e = CHARITY /\ charity_number e = Some cnum /\
  ownership_level e = level /\ resolution_status e = MATCHED /\
  resolution_confidence e = Some 1%Q /\ resolution_method e = Some "related_discovery".

(** A row added by a tree build of depth [D]. *)
Definition builder_record_ok (D : Z) (e : Entity) : Prop :=
  (1 <= ownership_level e <= D)%Z /\ resolution_status e = MATCHED /\
  resolution_confidence e = Some 1%Q /\
  (resolution_method e = Some "related_discovery" -> truthy (charity_number e) = true).

Definition status_matched (st : ResolutionStatus) : bool :=
  match st with MATCHED | CONFIRMED => true | _ => false end.

(** A matched or confirmed entity has a confidence. *)
Definition confidence_inv (e : Entity) : Prop :=
  status_matched (resolution_status e) = true -> resolution_confidence e <> None.

(** The height of a returned tree node, and of a list of nodes. *)
Fixpoint node_height (n : TreeNode) : Z :=
  match n with
  | Node _ _ kids =>
      1 + (fix height_list (l : list TreeNode) : Z :=
             match l with [] => 0 | k :: l' => Z.max (node_height k) (height_list l') end) kids
  end%Z.

Definition forest_height (nodes : list TreeNode) : Z :=
  fold_right (fun n acc => Z.max (node_height n) acc) 0%Z nodes.

(** Records and ownership rows are left as they are. *)
Definition same_rows (s s' : TBState) : Prop :=
  tb_entities s' = tb_entities s /\ tb_edges s' = tb_edges s.

(** A CandidateMatch row with [is_selected] set. *)
Definition select_row (x : EntityResolution) : EntityResolution :=
  {| er_id := er_id x; er_entity_id := er_entity_id x; er_charity_number := er_charity_number x;
     er_candidate_name := er_candidate_name x; er_candidate_data := er_candidate_data x;
     er_confidence_score := er_confidence_score x; er_match_method := er_match_method x;
     er_is_selected := true |}.

(** [m] returns only values satisfying [Q]. *)
Definition returns {S A} (Q : A -> Prop) (m : Py S A) : Prop :=
  forall s a s', m s = (Ok a, s') -> Q a.

Module Fixtures.

Definition raw_charity (num name : string) : RawCharity :=
  {| rc_charityNumber := Some num; rc_registeredCharityNumber := None;
     rc_charityName := Some name; rc_name := None;
     rc_registrationStatus := Some "Registered"; rc_registrationDate := None;
     rc_removalDate := None; rc_activities := None; rc_contact := None;
     rc_trustees := []; rc_accounts := []; rc_subsidiaries := [] |}.

Definition ConnectError : Exc := mkExc ExceptionClass "ConnectError" "connection refused".

(** A registry with the given detail, subsidiary and search answers;
    trustee and account lists are empty and no OpenAI key is set. *)
Definition test_env (byno : string -> Result (option RawCharity))
    (subs : string -> Result (list RawSub))
    (search : option string -> nat -> Result SearchResponse)
    (sim : string -> string -> Q) : Env :=
  {| get_charity_by_number := byno;
     get_charity_trustees := fun _ => Ok [];
     get_charity_accounts := fun _ => Ok [];
     get_charity_subsidiaries := subs;
     search_charities := search;
     openai_client := false;
     openai_chat := fun _ _ => Raise ConnectError;
     calculate_similarity := sim;
     fromisoformat := fun _ => None;
     utcnow := "2026-01-01T00:00:00" |}.

Definition mk_entity (i b : nat) (name : string) (cn : option string) (st : ResolutionStatus)
    (data : option (list (string * PyScalar))) : Entity :=
  {| id := i; batch_id := b; original_name := name; original_data := data;
     entity_type := UNKNOWN; resolved_name := None; charity_number := cn;
     company_number := None; charity_status := None; charity_registration_date := None;
     charity_removal_date := None; charity_activities := None;
     charity_contact_email := None; charity_contact_phone := None;
     charity_website := None; charity_address := None; latest_income := None;
     latest_expenditure := None; latest_financial_year_end := None;
     resolution_status := st; resolution_confidence := None; resolution_method := None;
     parent_entity_id := None; ownership_level := 0; enriched_data := None;
     resolved_at := None |}.

(** A matched root charity whose registry entry lists one subsidiary
    company without a company number. *)
Definition root_entity : Entity :=
  set_resolution (mk_entity 1 1 "Helping Hands" (Some "1000001") PENDING None)
    MATCHED (Some 1%Q) (Some "direct_lookup") None.

Definition sub_env : Env :=
  test_env (fun n => if String.eqb n "1000001" then Ok (Some (raw_charity "1000001" "HELPING HANDS"))
                     else Ok None)
           (fun n => if String.eqb n "1000001"
                     then Ok [mkRawSub (Some "Helping Hands Trading") None] else Ok [])
           (fun _ _ => Ok (SRDict (Some [])))
           (fun _ _ => 0%Q).

Definition tb0 : TBState := mkTBState [root_entity] [] [] [].

Definition run_tree (st : TBState) : TBState :=
  snd (build_tree_for_entity sub_env 1 3 Down st).

(** Two search hits scoring 0.6 and 0.55, no AI. *)
Definition two_hits_env (search_result : Result SearchResponse) : Env :=
  test_env (fun _ => Ok None) (fun _ => Ok [])
           (fun _ _ => search_result)
           (fun _ b => if String.eqb b "ALPHA CARE" then (6 # 10)%Q else (55 # 100)%Q).

Definition two_hits : Result SearchResponse :=
  Ok (SRDict (Some [raw_charity "300001" "ALPHA CARE"; raw_charity "300002" "ALPHA CARE TRUST"])).

Definition rec_mm : Entity := mk_entity 7 1 "Alpha Care" None MULTIPLE_MATCHES None.

Definition candidate_row (rid : nat) (num name : string) (score : Q) : EntityResolution :=
  {| er_id := rid; er_entity_id := 7; er_charity_number := Some num;
     er_candidate_name := Some name; er_candidate_data := Some (raw_charity num name);
     er_confidence_score := score; er_match_method := "fuzzy_search"; er_is_selected := false |}.

(** The state of [rec_mm] after an earlier pass: its two candidate rows. *)
Definition rs_mm : RState :=
  mkRState rec_mm [candidate_row 1 "300001" "ALPHA CARE" (6 # 10);
                   candidate_row 2 "300002" "ALPHA CARE TRUST" (55 # 100)].

Definition rows_of (eid : nat) (s : RState) : list EntityResolution :=
  filter (fun r => Nat.eqb (er_entity_id r) eid) (rs_resolutions s).

(** A batch with two pending records. *)
Definition batch0 : EntityBatch := mkEntityBatch 1 UPLOADED 2 0 0 0 None None None.

Definition pb0 : PBState :=
  mkPBState batch0 [mk_entity 1 1 "Org A" None PENDING None;
                    mk_entity 2 1 "Org B" None PENDING None] [] 0 0 0 0.

(** The per-record resolver: record 1 raises [exc1] after no change,
    record 2 ends in [st2]. *)
Definition pb_env (exc1 : option Exc) (st2 : ResolutionStatus) : PBEnv :=
  {| db_fault := fun _ => None;
     resolve := fun e => if Nat.eqb (id e) 1
                         then match exc1 with
                              | Some x => (Raise x, e)
                              | None => (Ok tt, set_status e st2)
                              end
                         else (Ok tt, set_status e st2);
     pb_now := "2026-01-01T00:00:00" |}.

(** A registry with the [two_hits] search and an OpenAI client that
    always selects the second candidate. *)
Definition ai_env : Env :=
  {| get_charity_by_number := fun _ => Ok None;
     get_charity_trustees := fun _ => Ok [];
     get_charity_accounts := fun _ => Ok [];
     get_charity_subsidiaries := fun _ => Ok [];
     search_charities := fun _ _ => two_hits;
     openai_client := true;
     openai_chat := fun _ _ => Ok (mkAIResponse true (Some 2%Z) None None);
     calculate_similarity := fun _ b => if String.eqb b "ALPHA CARE" then (6 # 10)%Q else (55 # 100)%Q;
     fromisoformat := fun _ => None;
     utcnow := "2026-01-01T00:00:00" |}.


(** [pb0] with a third, already matched record. *)
Definition pb3 : PBState :=
  mkPBState batch0
    [mk_entity 1 1 "Org A" None PENDING None;
     mk_entity 2 1 "Org B" None PENDING None;
     mk_entity 3 1 "Org C" (Some "300001") MATCHED None] [] 0 0 0 0.

End Fixtures.

(* ------------------------------------------------------------------ *)
(** ** Sanity checks of the embedding *)

Example extract_ex1 : extract_charity_number "British Red Cross (220949)" = Some "220949".
Proof. reflexivity. Qed.
Example extract_ex2 : extract_charity_number "reg no sc012345" = Some "SC012345".
Proof. reflexivity. Qed.
Example extract_ex3 : extract_charity_number "ref 1234567890" = None.
Proof. reflexivity. Qed.
Example extract_ex4 : extract_charity_number "NI12345 or 123456" = Some "123456".
Proof. reflexivity. Qed.
Example extract_ex5 : extract_charity_number "abc123456" = None.
Proof. reflexivity. Qed.


(* ------------------------------------------------------------------ *)
(** ** Number extraction: shape of the extracted number *)

Open Scope list_scope.

(** A registry-number shape: 6-8 digits, or [SC] / [NI] and 5-6 digits. *)
Definition number_shaped (n : string) : Prop :=
  let l := list_ascii_of_string n in
  (forallb is_digit l = true /\ 6 <= length l <= 8) \/
  (exists d, l = app ["S"; "C"]%char d /\ forallb is_digit d = true /\ 5 <= length d <= 6) \/
  (exists d, l = app ["N"; "I"]%char d /\ forallb is_digit d = true /\ 5 <= length d <= 6).

Lemma search_from_suffix (pt : Pattern) : forall l prev g,
  search_from pt prev l = Some g -> exists prev' l', match_at pt prev' l' = Some g.
Proof.
  induction l as [|c l IH]; intros prev g H; simpl in H.
  - destruct (match_at pt prev []) eqn:E; [inversion H; subst; eauto | discriminate].
  - destruct (match_at pt prev (c :: l)) eqn:E.
    + inversion H; subst; eauto.
    + eapply IH; eauto.
Qed.

Lemma prefix_ci_split : forall p l rest,
  prefix_ci p l = Some rest ->
  exists q, l = q ++ rest /\ map upper_char q = map upper_char p.
Proof.
  induction p as [|c p IH]; intros l rest H; simpl in H.
  - inversion H; subst. exists []. auto.
  - destruct l as [|d l]; [discriminate|].
    destruct (Ascii.eqb (upper_char c) (upper_char d)) eqn:E; [|discriminate].
    apply Ascii.eqb_eq in E.
    destruct (IH _ _ H) as [q [Hl Hq]]. exists (d :: q). subst. simpl. rewrite Hq, E. auto.
Qed.

Lemma prefix_ci_length : forall p l rest,
  prefix_ci p l = Some rest -> length l = length p + length rest.
Proof.
  induction p as [|c p IH]; intros l rest H; simpl in H.
  - inversion H; subst; reflexivity.
  - destruct l as [|d l]; [discriminate|].
    destruct (Ascii.eqb (upper_char c) (upper_char d)); [|discriminate].
    simpl. rewrite (IH _ _ H). reflexivity.
Qed.

Lemma digits_greedy_spec : forall k lo before l prev k',
  digits_greedy k lo before l prev = Some k' ->
  lo <= k' <= k /\ k' <= length l /\ forallb is_digit (firstn k' l) = true.
Proof.
  induction k as [|k IH]; intros lo before l prev k' H; cbn [digits_greedy] in H;
    match type of H with context [if ?b then _ else _] => destruct b eqn:E end.
  - inversion H; subst.
    repeat (apply andb_true_iff in E; destruct E as [E ?]).
    apply Nat.leb_le in E. split; [lia|]. split; [lia|assumption].
  - discriminate.
  - inversion H; subst.
    repeat (apply andb_true_iff in E; destruct E as [E ?]).
    apply Nat.leb_le in E.
    match goal with Hx : Nat.leb _ _ = true |- _ => apply Nat.leb_le in Hx end.
    split; [lia|]. split; [lia|assumption].
  - destruct (Nat.ltb k lo); [discriminate|].
    destruct (IH _ _ _ _ _ H) as [? [? ?]]. split; [lia|]. split; assumption.
Qed.

Lemma upper_digit : forall c, is_digit c = true -> upper_char c = c.
Proof.
  intros c H. unfold upper_char, is_lower. unfold is_digit in H.
  apply andb_true_iff in H as [H1 H2]. apply Nat.leb_le in H1, H2.
  destruct (Nat.leb 97 (nat_of_ascii c)) eqn:E1; [apply Nat.leb_le in E1; lia|]. reflexivity.
Qed.

Lemma map_upper_digits : forall l, forallb is_digit l = true -> map upper_char l = l.
Proof.
  induction l as [|c l IH]; simpl; intros H; [reflexivity|].
  apply andb_true_iff in H as [H1 H2]. rewrite upper_digit, IH; auto.
Qed.

Lemma match_at_shape : forall pt prev l g,
  match_at pt prev l = Some g ->
  exists q d, g = q ++ d /\ map upper_char q = map upper_char (pat_prefix pt) /\
              forallb is_digit d = true /\ pat_lo pt <= length d <= pat_hi pt.
Proof.
  intros pt prev l g H. unfold match_at in H.
  destruct (boundary prev (hd_error l)); [|discriminate].
  destruct (prefix_ci (pat_prefix pt) l) as [rest|] eqn:Hp; [|discriminate].
  destruct (digits_greedy (pat_hi pt) (pat_lo pt) (firstn (length (pat_prefix pt)) l) rest prev)
    as [k|] eqn:Hd; [|discriminate].
  inversion H; subst g; clear H.
  destruct (prefix_ci_split _ _ _ Hp) as [q [Hl Hq]].
  assert (Hlen : length q = length (pat_prefix pt)).
  { rewrite <- (length_map upper_char q), Hq, length_map. reflexivity. }
  destruct (digits_greedy_spec _ _ _ _ _ _ Hd) as [Hk [Hkl Hdig]].
  exists q, (firstn k rest). rewrite Hl, firstn_app, <- Hlen.
  replace (length q + k - length q) with k by lia.
  rewrite firstn_all2 by lia.
  repeat split; auto; rewrite length_firstn; lia.
Qed.

Lemma extract_charity_number_shape : forall text n,
  extract_charity_number text = Some n -> number_shaped n.
Proof.
  intros text n H. unfold extract_charity_number in H.
  destruct (first_pattern charity_patterns (list_ascii_of_string text)) as [g|] eqn:Hf;
    [|discriminate].
  inversion H; subst n; clear H.
  assert (Hpt : exists pt, In pt charity_patterns /\ exists prev l, match_at pt prev l = Some g).
  { revert Hf. generalize charity_patterns as pts.
    induction pts as [|pt pts IH]; simpl; intros Hf; [discriminate|].
    destruct (search_from pt None (list_ascii_of_string text)) eqn:Hs.
    - inversion Hf; subst. exists pt. split; auto. eapply search_from_suffix; eauto.
    - destruct (IH Hf) as [pt' [Hin Hm]]. exists pt'. auto. }
  destruct Hpt as [pt [Hin [prev [l Hm]]]].
  destruct (match_at_shape _ _ _ _ Hm) as [q [d [Hg [Hq [Hd Hlen]]]]].
  unfold number_shaped, str_upper.
  rewrite !list_ascii_of_string_of_list_ascii, Hg, map_app, Hq, (map_upper_digits d Hd).
  simpl in Hin. destruct Hin as [<-|[<-|[<-|[]]]]; simpl in *.
  - left. split; [exact Hd | lia].
  - right; left. exists d. auto.
  - right; right. exists d. auto.
Qed.

(* ------------------------------------------------------------------ *)
(** ** Claims *)

(** C9: in stage 2, [resolve_entity] extracts a number from
    [original_name], else from the first string value of [original_data]
    that contains one; the number has a registry shape (6-8 digits, or SC /
    NI and 5-6 digits, read case-insensitively); when its details fetch
    succeeds the record becomes [matched] with method [number_extraction]
    and confidence 0.95, and the pipeline stops there (no search, no
    CandidateMatch row). *)
Theorem C9_number_extraction_stage :
  forall (env : Env) (use_ai : bool) (e : Entity) (rows : list EntityResolution)
         (n : string) (d : RawCharity),
  (if truthy (charity_number e) then details_of env (charity_number e) else None) = None ->
  extracted_number e = Some n ->
  get_full_charity_details env n = Some d ->
  resolve_entity env use_ai (mkRState e rows)
    = (Ok tt, mkRState (update_entity_from_charity (utcnow env) e (parse_charity_data env d)
                          "number_extraction" q95) rows) /\
  resolution_status (update_entity_from_charity (utcnow env) e (parse_charity_data env d)
                       "number_extraction" q95) = MATCHED /\
  resolution_method (update_entity_from_charity (utcnow env) e (parse_charity_data env d)
                       "number_extraction" q95) = Some "number_extraction" /\
  resolution_confidence (update_entity_from_charity (utcnow env) e (parse_charity_data env d)
                           "number_extraction" q95) = Some q95 /\
  extracted_number e = match extract_charity_number (original_name e) with
                       | Some m => Some m
                       | None => match original_data e with
                                 | Some kvs => scan_original_data kvs | None => None end
                       end /\
  number_shaped n.
Proof.
  intros env use_ai e rows n d Hdirect Hext Hfull.
  split; [|split; [reflexivity|split; [reflexivity|split; [reflexivity|split]]]].
  - cbv beta zeta iota delta [resolve_entity py_bind get_entity rs_entity].
    rewrite Hdirect, Hext, Hfull. reflexivity.
  - reflexivity.
  - unfold extracted_number in Hext.
    destruct (extract_charity_number (original_name e)) eqn:Hn.
    + inversion Hext; subst. eapply extract_charity_number_shape; eauto.
    + destruct (original_data e) as [kvs|]; [|discriminate].
      clear -Hext. induction kvs as [|[k v] kvs IH]; simpl in Hext; [discriminate|].
      destruct v; auto.
      destruct (extract_charity_number s) eqn:Hs; auto.
      inversion Hext; subst. eapply extract_charity_number_shape; eauto.
Qed.

Lemma filter_single {A} (P : A -> bool) (l : list A) (x : A) :
  In x l -> P x = true -> length (filter P l) <= 1 -> filter P l = [x].
Proof.
  intros Hin Hp Hlen.
  assert (Hf : In x (filter P l)) by (apply filter_In; auto).
  destruct (filter P l) as [|y [|z r]]; simpl in *; [contradiction| |lia].
  destruct Hf as [->|[]]; reflexivity.
Qed.

Lemma create_ownership_frame (owner owned : nat) otype src description percentage s :
  match create_ownership owner owned otype src description percentage s with
  | (Ok o, s') => (s' = s /\ In o (tb_edges s) /\ edge_pair owner owned o = true) \/
                  (filter (edge_pair owner owned) (tb_edges s) = [] /\
                   s' = mkTBState (tb_entities s) (tb_edges s ++ [o])
                          (tb_visited_charities s) (tb_visited_companies s) /\
                   o = {| owner_id := owner; owned_id := owned; ownership_type := Some otype;
                          ownership_percentage := percentage;
                          relationship_description := description;
                          source := Some src; verified := true |})
  | (Raise _, s') => s' = s
  end.
Proof.
  unfold create_ownership, py_bind, py_get, scalar_one_or_none, py_ret, py_raise, py_modify.
  fold (edge_pair owner owned).
  destruct (filter (edge_pair owner owned) (tb_edges s)) as [|x [|y r]] eqn:Hf.
  - right. auto.
  - left. assert (Hx : In x (filter (edge_pair owner owned) (tb_edges s))) by (rewrite Hf; left; auto).
    apply filter_In in Hx. tauto.
  - reflexivity.
Qed.

Lemma filter_app_single {A} (P : A -> bool) (l : list A) (o : A) :
  filter P (l ++ [o]) = filter P l ++ (if P o then [o] else []).
Proof. rewrite filter_app. simpl. destruct (P o); reflexivity. Qed.

(** C10: once an (owner, owned) pair has an OwnershipEdge (and edges are
    unique per pair, which [_create_ownership] itself maintains), every
    later call for that pair returns the stored edge and leaves the whole
    state unchanged, whatever type, percentage, description and source it
    is given; the stored edge's fields are therefore never re-labelled. *)
Theorem C10_existing_edge_kept :
  forall (s : TBState) (x : EntityOwnership) (otype src : string)
         (description : option string) (percentage : option Q),
  In x (tb_edges s) -> pairs_unique (tb_edges s) ->
  create_ownership (owner_id x) (owned_id x) otype src description percentage s = (Ok x, s) /\
  (forall owner owned otype' src' description' percentage',
     pairs_unique (tb_edges
       (snd (create_ownership owner owned otype' src' description' percentage' s)))).
Proof.
  intros s x otype src description percentage Hin Hu. split.
  - unfold create_ownership, py_bind, py_get, scalar_one_or_none, py_ret.
    fold (edge_pair (owner_id x) (owned_id x)).
    rewrite (filter_single _ _ x Hin) by first [apply Hu | unfold edge_pair; rewrite !Nat.eqb_refl; reflexivity].
    reflexivity.
  - intros owner owned otype' src' description' percentage'.
    pose proof (create_ownership_frame owner owned otype' src' description' percentage' s) as Hf.
    destruct (create_ownership owner owned otype' src' description' percentage' s) as [[o|e] s'].
    + destruct Hf as [[-> _]|[Hnil [-> Ho]]]; simpl; [exact Hu|].
      intros a b. rewrite filter_app_single.
      destruct (edge_pair a b o) eqn:Hab; [|rewrite app_nil_r; apply Hu].
      subst o. unfold edge_pair in Hab; simpl in Hab. apply andb_true_iff in Hab as [H1 H2].
      apply Nat.eqb_eq in H1, H2. subst a b. rewrite Hnil. simpl. lia.
    + subst s'. exact Hu.
Qed.

(** Witness of C10: a trustee edge 1 -> 2 stays as it is when the pair is
    later offered as a subsidiary. *)
Lemma C10_witness :
  let x := {| owner_id := 1; owned_id := 2; ownership_type := Some "trustee_charity";
              ownership_percentage := None; relationship_description := Some "Shared trustee";
              source := Some "charity_commission"; verified := true |} in
  let s := mkTBState [] [x] [] [] in
  In x (tb_edges s) /\ pairs_unique (tb_edges s) /\
  create_ownership 1 2 "subsidiary" "charity_commission" None None s = (Ok x, s).
Proof.
  intros x s.
  assert (Hin : In x (tb_edges s)) by (simpl; left; reflexivity).
  assert (Hu : pairs_unique (tb_edges s))
    by (intros a b; simpl; destruct (edge_pair a b x); simpl; lia).
  split; [exact Hin|split; [exact Hu|]].
  exact (proj1 (C10_existing_edge_kept s x "subsidiary" "charity_commission" None None Hin Hu)).
Defined.

(** Witness of C9: "Helping Hands (reg. 1000001)" is matched by number
    extraction against the fixture registry. *)
Lemma C9_witness :
  let e := Fixtures.mk_entity 5 1 "Helping Hands (reg. 1000001)" None PENDING None in
  extracted_number e = Some "1000001" /\
  exists d, get_full_charity_details Fixtures.sub_env "1000001" = Some d /\
  resolve_entity Fixtures.sub_env false (mkRState e [])
    = (Ok tt, mkRState (update_entity_from_charity (utcnow Fixtures.sub_env) e
                          (parse_charity_data Fixtures.sub_env d) "number_extraction" q95) []).
Proof.
  intros e.
  assert (Hx : extracted_number e = Some "1000001") by (vm_compute; reflexivity).
  split; [exact Hx|].
  destruct (get_full_charity_details Fixtures.sub_env "1000001") as [d|] eqn:Hd;
    [|vm_compute in Hd; discriminate].
  exists d. split; [reflexivity|].
  exact (proj1 (C9_number_extraction_stage Fixtures.sub_env false e [] "1000001" d
                  eq_refl Hx Hd)).
Defined.

(* ------------------------------------------------------------------ *)
(** ** The batch orchestrator *)

Ltac has_match t := idtac; match t with context [match _ with _ => _ end] => idtac end.

Ltac py_cases H :=
  repeat match type of H with
  | context [match ?x with _ => _ end] =>
      assert_fails (has_match x);
      let E := fresh "E" in destruct x eqn:E; simpl in H; try discriminate
  end.





(** C5 (the code's rule): with one record raising and its sibling ending
    [no_match], no record is matched and one failed, and the batch ends
    [failed] although not every record failed. *)
Theorem C5_failed_with_unfailed_record :
  let r := process_batch (Fixtures.pb_env (Some Fixtures.ConnectError) NO_MATCH) 1 Fixtures.pb0 in
  fst r = Ok tt /\
  map resolution_status (pb_entities (snd r)) = [MANUAL_REVIEW; NO_MATCH] /\
  status (pb_batch (snd r)) = FAILED /\
  processed_records (pb_batch (snd r)) = 2 /\
  matched_records (pb_batch (snd r)) = 0 /\
  failed_records (pb_batch (snd r)) = 1.
Proof. vm_compute. repeat split; reflexivity. Qed.



















(* ------------------------------------------------------------------ *)
(** ** The resolver: candidate search and CandidateMatch rows *)

Lemma insert_desc_hd c d l :
  cand_ge d c -> HdRel cand_ge d l -> HdRel cand_ge d (insert_desc c l).
Proof.
  intros Hdc Hl. destruct l as [|x l]; simpl.
  - constructor. exact Hdc.
  - destruct (negb (Qle_bool (cand_similarity c) (cand_similarity x))); constructor; auto.
    inversion Hl; auto.
Qed.

Lemma insert_desc_sorted c : forall l, Sorted cand_ge l -> Sorted cand_ge (insert_desc c l).
Proof.
  induction l as [|d l IH]; intros H; simpl.
  - repeat constructor.
  - destruct (Qle_bool (cand_similarity c) (cand_similarity d)) eqn:E; simpl.
    + apply Sorted_inv in H as [H1 H2]. constructor; [apply IH; exact H1|].
      apply insert_desc_hd; [|exact H2].
      apply Qle_bool_iff in E. exact E.
    + constructor; [exact H|]. constructor. unfold cand_ge.
      apply Qlt_le_weak, Qnot_le_lt. intros Hle. apply Qle_bool_iff in Hle. congruence.
Qed.

Lemma sort_desc_sorted l : Sorted cand_ge (sort_desc l).
Proof.
  unfold sort_desc.
  assert (Hgen : forall acc, Sorted cand_ge acc ->
                 Sorted cand_ge (fold_left (fun acc c => insert_desc c acc) l acc)).
  { induction l as [|c l IH]; intros acc Hacc; simpl; [exact Hacc|].
    apply IH, insert_desc_sorted, Hacc. }
  apply Hgen. constructor.
Qed.

Lemma firstn_sorted {A} (R : A -> A -> Prop) : forall n l, Sorted R l -> Sorted R (firstn n l).
Proof.
  induction n as [|n IH]; intros l H; simpl; [constructor|].
  destruct l as [|x l]; [constructor|].
  apply Sorted_inv in H as [H1 H2]. constructor; [apply IH; exact H1|].
  destruct n, l; simpl; constructor. inversion H2; auto.
Qed.

Lemma search_candidates_spec env {S} (name : string) (s : S) :
  snd (search_candidates env name s) = s /\
  forall cs, fst (search_candidates env name s) = Ok cs ->
  length cs <= 5 /\ Sorted cand_ge cs.
Proof.
  unfold search_candidates, py_try_except, py_ret.
  destruct (search_charities env (Some name) (5 * 2)) as [results|e].
  - split; [reflexivity|]. intros cs H. cbv beta zeta iota delta [fst] in H.
    match type of H with Ok ?x = Ok cs =>
      assert (Hx : cs = x) by congruence; clear H; subst cs end.
    split; [rewrite length_firstn; lia|]. apply firstn_sorted, sort_desc_sorted.
  - destruct (is_exception e); simpl; split; try reflexivity; intros cs H; inversion H.
    split; [simpl; lia | constructor].
Qed.

Lemma add_resolutions (eid : nat) : forall cs e rows, exists new,
  py_for cs (add_resolution eid) (mkRState e rows) = (Ok tt, mkRState e (rows ++ new)) /\
  map row_key new = map (fun c => (eid, cand_charity_number c, false)) cs.
Proof.
  induction cs as [|c cs IH]; intros e rows.
  - exists []. rewrite app_nil_r. split; reflexivity.
  - simpl. unfold py_bind, add_resolution at 1. simpl.
    match goal with |- context [mkRState e (rows ++ [?row])] =>
      destruct (IH e (rows ++ [row])) as [new [H1 H2]]; exists (row :: new) end.
    rewrite H1, <- app_assoc. split; [reflexivity|]. simpl. rewrite H2. reflexivity.
Qed.

Lemma ai_resolve_entity_state env {S} name cs (s : S) :
  snd (ai_resolve_entity env name cs s) = s.
Proof.
  unfold ai_resolve_entity, py_try_except, py_ret.
  repeat match goal with
  | |- context [match ?x with _ => _ end] =>
      assert_fails (has_match x); destruct x; simpl
  end; reflexivity.
Qed.

Lemma resolve_by_search_rows env use_ai e rows cs :
  fst (search_candidates env (original_name e) (mkRState e rows)) = Ok cs ->
  exists new, map row_key new = map (fun c => (id e, cand_charity_number c, false)) cs /\
  (rs_resolutions (snd (resolve_by_search env use_ai (mkRState e rows))) = rows ++ new \/
   exists num, rs_resolutions (snd (resolve_by_search env use_ai (mkRState e rows))) =
               rs_resolutions (snd (mark_selected (id e) num (mkRState e (rows ++ new))))).
Proof.
  intros Hc.
  destruct (search_candidates_spec env (original_name e) (mkRState e rows)) as [Hs _].
  destruct (resolve_by_search env use_ai (mkRState e rows)) as [res fin] eqn:Hr. simpl.
  unfold resolve_by_search, py_bind, get_entity in Hr. cbn [rs_entity rs_resolutions] in Hr.
  destruct (search_candidates env (original_name e) (mkRState e rows)) as [r s1] eqn:E.
  simpl in Hc, Hs. subst r s1.
  destruct cs as [|c cs'].
  - exists []. split; [reflexivity|]. left. rewrite app_nil_r.
    unfold put_entity in Hr. inversion Hr. reflexivity.
  - destruct (add_resolutions (id e) (c :: cs') e rows) as [new [Hfor Hkeys]].
    exists new. split; [exact Hkeys|].
    rewrite Hfor in Hr.
    unfold put_entity, mark_selected, fallback, get_entity, py_bind, py_raise in Hr.
    repeat match type of Hr with
    | context [@ai_resolve_entity ?en _ ?nm ?cs0 ?s0] =>
        let H := fresh "Hai" in
        pose proof (ai_resolve_entity_state en nm cs0 s0) as H;
        destruct (@ai_resolve_entity en _ nm cs0 s0) as [?r ?s2] eqn:?; simpl in H; subst
    | context [match ?x with _ => _ end] =>
        assert_fails (has_match x); destruct x; simpl in Hr
    end;
    inversion Hr; subst; first [left; reflexivity | right; eexists; reflexivity].
Qed.

Lemma filter_map_length {A B} (p : B -> bool) (f : A -> B) (l : list A) :
  length (filter p (map f l)) = length (filter (fun x => p (f x)) l).
Proof. induction l as [|x l IH]; simpl; [reflexivity|]. destruct (p (f x)); simpl; auto. Qed.

Lemma filter_none_length {A} (p : A -> bool) (l : list A) :
  (forall x, In x l -> p x = false) -> length (filter p l) = 0.
Proof.
  induction l as [|x l IH]; intros H; simpl; [reflexivity|].
  rewrite (H x (or_introl eq_refl)). apply IH. intros y Hy. apply H. right. exact Hy.
Qed.

Lemma filter_all_length {A} (p : A -> bool) (l : list A) :
  (forall x, In x l -> p x = true) -> length (filter p l) = length l.
Proof.
  induction l as [|x l IH]; intros H; simpl; [reflexivity|].
  rewrite (H x (or_introl eq_refl)). simpl. f_equal. apply IH. intros y Hy. apply H. right. exact Hy.
Qed.

Lemma nodup_sql_eq_length {A} (f : A -> option string) (num : option string) :
  forall l, NoDup (map f l) -> length (filter (fun x => sql_eq (f x) num) l) <= 1.
Proof.
  induction l as [|x l IH]; intros H; simpl; [lia|].
  inversion H as [|? ? Hnotin Hnd]; subst.
  destruct (sql_eq (f x) num) eqn:Ex; simpl; [|apply IH; exact Hnd].
  rewrite filter_none_length; [lia|].
  intros y Hy. destruct (sql_eq (f y) num) eqn:Ey; [|reflexivity].
  exfalso. apply Hnotin.
  unfold sql_eq in Ex, Ey.
  destruct (f x) as [a|] eqn:Hfx, (f y) as [b|] eqn:Hfy, num as [c|]; try discriminate.
  apply String.eqb_eq in Ex, Ey. subst. rewrite <- Hfy. apply in_map. exact Hy.
Qed.

Lemma mark_selected_keys eid num e l :
  map row_key (rs_resolutions (snd (mark_selected eid num (mkRState e l)))) =
  map (fun r => (er_entity_id r, er_charity_number r,
                 (Nat.eqb (er_entity_id r) eid && sql_eq (er_charity_number r) num)
                 || er_is_selected r)) l.
Proof.
  unfold mark_selected. simpl. rewrite map_map.
  apply map_ext. intros r. unfold row_key.
  destruct (Nat.eqb (er_entity_id r) eid && sql_eq (er_charity_number r) num); reflexivity.
Qed.

Lemma rows_count_keys eid (l : list EntityResolution) :
  length (filter (fun r => Nat.eqb (er_entity_id r) eid) l) =
  length (filter (fun k => Nat.eqb (fst (fst k)) eid) (map row_key l)).
Proof. rewrite filter_map_length. reflexivity. Qed.

Lemma selected_count_keys eid (l : list EntityResolution) :
  length (filter (fun r => Nat.eqb (er_entity_id r) eid && er_is_selected r) l) =
  length (filter (fun k => Nat.eqb (fst (fst k)) eid && snd k) (map row_key l)).
Proof. rewrite filter_map_length. reflexivity. Qed.

Lemma resolve_entity_search_stage env use_ai e rows :
  (if truthy (charity_number e) then details_of env (charity_number e) else None) = None ->
  match extracted_number e with Some n => get_full_charity_details env n | None => None end
    = None ->
  resolve_entity env use_ai (mkRState e rows) = resolve_by_search env use_ai (mkRState e rows).
Proof.
  intros Hdirect Hext.
  cbv beta zeta iota delta [resolve_entity py_bind get_entity rs_entity].
  rewrite Hdirect. destruct (extracted_number e); [rewrite Hext|]; reflexivity.
Qed.

Lemma resolve_by_search_empty env use_ai e rows :
  fst (search_candidates env (original_name e) (mkRState e rows)) = Ok [] ->
  resolve_by_search env use_ai (mkRState e rows)
    = (Ok tt, mkRState (set_status_at e NO_MATCH (utcnow env)) rows).
Proof.
  intros Hc.
  destruct (search_candidates_spec env (original_name e) (mkRState e rows)) as [Hs _].
  unfold resolve_by_search, py_bind, get_entity. cbn [rs_entity rs_resolutions].
  destruct (search_candidates env (original_name e) (mkRState e rows)) as [r s1].
  simpl in Hc, Hs. subst. reflexivity.
Qed.

Lemma marked_new_counts eid num : forall new cs,
  map row_key new = map (fun c => (eid, cand_charity_number c, false)) cs ->
  length (filter (fun x => Nat.eqb (er_entity_id x) eid) new) = length cs /\
  length (filter (fun x => Nat.eqb (er_entity_id x) eid &&
                           ((Nat.eqb (er_entity_id x) eid && sql_eq (er_charity_number x) num)
                            || er_is_selected x)) new) =
  length (filter (fun c => sql_eq (cand_charity_number c) num) cs).
Proof.
  induction new as [|r new IH]; intros cs H; destruct cs as [|c cs]; simpl in H;
    try discriminate; [split; reflexivity|].
  injection H as Hid Hnum Hsel Hrest.
  destruct (IH cs Hrest) as [IH1 IH2].
  simpl. rewrite Hid, Hnum, Hsel, Nat.eqb_refl. simpl. rewrite orb_false_r.
  destruct (sql_eq (cand_charity_number c) num); simpl; split; congruence.
Qed.

(** C6 (as the code has it): when neither shortcut fires, the search
    yields at most 5 candidates ranked by descending similarity, and one
    CandidateMatch row per candidate is appended after the rows already
    stored, whatever the outcome; the only later change to the rows is
    [is_selected] set on every row of the record carrying the selected
    number. An empty search ends [no_match] with no row added. So for a
    record with no earlier rows and candidates with distinct numbers, the
    record has exactly N rows and at most one is selected. *)
Theorem C6_candidate_rows :
  forall (env : Env) (use_ai : bool) (e : Entity) (rows : list EntityResolution)
         (cs : list Candidate),
  (if truthy (charity_number e) then details_of env (charity_number e) else None) = None ->
  match extracted_number e with Some n => get_full_charity_details env n | None => None end
    = None ->
  fst (search_candidates env (original_name e) (mkRState e rows)) = Ok cs ->
  let s' := snd (resolve_entity env use_ai (mkRState e rows)) in
  (length cs <= 5 /\ Sorted cand_ge cs) /\
  (exists new, map row_key new = map (fun c => (id e, cand_charity_number c, false)) cs /\
     (rs_resolutions s' = rows ++ new \/
      exists num, rs_resolutions s' =
                  rs_resolutions (snd (mark_selected (id e) num (mkRState e (rows ++ new)))))) /\
  (cs = [] -> resolution_status (rs_entity s') = NO_MATCH /\ rs_resolutions s' = rows) /\
  (filter (fun r => Nat.eqb (er_entity_id r) (id e)) rows = [] ->
   NoDup (map cand_charity_number cs) ->
   length (filter (fun r => Nat.eqb (er_entity_id r) (id e)) (rs_resolutions s')) = length cs /\
   length (filter (fun r => Nat.eqb (er_entity_id r) (id e) && er_is_selected r)
             (rs_resolutions s')) <= 1).
Proof.
  intros env use_ai e rows cs Hdirect Hext Hc s'.
  unfold s'. rewrite (resolve_entity_search_stage env use_ai e rows Hdirect Hext).
  destruct (search_candidates_spec env (original_name e) (mkRState e rows)) as [_ Hspec].
  destruct (resolve_by_search_rows env use_ai e rows cs Hc) as [new [Hkeys Hrows]].
  split; [exact (Hspec cs Hc)|]. split; [exists new; split; assumption|]. split.
  - intros ->. rewrite (resolve_by_search_empty env use_ai e rows Hc). split; reflexivity.
  - intros H0 Hnd.
    assert (Hold : forall r, In r rows -> Nat.eqb (er_entity_id r) (id e) = false).
    { intros r Hr. destruct (Nat.eqb (er_entity_id r) (id e)) eqn:Er; [|reflexivity].
      assert (Hin : In r (filter (fun r => Nat.eqb (er_entity_id r) (id e)) rows))
        by (apply filter_In; auto).
      rewrite H0 in Hin. contradiction. }
    rewrite rows_count_keys, selected_count_keys.
    destruct Hrows as [-> | [num ->]].
    + rewrite map_app, Hkeys, !filter_app, !length_app, !filter_map_length.
      rewrite (filter_all_length _ cs) by (intros c _; simpl; apply Nat.eqb_refl).
      rewrite (filter_none_length _ rows) by (intros r Hr; simpl; rewrite Hold; auto).
      rewrite (filter_none_length _ rows) by (intros r Hr; simpl; rewrite Hold; auto).
      rewrite (filter_none_length _ cs) by (intros c _; simpl; apply andb_false_r).
      simpl. lia.
    + rewrite mark_selected_keys, map_app, !filter_app, !length_app, !filter_map_length.
      rewrite (filter_none_length _ rows) by (intros r Hr; simpl; rewrite Hold; auto).
      rewrite (filter_none_length _ rows) by (intros r Hr; simpl; rewrite Hold; auto).
      cbn [fst snd].
      destruct (marked_new_counts (id e) num new cs Hkeys) as [K1 K2].
      rewrite K1, K2. split; [lia|].
      pose proof (nodup_sql_eq_length cand_charity_number num cs Hnd). lia.
Qed.

(** Counterexample to C6: a record already holding two CandidateMatch rows
    from an earlier run is resolved again; the search returns the same two
    candidates, and the record ends with four rows. *)
Lemma C6_counterexample :
  let env := Fixtures.two_hits_env Fixtures.two_hits in
  let s' := snd (resolve_entity env false Fixtures.rs_mm) in
  length (match fst (search_candidates env (original_name Fixtures.rec_mm) Fixtures.rs_mm) with
          | Ok cs => cs | Raise _ => [] end) = 2 /\
  length (Fixtures.rows_of 7 s') = 4.
Proof. vm_compute. split; reflexivity. Qed.

(** Witness of C6: a fresh record with two distinct search hits gets two
    rows, at most one of them selected. *)
Lemma C6_witness :
  let env := Fixtures.two_hits_env Fixtures.two_hits in
  let e := Fixtures.mk_entity 7 1 "Alpha Care" None PENDING None in
  let s' := snd (resolve_entity env false (mkRState e [])) in
  length (filter (fun r => Nat.eqb (er_entity_id r) 7) (rs_resolutions s')) = 2 /\
  length (filter (fun r => Nat.eqb (er_entity_id r) 7 && er_is_selected r)
            (rs_resolutions s')) <= 1.
Proof.
  intros env e s'.
  destruct (fst (search_candidates env (original_name e) (mkRState e []))) as [cs|x] eqn:Hc;
    [|vm_compute in Hc; discriminate].
  assert (Hext : match extracted_number e with
                 | Some n => get_full_charity_details env n | None => None end = None)
    by (vm_compute; reflexivity).
  pose proof (C6_candidate_rows env false e [] cs eq_refl Hext Hc) as H.
  destruct H as [_ [_ [_ H4]]].
  vm_compute in Hc. injection Hc as <-.
  destruct (H4 eq_refl) as [A B].
  - simpl. constructor; [simpl; intros [Hx|[]]; discriminate|].
    constructor; [simpl; intros []|constructor].
  - split; [exact A | exact B].
Defined.

(* ------------------------------------------------------------------ *)
(** ** Failures during resolution *)

Lemma search_candidates_raise env {S} name (s : S) x :
  search_charities env (Some name) 10 = Raise x -> is_exception x = true ->
  search_candidates env name s = (Ok [], s).
Proof.
  intros Hs Hx. unfold search_candidates, py_try_except, py_ret.
  change (5 * 2) with 10. rewrite Hs, Hx. reflexivity.
Qed.

Lemma ai_resolve_entity_raise env {S} name cs (s : S) x :
  (forall prompt, openai_chat env name prompt = Raise x) -> is_exception x = true ->
  ai_resolve_entity env name cs s = (Ok None, s).
Proof.
  intros Hc Hx. unfold ai_resolve_entity, py_try_except, py_ret.
  destruct (openai_client env); [|reflexivity]. destruct cs; [reflexivity|].
  simpl. rewrite Hc, Hx. reflexivity.
Qed.

Lemma find_after_store (k : nat) (v : Entity) : forall l e,
  id v = k -> find (fun x => Nat.eqb (id x) k) l = Some e ->
  find (fun x => Nat.eqb (id x) k) (map (fun x => if Nat.eqb (id x) (id v) then v else x) l)
    = Some v.
Proof.
  intros l e Hv. subst k. revert e.
  induction l as [|x l IH]; intros e Hf; simpl in *; [discriminate|].
  destruct (Nat.eqb (id x) (id v)) eqn:Ex; simpl.
  - rewrite Nat.eqb_refl. reflexivity.
  - rewrite Ex. eapply IH; eauto.
Qed.

Lemma process_record_raise penv am eid s e e' x :
  find (fun y => Nat.eqb (id y) eid) (pb_entities s) = Some e ->
  resolve penv e = (Raise x, e') -> is_exception x = true -> id e' = eid ->
  db_fault penv (pb_calls s) = None ->
  fst (process_record penv am eid s) = Ok tt /\
  find (fun y => Nat.eqb (id y) eid) (pb_entities (snd (process_record penv am eid s)))
    = Some (set_status_at e' MANUAL_REVIEW (pb_now penv)) /\
  pb_failed (snd (process_record penv am eid s)) = S (pb_failed s).
Proof.
  intros Hf Hr Hx Hid Hdb.
  cbv [process_record py_try_finally py_try_except resolve_one record_failed find_entity
       store_entity py_bind py_modify py_ret py_raise with_entities with_locals
       record_progress with_batch db_flush db_call].
  rewrite Hf. cbn. rewrite Hr, Hx. cbn.
  rewrite (find_after_store eid e' _ e Hid Hf). cbn. rewrite Hdb. cbn.
  split; [reflexivity|]. split; [|reflexivity].
  apply (find_after_store eid (set_status_at e' MANUAL_REVIEW (pb_now penv)) _ e').
  - exact Hid.
  - exact (find_after_store eid e' _ e Hid Hf).
Qed.

Lemma process_record_ok penv am eid s :
  (forall n, db_fault penv n = None) ->
  (forall e x e', resolve penv e = (Raise x, e') -> is_exception x = true) ->
  fst (process_record penv am eid s) = Ok tt /\
  pb_processed (snd (process_record penv am eid s)) = S (pb_processed s).
Proof.
  intros Hdb Hexc.
  cbv [process_record py_try_finally py_try_except resolve_one record_failed find_entity
       store_entity py_bind py_modify py_ret py_raise with_entities with_locals
       record_progress with_batch db_flush db_call].
  rewrite ?Hdb.
  destruct (find (fun y => Nat.eqb (id y) eid) (pb_entities s)) as [e|]; cbn; [|rewrite ?Hdb; cbn; rewrite ?Hdb; split; reflexivity].
  destruct (resolve penv e) as [[u|x] e'] eqn:Hr; cbn.
  - destruct (is_matched e'); cbn; rewrite ?Hdb; split; reflexivity.
  - rewrite (Hexc _ _ _ Hr). cbn.
    destruct (find _ _); cbn; rewrite ?Hdb; split; reflexivity.
Qed.

Lemma py_for_process_record_ok penv am : forall xs s,
  (forall n, db_fault penv n = None) ->
  (forall e x e', resolve penv e = (Raise x, e') -> is_exception x = true) ->
  fst (py_for xs (process_record penv am) s) = Ok tt /\
  pb_processed (snd (py_for xs (process_record penv am) s)) = pb_processed s + length xs.
Proof.
  induction xs as [|x xs IH]; intros s Hdb Hexc; simpl; [split; [reflexivity | lia]|].
  unfold py_bind. destruct (process_record_ok penv am x s Hdb Hexc) as [H1 H2].
  destruct (process_record penv am x s) as [r s1]. simpl in H1, H2. subst r.
  destruct (IH s1 Hdb Hexc) as [H3 H4]. split; [exact H3 | lia].
Qed.

(** C2 (as the code has it): a failure of the registry search inside
    [resolve_entity] does not propagate: [search_candidates] catches it and
    the record ends [no_match] (when no shortcut fired); a failure of the
    AI call is caught and reads as "no selection". An [Exception] that does
    escape the resolver is caught at the per-record boundary of the batch
    loop, which sets the record to [manual_review], counts it as failed and
    goes on; so, with the database up and only [Exception]s raised, the
    loop runs every record. *)
Theorem C2_failure_handling :
  (forall (env : Env) (use_ai : bool) (e : Entity) (rows : list EntityResolution) (x : Exc),
   (if truthy (charity_number e) then details_of env (charity_number e) else None) = None ->
   match extracted_number e with Some n => get_full_charity_details env n | None => None end
     = None ->
   search_charities env (Some (original_name e)) 10 = Raise x -> is_exception x = true ->
   resolve_entity env use_ai (mkRState e rows)
     = (Ok tt, mkRState (set_status_at e NO_MATCH (utcnow env)) rows)) /\
  (forall (env : Env) (S : Type) (name : string) (cs : list Candidate) (s : S) (x : Exc),
   (forall prompt, openai_chat env name prompt = Raise x) -> is_exception x = true ->
   ai_resolve_entity env name cs s = (Ok None, s)) /\
  (forall (penv : PBEnv) (already_matched eid : nat) (s : PBState) (e e' : Entity) (x : Exc),
   find (fun y => Nat.eqb (id y) eid) (pb_entities s) = Some e ->
   resolve penv e = (Raise x, e') -> is_exception x = true -> id e' = eid ->
   db_fault penv (pb_calls s) = None ->
   let s' := snd (process_record penv already_matched eid s) in
   fst (process_record penv already_matched eid s) = Ok tt /\
   find (fun y => Nat.eqb (id y) eid) (pb_entities s')
     = Some (set_status_at e' MANUAL_REVIEW (pb_now penv)) /\
   pb_failed s' = S (pb_failed s)) /\
  (forall (penv : PBEnv) (already_matched : nat) (eids : list nat) (s : PBState),
   (forall n, db_fault penv n = None) ->
   (forall e x e', resolve penv e = (Raise x, e') -> is_exception x = true) ->
   fst (py_for eids (process_record penv already_matched) s) = Ok tt /\
   pb_processed (snd (py_for eids (process_record penv already_matched) s))
     = pb_processed s + length eids).
Proof.
  split; [|split; [|split]].
  - intros env use_ai e rows x Hdirect Hext Hs Hx.
    rewrite (resolve_entity_search_stage env use_ai e rows Hdirect Hext).
    apply resolve_by_search_empty.
    rewrite (search_candidates_raise env (original_name e) (mkRState e rows) x Hs Hx).
    reflexivity.
  - intros env S name cs s x Hc Hx. exact (ai_resolve_entity_raise env name cs s x Hc Hx).
  - intros penv am eid s e e' x Hf Hr Hx Hid Hdb.
    exact (process_record_raise penv am eid s e e' x Hf Hr Hx Hid Hdb).
  - intros penv am eids s Hdb Hexc. exact (py_for_process_record_ok penv am eids s Hdb Hexc).
Qed.

(** Counterexample to C2: the registry search raising [ConnectError]
    does not propagate out of [resolve_entity]; the record ends
    [no_match]. *)
Lemma C2_counterexample :
  let r := resolve_entity (Fixtures.two_hits_env (Raise Fixtures.ConnectError)) false
             (mkRState Fixtures.rec_mm []) in
  fst r = Ok tt /\ resolution_status (rs_entity (snd r)) = NO_MATCH.
Proof. vm_compute. split; reflexivity. Qed.

(** Witness of C2: each part applied to the fixtures. *)
Lemma C2_witness :
  resolve_entity (Fixtures.two_hits_env (Raise Fixtures.ConnectError)) false
      (mkRState Fixtures.rec_mm [])
    = (Ok tt, mkRState (set_status_at Fixtures.rec_mm NO_MATCH "2026-01-01T00:00:00") []) /\
  ai_resolve_entity (Fixtures.two_hits_env Fixtures.two_hits) "Alpha Care" [] tt = (Ok None, tt) /\
  pb_failed (snd (process_record (Fixtures.pb_env (Some Fixtures.ConnectError) NO_MATCH) 0 1
                    Fixtures.pb0)) = 1 /\
  fst (py_for [1; 2] (process_record (Fixtures.pb_env (Some Fixtures.ConnectError) NO_MATCH) 0)
         Fixtures.pb0) = Ok tt.
Proof.
  assert (Hext : match extracted_number Fixtures.rec_mm with
                 | Some n => get_full_charity_details (Fixtures.two_hits_env (Raise Fixtures.ConnectError)) n
                 | None => None end = None) by (vm_compute; reflexivity).
  assert (Hres : forall e x e',
            resolve (Fixtures.pb_env (Some Fixtures.ConnectError) NO_MATCH) e = (Raise x, e') ->
            is_exception x = true).
  { intros e x e' H. simpl in H. destruct (Nat.eqb (id e) 1); inversion H; reflexivity. }
  split; [|split; [|split]].
  - exact (proj1 C2_failure_handling (Fixtures.two_hits_env (Raise Fixtures.ConnectError))
             false Fixtures.rec_mm [] Fixtures.ConnectError
             eq_refl Hext eq_refl eq_refl).
  - exact (proj1 (proj2 C2_failure_handling) (Fixtures.two_hits_env Fixtures.two_hits) unit
             "Alpha Care" [] tt Fixtures.ConnectError
             (fun _ => eq_refl) eq_refl).
  - exact (proj2 (proj2 (proj1 (proj2 (proj2 C2_failure_handling))
             (Fixtures.pb_env (Some Fixtures.ConnectError) NO_MATCH) 0 1 Fixtures.pb0
             (Fixtures.mk_entity 1 1 "Org A" None PENDING None)
             (Fixtures.mk_entity 1 1 "Org A" None PENDING None) Fixtures.ConnectError
             eq_refl eq_refl eq_refl eq_refl eq_refl))).
  - exact (proj1 (proj2 (proj2 (proj2 C2_failure_handling))
             (Fixtures.pb_env (Some Fixtures.ConnectError) NO_MATCH) 0 [1; 2] Fixtures.pb0
             (fun _ => eq_refl) Hres)).
Defined.

(* ------------------------------------------------------------------ *)
(** ** The tree builder: what a build may do to the state *)

Section Preserves.
Context {S : Type} (R : S -> S -> Prop) `{!PreOrder R}.

Lemma pres_ret {A} (a : A) : preserves R (py_ret a).
Proof. intros s r s' H. inversion H; subst. reflexivity. Qed.

Lemma pres_raise {A} e : preserves R (@py_raise S A e).
Proof. intros s r s' H. inversion H; subst. reflexivity. Qed.

Lemma pres_get : preserves R py_get.
Proof. intros s r s' H. inversion H; subst. reflexivity. Qed.

Lemma pres_modify f : (forall s, R s (f s)) -> preserves R (py_modify f).
Proof. intros Hf s r s' H. inversion H; subst. apply Hf. Qed.

Lemma pres_bind {A B} (m : Py S A) (k : A -> Py S B) :
  preserves R m -> (forall a, preserves R (k a)) -> preserves R (py_bind m k).
Proof.
  intros Hm Hk s r s' H. unfold py_bind in H.
  destruct (m s) as [[a|e] s1] eqn:E.
  - transitivity s1; [exact (Hm _ _ _ E) | exact (Hk a _ _ _ H)].
  - inversion H; subst. exact (Hm _ _ _ E).
Qed.

Lemma pres_try_except {A} (body : Py S A) (h : Exc -> Py S A) :
  preserves R body -> (forall e, preserves R (h e)) -> preserves R (py_try_except body h).
Proof.
  intros Hb Hh s r s' H. unfold py_try_except in H.
  destruct (body s) as [[a|e] s1] eqn:E.
  - inversion H; subst. exact (Hb _ _ _ E).
  - destruct (is_exception e).
    + transitivity s1; [exact (Hb _ _ _ E) | exact (Hh e _ _ _ H)].
    + inversion H; subst. exact (Hb _ _ _ E).
Qed.

Lemma pres_scalar {A} (rows : list A) : preserves R (scalar_one_or_none rows).
Proof.
  destruct rows as [|x [|y l]]; [apply pres_ret | apply pres_ret | apply pres_raise].
Qed.

Lemma for_acc_pres {A B} (f : B -> A -> Py S B) :
  (forall acc x, preserves R (f acc x)) ->
  forall xs acc s acc' eo s', for_acc xs acc f s = (acc', eo, s') -> R s s'.
Proof.
  intros Hf xs. induction xs as [|x xs IH]; intros acc s acc' eo s' H; simpl in H.
  - inversion H; subst. reflexivity.
  - destruct (f acc x s) as [[a|e] s1] eqn:E.
    + transitivity s1; [exact (Hf _ _ _ _ _ E) | exact (IH _ _ _ _ _ H)].
    + inversion H; subst. exact (Hf _ _ _ _ _ E).
Qed.

End Preserves.

Lemma grows_refl P s : grows P s s.
Proof. exists []. rewrite app_nil_r. split; [reflexivity | constructor]. Qed.

Lemma grows_trans P a b c : grows P a b -> grows P b c -> grows P a c.
Proof.
  intros [n1 [H1 F1]] [n2 [H2 F2]]. exists (app n1 n2).
  rewrite H2, H1, app_assoc. split; [reflexivity | apply Forall_app; auto].
Qed.

Lemma grows_weaken (P Q : Entity -> Prop) s s' :
  (forall e, P e -> Q e) -> grows P s s' -> grows Q s s'.
Proof.
  intros HPQ [n [H F]]. exists n. split; [exact H|]. eapply Forall_impl; eauto.
Qed.

Lemma grows_same P s s' : tb_entities s' = tb_entities s -> grows P s s'.
Proof. intros H. exists []. rewrite app_nil_r. split; [exact H | constructor]. Qed.

Lemma edges_refl s : edges_stay_unique s s.
Proof. intros H. exact H. Qed.

Lemma edges_trans a b c : edges_stay_unique a b -> edges_stay_unique b c -> edges_stay_unique a c.
Proof. intros H1 H2 H. auto. Qed.

Lemma edges_same s s' : tb_edges s' = tb_edges s -> edges_stay_unique s s'.
Proof. intros H Hu. rewrite H. exact Hu. Qed.

#[export] Instance grows_preorder P : PreOrder (grows P).
Proof. split; [intros s; apply grows_refl | intros a b c; apply grows_trans]. Qed.

#[export] Instance edges_preorder : PreOrder edges_stay_unique.
Proof. split; [intros s; apply edges_refl | intros a b c; apply edges_trans]. Qed.

Lemma add_entity_grows (P : Entity -> Prop) e : P e -> preserves (grows P) (add_entity e).
Proof.
  intros He. apply pres_modify. intros s. exists [e]. split; [reflexivity|]. auto.
Qed.

Lemma create_ownership_entities owner owned otype src description percentage s :
  tb_entities (snd (create_ownership owner owned otype src description percentage s))
  = tb_entities s.
Proof.
  pose proof (create_ownership_frame owner owned otype src description percentage s) as Hf.
  destruct (create_ownership owner owned otype src description percentage s) as [[o|e] s'];
    simpl; [destruct Hf as [[-> _]|[_ [-> _]]] | subst]; reflexivity.
Qed.

Lemma create_ownership_unique owner owned otype src description percentage :
  preserves edges_stay_unique (create_ownership owner owned otype src description percentage).
Proof.
  intros s r s' H Hu.
  pose proof (create_ownership_frame owner owned otype src description percentage s) as Hf.
  rewrite H in Hf. destruct r as [o|e].
  - destruct Hf as [[-> _]|[Hnil [-> Ho]]]; simpl; [exact Hu|].
    intros a b. rewrite filter_app_single.
    destruct (edge_pair a b o) eqn:Hab; [|rewrite app_nil_r; apply Hu].
    subst o. unfold edge_pair in Hab; simpl in Hab. apply andb_true_iff in Hab as [H1 H2].
    apply Nat.eqb_eq in H1, H2. subst a b. rewrite Hnil. simpl. lia.
  - subst s'. exact Hu.
Qed.

Lemma create_ownership_grows P owner owned otype src description percentage :
  preserves (grows P) (create_ownership owner owned otype src description percentage).
Proof.
  intros s r s' H. apply grows_same.
  pose proof (create_ownership_entities owner owned otype src description percentage s) as E.
  rewrite H in E. exact E.
Qed.

Ltac pres_step :=
  match goal with
  | |- preserves _ (py_bind _ _) => apply pres_bind; [exact _| |intros ?]
  | |- preserves _ (py_ret _) => apply pres_ret; exact _
  | |- preserves _ (py_raise _) => apply pres_raise; exact _
  | |- preserves _ py_get => apply pres_get; exact _
  | |- preserves _ (scalar_one_or_none _) => apply pres_scalar; exact _
  | |- preserves _ (py_try_except _ _) => apply pres_try_except; [exact _| |intros ?]
  | |- preserves _ (match ?x with _ => _ end) => destruct x
  end.

Lemma pres_grows_weaken {A} (P Q : Entity -> Prop) (m : Py TBState A) :
  (forall e, P e -> Q e) -> preserves (grows P) m -> preserves (grows Q) m.
Proof. intros HPQ Hm s r s' H. exact (grows_weaken P Q s s' HPQ (Hm s r s' H)). Qed.

Lemma modify_entities_grows P (f : TBState -> TBState) :
  (forall s, tb_entities (f s) = tb_entities s) -> preserves (grows P) (py_modify f).
Proof. intros Hf. apply pres_modify. intros s. apply grows_same, Hf. Qed.

Lemma modify_edges_unique (f : TBState -> TBState) :
  (forall s, tb_edges (f s) = tb_edges s) -> preserves edges_stay_unique (py_modify f).
Proof. intros Hf. apply pres_modify. intros s. apply edges_same, Hf. Qed.

Lemma subsidiary_grows parent name cn level :
  preserves (grows (sub_record_ok cn level)) (get_or_create_subsidiary_entity parent name cn level).
Proof.
  unfold get_or_create_subsidiary_entity.
  repeat pres_step; try apply add_entity_grows; repeat split.
Qed.

Lemma subsidiary_unique parent name cn level :
  preserves edges_stay_unique (get_or_create_subsidiary_entity parent name cn level).
Proof.
  unfold get_or_create_subsidiary_entity, add_entity.
  repeat pres_step; apply modify_edges_unique; reflexivity.
Qed.

Lemma related_grows env parent cnum name level :
  preserves (grows (rel_record_ok cnum level)) (get_or_create_related_charity env parent cnum name level).
Proof.
  unfold get_or_create_related_charity.
  repeat pres_step; try apply add_entity_grows; repeat split.
Qed.

Lemma related_unique env parent cnum name level :
  preserves edges_stay_unique (get_or_create_related_charity env parent cnum name level).
Proof.
  unfold get_or_create_related_charity, add_entity.
  repeat pres_step; apply modify_edges_unique; reflexivity.
Qed.

Section BuilderPres.
Context (R : TBState -> TBState -> Prop) `{!PreOrder R} (env : Env) (D : Z).
Hypothesis R_visit_company : forall c, preserves R (visit_company c).
Hypothesis R_visit_charity : forall c, preserves R (visit_charity c).
Hypothesis R_create : forall owner owned otype src d p,
  preserves R (create_ownership owner owned otype src d p).
Hypothesis R_sub : forall parent name cn level, (1 <= level <= D)%Z ->
  preserves R (get_or_create_subsidiary_entity parent name cn level).
Hypothesis R_rel : forall parent cnum name level, truthy (Some cnum) = true ->
  (1 <= level <= D)%Z -> preserves R (get_or_create_related_charity env parent cnum name level).
Hypothesis R_reset : forall root, preserves R (reset_visited root).

Lemma trustee_hits_pres parent tn level : (1 <= level <= D)%Z ->
  forall cs, preserves R (trustee_hits env parent tn level cs).
Proof.
  intros Hl cs. induction cs as [|c cs IH]; simpl; [pres_step|].
  apply pres_bind; [exact _ | pres_step | intros st].
  remember (py_or truthy (rc_charityNumber c) (rc_registeredCharityNumber c)) as num eqn:Hnum.
  destruct (negb (truthy num) || opt_mem num (tb_visited_charities st)) eqn:Hskip; [exact IH|].
  destruct (opt_str_eqb num (charity_number parent)); [exact IH|].
  destruct tn as [tn|]; [|pres_step].
  destruct num as [cnum|]; [|pres_step].
  destruct (String.eqb _ _); [|exact IH].
  apply orb_false_iff in Hskip as [Ht _]. apply negb_false_iff in Ht.
  repeat first [pres_step | apply R_visit_charity | apply R_create | apply R_rel; auto].
Qed.

Lemma trustees_loop_pres parent level : (1 <= level <= D)%Z ->
  forall ts, preserves R (trustees_loop env parent level ts).
Proof.
  intros Hl ts. induction ts as [|t ts IH]; simpl; [pres_step|].
  unfold trustee_step.
  repeat first [pres_step | exact IH | apply trustee_hits_pres; exact Hl].
Qed.

Lemma build_downward_tree_pres : forall fuel parent cd, (1 <= cd)%Z ->
  preserves R (build_downward_tree env fuel parent cd D).
Proof.
  induction fuel as [|fuel IH]; intros parent cd Hcd; simpl;
    (destruct (D <? cd)%Z eqn:Hd; [pres_step|]); [pres_step|].
  apply Z.ltb_ge in Hd.
  apply pres_bind; [exact _ | | intros [children mdr]].
  - destruct (truthy (charity_number parent)); [|pres_step].
    intros s r s' H.
    destruct (get_charity_subsidiaries env _) as [subs|e].
    + destruct (for_acc _ _ _ s) as [[acc [e|]] s1] eqn:E;
        [destruct (is_exception e)|]; inversion H; subst;
        (eapply for_acc_pres; [exact _ | | exact E]);
        intros [kids m] sub;
        repeat first [pres_step | apply R_visit_company | apply R_create |
                      apply R_sub; lia | apply IH; lia].
    + destruct (is_exception e); inversion H; subst; reflexivity.
  - repeat first [pres_step | apply trustees_loop_pres; lia].
Qed.

Lemma build_upward_tree_pres : forall fuel child cd,
  preserves R (build_upward_tree fuel child cd D).
Proof.
  induction fuel as [|fuel IH]; intros child cd; simpl;
    (destruct (D <? cd)%Z; [pres_step|]); [pres_step|].
  apply pres_bind; [exact _ | pres_step | intros s0].
  intros s r s' H.
  destruct (for_acc _ _ _ s) as [[acc [e|]] s1] eqn:E; inversion H; subst;
    (eapply for_acc_pres; [exact _ | | exact E]);
    intros [kids m] o;
    repeat first [pres_step | apply R_visit_charity | apply IH].
Qed.

Lemma build_tree_for_entity_pres entity_id dir :
  preserves R (build_tree_for_entity env entity_id D dir).
Proof.
  unfold build_tree_for_entity.
  repeat first [pres_step | apply R_reset | apply build_downward_tree_pres; lia |
                apply build_upward_tree_pres].
Qed.

End BuilderPres.

Lemma build_tree_grows env entity_id D dir :
  preserves (grows (builder_record_ok D)) (build_tree_for_entity env entity_id D dir).
Proof.
  apply build_tree_for_entity_pres; [exact _ | ..].
  - intros c. apply modify_entities_grows. reflexivity.
  - intros c. apply modify_entities_grows. reflexivity.
  - intros. apply create_ownership_grows.
  - intros parent name cn level Hl.
    apply (pres_grows_weaken (sub_record_ok cn level)); [|apply subsidiary_grows].
    intros e (_ & _ & _ & Hlv & Hst & Hconf & Hm). unfold builder_record_ok. rewrite Hlv.
    repeat split; try lia; try assumption. rewrite Hm. discriminate.
  - intros parent cnum name level Ht Hl.
    apply (pres_grows_weaken (rel_record_ok cnum level)); [|apply related_grows].
    intros e (_ & Hn & Hlv & Hst & Hconf & Hm). unfold builder_record_ok. rewrite Hlv.
    repeat split; try lia; try assumption. intros _. rewrite Hn. exact Ht.
  - intros root. apply modify_entities_grows. reflexivity.
Qed.

Lemma build_tree_unique env entity_id D dir :
  preserves edges_stay_unique (build_tree_for_entity env entity_id D dir).
Proof.
  apply build_tree_for_entity_pres; [exact _ | ..].
  - intros c. apply modify_edges_unique. reflexivity.
  - intros c. apply modify_edges_unique. reflexivity.
  - intros. apply create_ownership_unique.
  - intros. apply subsidiary_unique.
  - intros. apply related_unique.
  - intros root. apply modify_edges_unique. reflexivity.
Qed.

Lemma build_downward_guard env fuel parent cd D s :
  (D < cd)%Z -> build_downward_tree env fuel parent cd D s = (Ok ([], (cd - 1)%Z), s).
Proof.
  intros Hd. apply Z.ltb_lt in Hd.
  destruct fuel; simpl; rewrite Hd; reflexivity.
Qed.

Lemma update_entity_inv now e cd m c :
  confidence_inv (update_entity_from_charity now e cd m c).
Proof. intros _. simpl. discriminate. Qed.

Lemma resolve_by_search_inv env use_ai e rows st' :
  resolve_by_search env use_ai (mkRState e rows) = (Ok tt, st') -> confidence_inv (rs_entity st').
Proof.
  intros Hr.
  destruct (search_candidates_spec env (original_name e) (mkRState e rows)) as [Hs _].
  unfold resolve_by_search, py_bind, get_entity in Hr. cbn [rs_entity rs_resolutions] in Hr.
  destruct (search_candidates env (original_name e) (mkRState e rows)) as [r s1] eqn:E.
  simpl in Hs. subst s1.
  destruct r as [[|c cs']|x]; [| |discriminate Hr].
  - unfold put_entity in Hr. inversion Hr; subst. simpl. intros Hm. discriminate Hm.
  - destruct (add_resolutions (id e) (c :: cs') e rows) as [new [Hfor _]].
    rewrite Hfor in Hr.
    unfold put_entity, mark_selected, fallback, get_entity, py_bind, py_raise in Hr.
    repeat match type of Hr with
    | context [@ai_resolve_entity ?en _ ?nm ?cs0 ?s0] =>
        let H := fresh "Hai" in
        pose proof (ai_resolve_entity_state en nm cs0 s0) as H;
        destruct (@ai_resolve_entity en _ nm cs0 s0) as [?r ?s2] eqn:?; simpl in H; subst
    | context [match ?x with _ => _ end] =>
        assert_fails (has_match x); destruct x; simpl in Hr
    end;
    inversion Hr; subst; simpl; intros Hm; first [discriminate | discriminate Hm].
Qed.

Lemma resolve_entity_inv env use_ai st st' :
  resolve_entity env use_ai st = (Ok tt, st') -> confidence_inv (rs_entity st').
Proof.
  destruct st as [e rows]. intros Hr.
  unfold resolve_entity, py_bind, get_entity in Hr. cbn [rs_entity] in Hr.
  destruct (if truthy (charity_number e) then details_of env (charity_number e) else None).
  - unfold put_entity in Hr. inversion Hr; subst. apply update_entity_inv.
  - destruct (extracted_number e) as [n|];
      [destruct (get_full_charity_details env n)|];
      try (unfold put_entity in Hr; inversion Hr; subst; apply update_entity_inv);
      eapply resolve_by_search_inv; exact Hr.
Qed.

Lemma confirm_resolution_inv env eid rid manual st st' :
  confidence_inv (rs_entity st) ->
  confirm_resolution env eid rid manual st = (Ok tt, st') -> confidence_inv (rs_entity st').
Proof.
  destruct st as [e rows]. intros Hinv Hr.
  unfold confirm_resolution, py_bind, get_entity, py_get, py_raise, py_ret, put_entity in Hr.
  cbn [rs_entity rs_resolutions] in Hr.
  py_cases Hr; inversion Hr; subst; simpl;
    first [exact Hinv | intros Hm; first [discriminate | discriminate Hm]].
Qed.

Lemma subsidiary_reuse parent name cn level s x :
  truthy cn = true -> In x (tb_entities s) -> batch_id x = batch_id parent ->
  company_number x = cn ->
  length (filter (fun e => Nat.eqb (batch_id e) (batch_id parent) && sql_eq (company_number e) cn)
                 (tb_entities s)) <= 1 ->
  get_or_create_subsidiary_entity parent name cn level s = (Ok (Some x), s).
Proof.
  intros Ht Hin Hb Hc Hlen.
  unfold get_or_create_subsidiary_entity, py_bind, py_get. rewrite Ht.
  rewrite (filter_single _ _ x Hin); [reflexivity | |exact Hlen].
  rewrite Hb, Nat.eqb_refl, Hc. destruct cn as [c|]; [|discriminate Ht].
  simpl. rewrite String.eqb_refl. reflexivity.
Qed.

Lemma related_reuse env parent cnum name level s x :
  In x (tb_entities s) -> batch_id x = batch_id parent -> charity_number x = Some cnum ->
  length (filter (fun e => Nat.eqb (batch_id e) (batch_id parent)
                           && sql_eq (charity_number e) (Some cnum)) (tb_entities s)) <= 1 ->
  get_or_create_related_charity env parent cnum name level s = (Ok (Some x), s).
Proof.
  intros Hin Hb Hc Hlen.
  unfold get_or_create_related_charity, py_bind, py_get.
  rewrite (filter_single _ _ x Hin); [reflexivity | |exact Hlen].
  rewrite Hb, Nat.eqb_refl, Hc. simpl. rewrite String.eqb_refl. reflexivity.
Qed.

Lemma subsidiary_without_number parent name level s r s' :
  get_or_create_subsidiary_entity parent name None level s = (r, s') ->
  exists x, r = Ok (Some x) /\ tb_entities s' = app (tb_entities s) [x].
Proof.
  unfold get_or_create_subsidiary_entity, py_bind, py_get, py_ret, add_entity, py_modify.
  simpl. intros H. inversion H; subst. eexists. split; reflexivity.
Qed.

(** C3: a tree build with [max_depth = D] only appends Records, each at an
    ownership level between 1 and [D]; the downward recursion returns
    [([], current_depth - 1)] without touching the state once
    [current_depth > D]; a subsidiary or related Record is created at the
    level it is discovered at. *)
Theorem C3_depth_bound :
  (forall env entity_id D dir s r s',
     build_tree_for_entity env entity_id D dir s = (r, s') ->
     exists new, tb_entities s' = app (tb_entities s) new /\
       Forall (fun e => (1 <= ownership_level e <= D)%Z) new) /\
  (forall env fuel parent cd D s, (D < cd)%Z ->
     build_downward_tree env fuel parent cd D s = (Ok ([], (cd - 1)%Z), s)) /\
  (forall parent name cn level s r s',
     get_or_create_subsidiary_entity parent name cn level s = (r, s') ->
     exists new, tb_entities s' = app (tb_entities s) new /\
       Forall (fun e => ownership_level e = level) new) /\
  (forall env parent cnum name level s r s',
     get_or_create_related_charity env parent cnum name level s = (r, s') ->
     exists new, tb_entities s' = app (tb_entities s) new /\
       Forall (fun e => ownership_level e = level) new).
Proof.
  split; [|split; [|split]].
  - intros env entity_id D dir s r s' H.
    apply (grows_weaken (builder_record_ok D)); [now intros e [Hl _] |].
    exact (build_tree_grows env entity_id D dir s r s' H).
  - intros. apply build_downward_guard. assumption.
  - intros parent name cn level s r s' H.
    apply (grows_weaken (sub_record_ok cn level)); [intros e Hok; apply Hok |].
    exact (subsidiary_grows parent name cn level s r s' H).
  - intros env parent cnum name level s r s' H.
    apply (grows_weaken (rel_record_ok cnum level)); [intros e Hok; apply Hok |].
    exact (related_grows env parent cnum name level s r s' H).
Qed.

(** C3 counterpart: one build of depth 3 from the fixture root adds one
    Record, at level 1. *)
Lemma C3_witness :
  (exists new, tb_entities (Fixtures.run_tree Fixtures.tb0)
               = app (tb_entities Fixtures.tb0) new /\
               Forall (fun e => (1 <= ownership_level e <= 3)%Z) new) /\
  build_downward_tree Fixtures.sub_env 1 Fixtures.root_entity 4 3 Fixtures.tb0
    = (Ok ([], 3%Z), Fixtures.tb0).
Proof.
  split.
  - exact (proj1 C3_depth_bound Fixtures.sub_env 1 3%Z Down Fixtures.tb0
             (fst (build_tree_for_entity Fixtures.sub_env 1 3 Down Fixtures.tb0))
             (Fixtures.run_tree Fixtures.tb0) ltac:(vm_compute; reflexivity)).
  - exact (proj1 (proj2 C3_depth_bound) Fixtures.sub_env 1 Fixtures.root_entity 4%Z 3%Z
             Fixtures.tb0 ltac:(lia)).
Defined.

(** C1 (as the code has it): every step that sets a Record matched or
    confirmed also sets its confidence: [resolve_entity] never leaves a
    matched Record without one, [confirm_resolution] keeps that true, and
    every Record a tree build adds is matched with confidence 1.  The
    number written by [_update_entity_from_charity] is the one in the
    registry's details; a related Record carries the charity number it was
    found by; a subsidiary Record carries only the company number the
    registry listed, which may be absent. *)
Theorem C1_matched_records :
  (forall env use_ai st st', resolve_entity env use_ai st = (Ok tt, st') ->
     confidence_inv (rs_entity st')) /\
  (forall env entity_id resolution_id manual st st', confidence_inv (rs_entity st) ->
     confirm_resolution env entity_id resolution_id manual st = (Ok tt, st') ->
     confidence_inv (rs_entity st')) /\
  (forall now e cd method confidence,
     resolution_status (update_entity_from_charity now e cd method confidence) = MATCHED /\
     resolution_confidence (update_entity_from_charity now e cd method confidence)
       = Some confidence /\
     charity_number (update_entity_from_charity now e cd method confidence)
       = p_charity_number cd) /\
  (forall env entity_id D dir s r s',
     build_tree_for_entity env entity_id D dir s = (r, s') ->
     exists new, tb_entities s' = app (tb_entities s) new /\
       Forall (fun e => resolution_status e = MATCHED /\ resolution_confidence e = Some 1%Q /\
                        (resolution_method e = Some "related_discovery" ->
                         truthy (charity_number e) = true)) new) /\
  (forall parent name cn level s r s',
     get_or_create_subsidiary_entity parent name cn level s = (r, s') ->
     exists new, tb_entities s' = app (tb_entities s) new /\
       Forall (sub_record_ok cn level) new).
Proof.
  split; [|split; [|split; [|split]]].
  - exact resolve_entity_inv.
  - intros env entity_id resolution_id manual st st' Hinv H.
    exact (confirm_resolution_inv env entity_id resolution_id manual st st' Hinv H).
  - intros. repeat split.
  - intros env entity_id D dir s r s' H.
    apply (grows_weaken (builder_record_ok D)); [now intros e [_ Hrest] |].
    exact (build_tree_grows env entity_id D dir s r s' H).
  - intros parent name cn level s r s' H.
    exact (subsidiary_grows parent name cn level s r s' H).
Qed.

(** C1 fails for subsidiary Records: the fixture registry lists a
    subsidiary without a company number, and the tree build stores it as a
    matched Record with neither number set. *)
Lemma C1_counterexample :
  exists e, nth_error (tb_entities (Fixtures.run_tree Fixtures.tb0)) 1 = Some e /\
    resolution_status e = MATCHED /\ charity_number e = None /\ company_number e = None.
Proof.
  destruct (nth_error (tb_entities (Fixtures.run_tree Fixtures.tb0)) 1) as [e|] eqn:E;
    [|vm_compute in E; discriminate].
  exists e. split; [reflexivity|].
  vm_compute in E. injection E as <-. repeat split.
Qed.

Lemma C1_witness :
  confidence_inv (rs_entity (snd (resolve_entity (Fixtures.two_hits_env Fixtures.two_hits) false
                                   Fixtures.rs_mm))) /\
  (exists new, tb_entities (Fixtures.run_tree Fixtures.tb0)
               = app (tb_entities Fixtures.tb0) new /\
     Forall (sub_record_ok None 1) new).
Proof.
  split.
  - exact (proj1 C1_matched_records (Fixtures.two_hits_env Fixtures.two_hits) false
             Fixtures.rs_mm _ ltac:(vm_compute; reflexivity)).
  - pose proof (proj2 (proj2 (proj2 (proj2 C1_matched_records)))
                  Fixtures.root_entity "Helping Hands Trading" None 1%Z Fixtures.tb0
                  (fst (get_or_create_subsidiary_entity Fixtures.root_entity
                          "Helping Hands Trading" None 1%Z Fixtures.tb0))
                  (snd (get_or_create_subsidiary_entity Fixtures.root_entity
                          "Helping Hands Trading" None 1%Z Fixtures.tb0))
                  ltac:(vm_compute; reflexivity)) as H.
    destruct H as [new [Hn Hf]]. exists new. split; [|exact Hf].
    rewrite <- Hn. vm_compute. reflexivity.
Defined.

(** C4 (as the code has it): a tree build keeps OwnershipEdges unique per
    (owner, owned) pair; a subsidiary with a non-empty company number, or a
    related charity, already stored once in the batch is reused without
    changing the state; but a subsidiary listed without a company number
    gets a new Record on every call. *)
Theorem C4_get_or_create :
  (forall env entity_id D dir s r s', pairs_unique (tb_edges s) ->
     build_tree_for_entity env entity_id D dir s = (r, s') -> pairs_unique (tb_edges s')) /\
  (forall parent name cn level s x,
     truthy cn = true -> In x (tb_entities s) -> batch_id x = batch_id parent ->
     company_number x = cn ->
     length (filter (fun e => Nat.eqb (batch_id e) (batch_id parent)
                              && sql_eq (company_number e) cn) (tb_entities s)) <= 1 ->
     get_or_create_subsidiary_entity parent name cn level s = (Ok (Some x), s)) /\
  (forall env parent cnum name level s x,
     In x (tb_entities s) -> batch_id x = batch_id parent -> charity_number x = Some cnum ->
     length (filter (fun e => Nat.eqb (batch_id e) (batch_id parent)
                              && sql_eq (charity_number e) (Some cnum)) (tb_entities s)) <= 1 ->
     get_or_create_related_charity env parent cnum name level s = (Ok (Some x), s)) /\
  (forall parent name level s r s',
     get_or_create_subsidiary_entity parent name None level s = (r, s') ->
     exists x, r = Ok (Some x) /\ tb_entities s' = app (tb_entities s) [x]).
Proof.
  split; [|split; [|split]].
  - intros env entity_id D dir s r s' Hu H.
    exact (build_tree_unique env entity_id D dir s r s' H Hu).
  - exact subsidiary_reuse.
  - exact related_reuse.
  - exact subsidiary_without_number.
Qed.

(** C4 fails: building the fixture tree twice adds a second subsidiary
    Record and a second OwnershipEdge, since the subsidiary has no company
    number. *)
Lemma C4_counterexample :
  length (tb_edges (Fixtures.run_tree Fixtures.tb0)) = 1 /\
  length (tb_edges (Fixtures.run_tree (Fixtures.run_tree Fixtures.tb0))) = 2 /\
  length (tb_entities (Fixtures.run_tree Fixtures.tb0)) = 2 /\
  length (tb_entities (Fixtures.run_tree (Fixtures.run_tree Fixtures.tb0))) = 3.
Proof. vm_compute. repeat split. Qed.

Lemma C4_witness :
  pairs_unique (tb_edges (Fixtures.run_tree (Fixtures.run_tree Fixtures.tb0))) /\
  get_or_create_related_charity Fixtures.sub_env Fixtures.root_entity "1000001" "HELPING HANDS" 1
    Fixtures.tb0 = (Ok (Some Fixtures.root_entity), Fixtures.tb0).
Proof.
  assert (Hu0 : pairs_unique (tb_edges Fixtures.tb0)) by (intros a b; simpl; lia).
  assert (Hu1 : pairs_unique (tb_edges (Fixtures.run_tree Fixtures.tb0))).
  { exact (proj1 C4_get_or_create Fixtures.sub_env 1 3%Z Down Fixtures.tb0
             (fst (build_tree_for_entity Fixtures.sub_env 1 3 Down Fixtures.tb0))
             (Fixtures.run_tree Fixtures.tb0) Hu0 ltac:(vm_compute; reflexivity)). }
  split.
  - exact (proj1 C4_get_or_create Fixtures.sub_env 1 3%Z Down (Fixtures.run_tree Fixtures.tb0)
             (fst (build_tree_for_entity Fixtures.sub_env 1 3 Down (Fixtures.run_tree Fixtures.tb0)))
             (Fixtures.run_tree (Fixtures.run_tree Fixtures.tb0)) Hu1
             ltac:(vm_compute; reflexivity)).
  - exact (proj1 (proj2 (proj2 C4_get_or_create)) Fixtures.sub_env Fixtures.root_entity
             "1000001" "HELPING HANDS" 1%Z Fixtures.tb0 Fixtures.root_entity
             (or_introl eq_refl) eq_refl eq_refl ltac:(vm_compute; lia)).
Defined.


(* ------------------------------------------------------------------ *)
(** ** Registry numbers and names: character-level facts *)

Ltac ascii_cases c := destruct c as [[] [] [] [] [] [] [] []].

Lemma alnum_not_space c : is_alnum c = true -> py_isspace c = false.
Proof. ascii_cases c; vm_compute; congruence. Qed.

Lemma upper_alnum c : is_alnum c = true -> (is_digit (upper_char c) || is_upper (upper_char c)) = true.
Proof. ascii_cases c; vm_compute; congruence. Qed.

Lemma upper_fixed c : (is_digit c || is_upper c) = true -> upper_char c = c.
Proof. ascii_cases c; vm_compute; congruence. Qed.

Lemma upper_is_alnum c : (is_digit c || is_upper c) = true -> is_alnum c = true.
Proof. ascii_cases c; vm_compute; congruence. Qed.

Lemma lower_upper c : lower_char (upper_char c) = lower_char c.
Proof. ascii_cases c; reflexivity. Qed.

Lemma lower_not_upper c : is_upper (lower_char c) = false.
Proof. ascii_cases c; reflexivity. Qed.

Lemma lstrip_chars_id l :
  match l with [] => True | c :: _ => py_isspace c = false end -> lstrip_chars l = l.
Proof. destruct l as [|c l]; simpl; [reflexivity|]. intros H. rewrite H. reflexivity. Qed.

Lemma strip_id l :
  match l with [] => True | c :: _ => py_isspace c = false end ->
  match rev l with [] => True | c :: _ => py_isspace c = false end ->
  rev (lstrip_chars (rev (lstrip_chars l))) = l.
Proof.
  intros H1 H2. rewrite (lstrip_chars_id l H1), (lstrip_chars_id (rev l) H2). apply rev_involutive.
Qed.

Lemma strip_no_space l :
  forallb (fun c => negb (py_isspace c)) l = true -> rev (lstrip_chars (rev (lstrip_chars l))) = l.
Proof.
  intros H. apply strip_id.
  - destruct l as [|c l]; [exact I|]. simpl in H. apply andb_true_iff in H as [H _].
    apply negb_true_iff, H.
  - assert (Hr : forallb (fun c => negb (py_isspace c)) (rev l) = true).
    { rewrite forallb_forall in *. intros c Hc. apply H, in_rev, Hc. }
    destruct (rev l) as [|c l']; [exact I|]. simpl in Hr. apply andb_true_iff in Hr as [Hr _].
    apply negb_true_iff, Hr.
Qed.

(** A string of digits and upper-case letters is its own normal form. *)
Lemma normalize_fixed n :
  forallb (fun c => is_digit c || is_upper c) (list_ascii_of_string n) = true ->
  normalize_charity_number n = n.
Proof.
  intros H. unfold normalize_charity_number, py_strip, str_upper.
  rewrite list_ascii_of_string_of_list_ascii.
  rewrite strip_no_space.
  2:{ rewrite forallb_forall in *. intros c Hc. apply negb_true_iff, alnum_not_space, upper_is_alnum, H, Hc. }
  rewrite list_ascii_of_string_of_list_ascii.
  replace (filter is_alnum (list_ascii_of_string n)) with (list_ascii_of_string n).
  2:{ symmetry. apply forallb_filter_id. rewrite forallb_forall in *. intros c Hc.
      apply upper_is_alnum, H, Hc. }
  replace (map upper_char (list_ascii_of_string n)) with (list_ascii_of_string n).
  - apply string_of_list_ascii_of_string.
  - symmetry. rewrite forallb_forall in H. induction (list_ascii_of_string n) as [|c l IH]; [reflexivity|].
    simpl. rewrite upper_fixed by (apply H; left; reflexivity).
    rewrite IH; [reflexivity|]. intros x Hx. apply H. right. exact Hx.
Qed.

Lemma normalize_shape n :
  forallb (fun c => is_digit c || is_upper c) (list_ascii_of_string (normalize_charity_number n)) = true.
Proof.
  unfold normalize_charity_number, str_upper. rewrite !list_ascii_of_string_of_list_ascii.
  rewrite forallb_forall. intros c Hc. apply in_map_iff in Hc as [d [<- Hd]].
  apply filter_In in Hd as [_ Hd]. apply upper_alnum, Hd.
Qed.

Lemma number_shaped_upper n :
  number_shaped n -> forallb (fun c => is_digit c || is_upper c) (list_ascii_of_string n) = true.
Proof.
  unfold number_shaped.
  assert (Hd : forall d, forallb is_digit d = true -> forallb (fun c => is_digit c || is_upper c) d = true).
  { intros d H. rewrite forallb_forall in *. intros c Hc. rewrite H; auto. }
  intros [[H _]|[[d [Hl [H _]]]|[d [Hl [H _]]]]]; try rewrite Hl; simpl; auto.
Qed.

(** [normalize_charity_number] yields only digits and upper-case
    letters, and normalising a second time changes nothing. *)
Theorem normalize_charity_number_canonical (n : string) :
  forallb (fun c => is_digit c || is_upper c) (list_ascii_of_string (normalize_charity_number n)) = true /\
  normalize_charity_number (normalize_charity_number n) = normalize_charity_number n.
Proof.
  split; [apply normalize_shape|]. apply normalize_fixed, normalize_shape.
Qed.

(** On ASCII text (the [string] of this model), every number
    [extract_charity_number] returns is already in normal form:
    [normalize_charity_number] leaves it unchanged.  (On other text
    Python's [\d] also matches non-ASCII digits, which normalisation
    drops.) *)
Theorem extract_charity_number_normalized (text n : string) :
  extract_charity_number text = Some n -> normalize_charity_number n = n.
Proof.
  intros H. apply normalize_fixed, number_shaped_upper.
  eapply extract_charity_number_shape; eauto.
Qed.

Lemma digits_greedy_unfold k lo before l prev :
  digits_greedy k lo before l prev =
  if Nat.leb lo k && Nat.leb k (length l) && forallb is_digit (firstn k l)
     && boundary (last_opt prev (before ++ firstn k l)) (nth_error l k)
  then Some k
  else match k with
       | 0 => None
       | S k' => if Nat.ltb k' lo then None else digits_greedy k' lo before l prev
       end.
Proof. destruct k; reflexivity. Qed.

Lemma digits_greedy_all (d : list ascii) (lo : nat) :
  forallb is_digit d = true -> d <> [] -> lo <= length d ->
  forall j, digits_greedy (length d + j) lo [] d None = Some (length d).
Proof.
  intros Hd Hne Hlo.
  assert (Hok :
    Nat.leb lo (length d) && Nat.leb (length d) (length d) && forallb is_digit (firstn (length d) d)
    && boundary (last_opt None ([] ++ firstn (length d) d)) (nth_error d (length d)) = true).
  { rewrite firstn_all, Hd, (proj2 (nth_error_None d (length d)) (le_n _)).
    apply Nat.leb_le in Hlo. rewrite Hlo, Nat.leb_refl. simpl.
    unfold boundary, last_opt. simpl.
    destruct (rev d) as [|c l] eqn:Hr.
    - apply (f_equal (@rev ascii)) in Hr. rewrite rev_involutive in Hr. subst. contradiction.
    - assert (Hc : In c d) by (apply in_rev; rewrite Hr; left; reflexivity).
      rewrite forallb_forall in Hd. specialize (Hd c Hc).
      simpl. unfold is_word. rewrite Hd. reflexivity. }
  induction j as [|j IH].
  - rewrite Nat.add_0_r, digits_greedy_unfold, Hok. reflexivity.
  - rewrite digits_greedy_unfold.
    replace (Nat.leb (length d + S j) (length d)) with false
      by (symmetry; apply Nat.leb_gt; lia).
    rewrite andb_false_r, !andb_false_l.
    replace (length d + S j) with (S (length d + j)) by lia.
    replace (Nat.ltb (length d + j) lo) with false by (symmetry; apply Nat.ltb_ge; lia).
    exact IH.
Qed.

Lemma search_from_unfold pt prev l :
  search_from pt prev l =
  match match_at pt prev l with
  | Some g => Some g
  | None => match l with [] => None | c :: l' => search_from pt (Some c) l' end
  end.
Proof. destruct l; reflexivity. Qed.

(** A text made of 6 to 8 digits and nothing else is its own charity
    number: [extract_charity_number] returns it whole. *)
Theorem extract_bare_number (d : list ascii) :
  forallb is_digit d = true -> 6 <= length d <= 8 ->
  extract_charity_number (string_of_list_ascii d) = Some (string_of_list_ascii d).
Proof.
  intros Hd Hlen.
  assert (Hne : d <> []) by (intros ->; simpl in Hlen; lia).
  assert (Hb : boundary None (hd_error d) = true).
  { destruct d as [|c l]; [contradiction|]. simpl in Hd |- *.
    apply andb_true_iff in Hd as [Hc _]. unfold boundary, word_opt, is_word. rewrite Hc. reflexivity. }
  assert (Hm : match_at (mkPattern [] 6 8) None d = Some d).
  { unfold match_at. cbn [pat_prefix pat_hi pat_lo]. rewrite Hb. cbn [prefix_ci length firstn].
    replace 8 with (length d + (8 - length d)) by lia.
    rewrite digits_greedy_all by (assumption || lia). simpl. rewrite firstn_all. reflexivity. }
  unfold extract_charity_number. rewrite list_ascii_of_string_of_list_ascii.
  simpl first_pattern. rewrite search_from_unfold, Hm.
  unfold str_upper. rewrite list_ascii_of_string_of_list_ascii, map_upper_digits by exact Hd.
  reflexivity.
Qed.

(** The four registry calls normalise their argument first, so calling
    them with [normalize_charity_number n] or with [n] gives the same
    reply. *)
Theorem registry_calls_use_normalized_number (api_key : option string)
    (h : string -> HttpReply (option RawCharity)) (ht : string -> HttpReply (list RawTrustee))
    (ha : string -> HttpReply (list Account)) (hs : string -> HttpReply (list RawSub)) (n : string) :
  get_charity_by_number_once api_key h (normalize_charity_number n) = get_charity_by_number_once api_key h n /\
  get_charity_trustees_once ht (normalize_charity_number n) = get_charity_trustees_once ht n /\
  get_charity_accounts_once ha (normalize_charity_number n) = get_charity_accounts_once ha n /\
  get_charity_subsidiaries_once hs (normalize_charity_number n) = get_charity_subsidiaries_once hs n.
Proof.
  pose proof (normalize_fixed _ (normalize_shape n)) as Hn.
  unfold get_charity_by_number_once, get_charity_trustees_once, get_charity_accounts_once,
    get_charity_subsidiaries_once, get_registry_list_once.
  rewrite !Hn. repeat split.
Qed.

Lemma mock_search_in term c :
  (exists hits, get_mock_search_results term = SRDict (Some hits) /\
   (In c hits -> In c (map snd mock_charities))).
Proof.
  unfold get_mock_search_results.
  eexists. split; [reflexivity|]. intros Hc.
  destruct (map snd (filter _ mock_charities)) as [|x l] eqn:E.
  - apply in_map_iff in Hc as [kc [<- Hkc]]. apply filter_In in Hkc as [Hkc _].
    apply in_map, Hkc.
  - rewrite <- E in Hc. apply in_map_iff in Hc as [kc [<- Hkc]]. apply filter_In in Hkc as [Hkc _].
    apply in_map, Hkc.
Qed.

(** Without an API key, [search_charities] answers from the mock list,
    and every hit it returns has a number for which the mock
    [get_charity_by_number] returns details with the same number, name and
    registration status. *)
Theorem mock_search_hits_have_details
    (http_s : SearchRequest -> HttpReply SearchResponse)
    (http_d : string -> HttpReply (option RawCharity))
    (term : string) (st : option string) (page page_size : nat) :
  exists hits, search_charities_once None http_s term st page page_size = Ok (SRDict (Some hits)) /\
  forall c, In c hits ->
    exists num d, rc_charityNumber c = Some num /\
      get_charity_by_number_once None http_d num = Ok (Some d) /\
      rc_charityNumber d = Some num /\ rc_charityName d = rc_charityName c /\
      rc_registrationStatus d = rc_registrationStatus c.
Proof.
  assert (Hall : Forall (fun c => exists num d, rc_charityNumber c = Some num /\
      get_charity_by_number_once None http_d num = Ok (Some d) /\
      rc_charityNumber d = Some num /\ rc_charityName d = rc_charityName c /\
      rc_registrationStatus d = rc_registrationStatus c) (map snd mock_charities)).
  { cbn [map snd mock_charities].
    repeat (apply Forall_cons;
            [do 2 eexists; split; [reflexivity|]; split; [cbv; reflexivity|];
             repeat split; reflexivity|]).
    apply Forall_nil. }
  rewrite Forall_forall in Hall.
  unfold search_charities_once. cbn [truthy negb].
  destruct (get_mock_search_results term) as [[hits|]| |] eqn:E;
    try (destruct (mock_search_in term (mock_hit "" "")) as [h [Hh _]]; congruence).
  exists hits. split; [reflexivity|]. intros c Hc. apply Hall.
  destruct (mock_search_in term c) as [h [Hh Hin]]. rewrite E in Hh. inversion Hh; subst. auto.
Qed.

Lemma lower_space_id l : forallb py_isspace l = true -> map lower_char l = l.
Proof.
  induction l as [|c l IH]; simpl; [reflexivity|]. intros H. apply andb_true_iff in H as [Hc H].
  rewrite IH by exact H. f_equal. revert Hc. ascii_cases c; vm_compute; congruence.
Qed.

Lemma lstrip_all_space l : forallb py_isspace l = true -> lstrip_chars l = [].
Proof.
  induction l as [|c l IH]; simpl; [reflexivity|]. intros H. apply andb_true_iff in H as [Hc H].
  rewrite Hc. apply IH, H.
Qed.

(** Without an API key, a search term made only of whitespace matches
    every mock charity: the whole mock list is returned, in order. *)
Theorem mock_search_blank_term_lists_all
    (http_s : SearchRequest -> HttpReply SearchResponse) (term : string) (st : option string)
    (page page_size : nat) :
  forallb py_isspace (list_ascii_of_string term) = true ->
  search_charities_once None http_s term st page page_size
  = Ok (SRDict (Some (map snd mock_charities))).
Proof.
  intros H. unfold search_charities_once, get_mock_search_results. cbn [truthy negb].
  unfold py_strip, str_lower. rewrite list_ascii_of_string_of_list_ascii, lower_space_id by exact H.
  rewrite (lstrip_all_space (list_ascii_of_string term) H). reflexivity.
Qed.

Lemma remove_go_forall (P : ascii -> Prop) old : forall l k,
  Forall P l -> Forall P (remove_go old k l).
Proof.
  induction l as [|c l IH]; intros k H; simpl; [constructor|].
  inversion H; subst.
  destruct k; [destruct (is_prefix old (c :: l)); [|constructor]|]; auto.
Qed.

Lemma str_remove_forall (P : ascii -> Prop) old s :
  Forall P (list_ascii_of_string s) -> Forall P (list_ascii_of_string (str_remove old s)).
Proof.
  intros H. unfold str_remove. destruct (list_ascii_of_string old); [exact H|].
  rewrite list_ascii_of_string_of_list_ascii. apply remove_go_forall, H.
Qed.

Lemma remove_suffixes_forall (P : ascii -> Prop) : forall sufs s,
  Forall P (list_ascii_of_string s) ->
  Forall P (list_ascii_of_string (fold_left (fun acc suffix => str_remove suffix acc) sufs s)).
Proof.
  induction sufs as [|x sufs IH]; intros s H; simpl; [exact H|].
  apply IH, str_remove_forall, H.
Qed.

Lemma split_go_words (P : ascii -> Prop) : forall l cur,
  Forall P l -> Forall (fun c => py_isspace c = false /\ P c) cur ->
  Forall (fun w => w <> [] /\ Forall (fun c => py_isspace c = false /\ P c) w) (split_go l cur).
Proof.
  induction l as [|c l IH]; intros cur Hl Hc; simpl.
  - destruct cur as [|x cur]; constructor; [|constructor].
    split; [intros Hr; apply (f_equal (@length ascii)) in Hr; rewrite length_rev in Hr;
            discriminate | apply Forall_rev, Hc].
  - inversion Hl; subst. destruct (py_isspace c) eqn:Hs.
    + destruct cur as [|x cur]; [apply IH; auto|].
      constructor; [|apply IH; auto].
      split; [intros Hr; apply (f_equal (@length ascii)) in Hr; rewrite length_rev in Hr;
              discriminate | apply Forall_rev, Hc].
    + apply IH; auto.
Qed.

Lemma list_ascii_of_string_append a b :
  list_ascii_of_string (a ++ b) = app (list_ascii_of_string a) (list_ascii_of_string b).
Proof. induction a as [|c a IH]; simpl; [reflexivity|]. rewrite IH. reflexivity. Qed.

Definition starts_nonspace (l : list ascii) : Prop :=
  match l with [] => True | c :: _ => py_isspace c = false end.

Lemma join_space_ends (ws : list string) :
  Forall (fun w => list_ascii_of_string w <> [] /\
                   Forall (fun c => py_isspace c = false) (list_ascii_of_string w)) ws ->
  starts_nonspace (list_ascii_of_string (join_space ws)) /\
  starts_nonspace (rev (list_ascii_of_string (join_space ws))).
Proof.
  induction ws as [|w ws IH]; intros H; [split; exact I|].
  inversion H as [|? ? [Hne Hw] Hws]; subst.
  assert (Hfirst : starts_nonspace (list_ascii_of_string w)).
  { destruct (list_ascii_of_string w) as [|c l]; [exact I|]. inversion Hw; assumption. }
  assert (Hlast : starts_nonspace (rev (list_ascii_of_string w))).
  { apply Forall_rev in Hw. destruct (rev (list_ascii_of_string w)) as [|c l]; [exact I|].
    inversion Hw; assumption. }
  destruct ws as [|w' ws'].
  - split; assumption.
  - specialize (IH Hws) as [_ IH2].
    assert (Hne' : list_ascii_of_string (join_space (w' :: ws')) <> []).
    { inversion Hws as [|? ? [Hne2 _] _]; subst.
      destruct ws' as [|w'' ws'']; [exact Hne2|].
      cbn [join_space]. rewrite list_ascii_of_string_append.
      intros Happ. apply app_eq_nil in Happ as [Happ _]. contradiction. }
    change (join_space (w :: w' :: ws')) with (w ++ " " ++ join_space (w' :: ws'))%string.
    rewrite !list_ascii_of_string_append. split.
    + destruct (list_ascii_of_string w) as [|c l]; [contradiction|]. exact Hfirst.
    + rewrite !rev_app_distr.
      destruct (rev (list_ascii_of_string (join_space (w' :: ws')))) as [|c l] eqn:Er.
      * apply (f_equal (@rev ascii)) in Er. rewrite rev_involutive in Er. contradiction.
      * exact IH2.
Qed.

(** On an ASCII name (the [string] of this model), [normalize_name]
    returns non-empty words joined by single spaces, each made only of
    lower-case ASCII word characters. *)
Theorem normalize_name_canonical (name : string) :
  exists words, normalize_name name = join_space words /\
  Forall (fun w => w <> EmptyString /\
            forallb (fun c => is_word c && negb (is_upper c)) (list_ascii_of_string w) = true) words.
Proof.
  set (P := fun c => is_upper c = false /\ (is_word c || py_isspace c) = true).
  set (lowered := fold_left (fun acc suffix => str_remove suffix acc) name_suffixes (str_lower name)).
  assert (H1 : Forall (fun c => is_upper c = false) (list_ascii_of_string lowered)).
  { apply remove_suffixes_forall. unfold str_lower. rewrite list_ascii_of_string_of_list_ascii.
    apply Forall_forall. intros c Hc. apply in_map_iff in Hc as [d [<- _]]. apply lower_not_upper. }
  set (filtered := filter (fun c => is_word c || py_isspace c) (list_ascii_of_string lowered)).
  assert (H2 : Forall P filtered).
  { apply Forall_forall. intros c Hc. apply filter_In in Hc as [Hc Hw].
    split; [rewrite Forall_forall in H1; apply H1, Hc | exact Hw]. }
  set (words := py_split (string_of_list_ascii filtered)).
  assert (H3 : Forall (fun w => w <> [] /\ Forall (fun c => py_isspace c = false /\ P c) w)
                 (split_go filtered [])).
  { apply split_go_words; [exact H2 | constructor]. }
  assert (H4 : Forall (fun w => list_ascii_of_string w <> [] /\
                 Forall (fun c => py_isspace c = false /\ P c) (list_ascii_of_string w)) words).
  { unfold words, py_split. rewrite list_ascii_of_string_of_list_ascii.
    apply Forall_map. eapply Forall_impl; [|exact H3]. intros w [Hne Hw].
    rewrite list_ascii_of_string_of_list_ascii. auto. }
  exists words. split.
  - unfold normalize_name. fold lowered. fold filtered. fold words.
    destruct (join_space_ends words) as [Hs Hr].
    { eapply Forall_impl; [|exact H4]. intros w [Hne Hw]. split; [exact Hne|].
      eapply Forall_impl; [|exact Hw]. intros c [Hc _]. exact Hc. }
    unfold py_strip. rewrite strip_id by assumption. apply string_of_list_ascii_of_string.
  - eapply Forall_impl; [|exact H4]. intros w [Hne Hw]. split.
    + intros ->. apply Hne. reflexivity.
    + apply forallb_forall. intros c Hc. rewrite Forall_forall in Hw.
      destruct (Hw c Hc) as [Hs [Hu Hws]]. rewrite Hs, orb_false_r in Hws. rewrite Hws, Hu. reflexivity.
Qed.

(** On an ASCII name (the [string] of this model), [normalize_name]
    ignores letter case: upper-casing or lower-casing the name first does
    not change the result.  (Python's Unicode case mappings, such as
    upper-casing a sharp s to "SS", are outside this text model.) *)
Theorem normalize_name_ignores_case (name : string) :
  normalize_name (str_upper name) = normalize_name name /\
  normalize_name (str_lower name) = normalize_name name.
Proof.
  assert (H : forall f, (forall c, lower_char (f c) = lower_char c) ->
            str_lower (string_of_list_ascii (map f (list_ascii_of_string name))) = str_lower name).
  { intros f Hf. unfold str_lower. rewrite list_ascii_of_string_of_list_ascii, map_map.
    f_equal. apply map_ext, Hf. }
  unfold normalize_name. split.
  - unfold str_upper at 1. rewrite (H upper_char lower_upper). reflexivity.
  - unfold str_lower at 2. rewrite (H lower_char). reflexivity.
    intros c. ascii_cases c; reflexivity.
Qed.


Lemma insert_desc_perm c l : Permutation (insert_desc c l) (c :: l).
Proof.
  induction l as [|d l IH]; simpl; [reflexivity|].
  destruct (negb _); [reflexivity|].
  transitivity (d :: c :: l); [constructor; exact IH | constructor].
Qed.

Lemma sort_desc_perm l : Permutation (sort_desc l) l.
Proof.
  unfold sort_desc.
  assert (H : forall acc, Permutation (fold_left (fun acc c => insert_desc c acc) l acc) (app acc l)).
  { induction l as [|c l IH]; intros acc; simpl; [rewrite app_nil_r; reflexivity|].
    rewrite IH, insert_desc_perm. simpl. apply Permutation_middle. }
  rewrite H. reflexivity.
Qed.

(** [search_candidates] builds its candidates from the first five
    search hits only (a permutation of them, by score) and leaves the
    state alone; a registry [Exception] gives no candidates, any other
    error propagates. *)
Theorem search_candidates_first_five (env : Env) {S} (name : string) (s : S) :
  match search_charities env (Some name) 10 with
  | Ok results =>
      exists cs, search_candidates env name s = (Ok cs, s) /\
      Permutation cs (map (candidate_of env name)
                        (firstn 5 (match results with
                                   | SRDict (Some l) | SRList l => l
                                   | SRDict None | SROther => []
                                   end)))
  | Raise e => search_candidates env name s = (if is_exception e then Ok [] else Raise e, s)
  end.
Proof.
  unfold search_candidates, py_try_except, py_ret. cbn [Nat.mul Nat.add].
  destruct (search_charities env (Some name) 10) as [results|e].
  - eexists. split; [reflexivity|].
    rewrite firstn_all2.
    + apply sort_desc_perm.
    + rewrite (Permutation_length (sort_desc_perm _)), length_map, length_firstn. lia.
  - destruct (is_exception e); reflexivity.
Qed.

(** An AI match returned by [ai_resolve_entity] is one of the given
    candidates: the client exists, the model answered [match_found] with
    the 1-based index of that candidate, and the returned number is that
    candidate's number; the state is unchanged. *)
Theorem ai_selection_is_a_candidate (env : Env) {S} (name : string) (cs : list Candidate) (s : S)
    num conf reasoning s' :
  ai_resolve_entity env name cs s = (Ok (Some (num, conf, reasoning)), s') ->
  s' = s /\ openai_client env = true /\
  exists r i c,
    openai_chat env name
      (map (fun c => (Some (cand_name c), cand_charity_number c, cand_similarity c)) cs) = Ok r /\
    ai_match_found r = true /\ ai_selected_index r = Some (Z.of_nat i + 1)%Z /\
    nth_error cs i = Some c /\ num = cand_charity_number c.
Proof.
  intros H. unfold ai_resolve_entity, py_try_except, py_ret in H.
  destruct (openai_client env); [|discriminate]. simpl negb in H. cbv iota in H.
  destruct cs as [|c0 cs0]; [discriminate|].
  set (cs := c0 :: cs0) in *.
  destruct (openai_chat env name _) as [r|e] eqn:Hchat.
  2:{ destruct (is_exception e); discriminate. }
  destruct (ai_match_found r) eqn:Hm; [|discriminate].
  destruct (ai_selected_index r) as [sel|] eqn:Hsel; [|discriminate].
  destruct (Z.eqb sel 0) eqn:H0; [discriminate|].
  destruct ((0 <=? sel - 1)%Z && (sel - 1 <? Z.of_nat (length cs))%Z) eqn:Hb; [|discriminate].
  destruct (nth_error cs (Z.to_nat (sel - 1))) as [c|] eqn:Hn; [|discriminate].
  inversion H; subst. split; [reflexivity|]. split; [reflexivity|].
  exists r, (Z.to_nat (sel - 1)), c. repeat split; auto.
  rewrite Hsel. f_equal. apply andb_true_iff in Hb as [Hb _]. apply Z.leb_le in Hb. lia.
Qed.

(** [confirm_resolution] raises [ValueError] and changes nothing when
    the entity id differs; otherwise it succeeds, at most marks the chosen
    CandidateMatch row as selected, and leaves the entity either unchanged,
    confirmed with confidence 1 by "manual_confirm", or rejected. *)
Theorem confirm_resolution_outcomes (env : Env) (entity_id : nat) (resolution_id : option nat)
    (manual : option string) (e : Entity) (rows : list EntityResolution) r st' :
  confirm_resolution env entity_id resolution_id manual (mkRState e rows) = (r, st') ->
  (id e <> entity_id /\ r = Raise ValueError_entity /\ st' = mkRState e rows) \/
  (id e = entity_id /\ r = Ok tt /\
   Forall2 (fun x y => y = x \/ (resolution_id = Some (er_id x) /\ y = select_row x))
     rows (rs_resolutions st') /\
   (rs_entity st' = e \/
    (resolution_status (rs_entity st') = CONFIRMED /\
     resolution_confidence (rs_entity st') = Some 1%Q /\
     resolution_method (rs_entity st') = Some "manual_confirm") \/
    rs_entity st' = set_status_at e REJECTED (utcnow env))).
Proof.
  intros H. unfold confirm_resolution, py_bind, get_entity, py_get, py_raise, py_ret, put_entity in H.
  cbn [rs_entity rs_resolutions] in H.
  destruct (Nat.eqb (id e) entity_id) eqn:Hid; cbn [negb] in H;
    cbv beta iota zeta in H; cbn [rs_entity rs_resolutions] in H.
  2:{ left. apply Nat.eqb_neq in Hid. inversion H; subst. auto. }
  right. apply Nat.eqb_eq in Hid. split; [exact Hid|].
  assert (Hrows : forall rows',
    (rows' = rows \/
     exists x, resolution_id = Some (er_id x) /\
       rows' = map (fun y => if Nat.eqb (er_id y) (er_id x) then select_row y else y) rows) ->
    Forall2 (fun x y => y = x \/ (resolution_id = Some (er_id x) /\ y = select_row x)) rows rows').
  { clear H. intros rows' [->|[x [Hx ->]]].
    - induction rows as [|y rows IH]; constructor; [left; reflexivity | exact IH].
    - induction rows as [|y rows IH]; constructor; [|exact IH].
      destruct (Nat.eqb (er_id y) (er_id x)) eqn:E; [right|left; reflexivity].
      apply Nat.eqb_eq in E. rewrite E. auto. }
  assert (Hfound : forall rid x, find (fun r0 => Nat.eqb (er_id r0) rid) rows = Some x ->
                    Some rid = Some (er_id x)).
  { intros rid x Hf. apply find_some in Hf as [_ Hf].
    apply Nat.eqb_eq in Hf. rewrite Hf. reflexivity. }
  destruct resolution_id as [rid|];
    [destruct (find (fun r0 => Nat.eqb (er_id r0) rid) rows) as [x|] eqn:Hf;
     [pose proof (Hfound _ _ Hf) as Hrid|]|];
    cbv iota beta in H; cbn [rs_entity rs_resolutions] in H;
    match type of H with context [if truthy ?n then _ else _] => destruct (truthy n) end;
    try match type of H with context [match details_of ?en ?n with _ => _ end] =>
          destruct (details_of en n) end;
    inversion H; subst; clear H; cbn [rs_entity rs_resolutions];
    (split; [reflexivity|]);
    (split; [apply Hrows; first [left; reflexivity | right; exists x; split; [exact Hrid|reflexivity]]|]);
    first [left; reflexivity | right; right; reflexivity | right; left; repeat split; reflexivity].
Qed.


Section BindFacts.
Context {S : Type} (R : S -> S -> Prop) `{!PreOrder R}.

Lemma pres_bind_ret {A B} (m : Py S A) (k : A -> Py S B) (Q : A -> Prop) :
  preserves R m -> returns Q m -> (forall a, Q a -> preserves R (k a)) ->
  preserves R (py_bind m k).
Proof.
  intros Hm Hq Hk s r s' H. unfold py_bind in H.
  destruct (m s) as [[a|e] s1] eqn:E.
  - transitivity s1; [exact (Hm _ _ _ E) | exact (Hk a (Hq _ _ _ E) _ _ _ H)].
  - inversion H; subst. exact (Hm _ _ _ E).
Qed.

Lemma pres_try_finally {A} (body : Py S A) (fin : Py S unit) :
  preserves R body -> preserves R fin -> preserves R (py_try_finally body fin).
Proof.
  intros Hb Hf s r s' H. unfold py_try_finally in H.
  destruct (body s) as [r1 s1] eqn:E. destruct (fin s1) as [[u|e] s2] eqn:F;
    inversion H; subst; (transitivity s1; [exact (Hb _ _ _ E) | exact (Hf _ _ _ F)]).
Qed.

Lemma pres_py_for {A} (P : A -> Prop) (f : A -> Py S unit) :
  (forall a, P a -> preserves R (f a)) ->
  forall xs, Forall P xs -> preserves R (py_for xs f).
Proof.
  intros Hf xs Hxs. induction Hxs as [|x xs Hx _ IH]; simpl; [apply pres_ret; exact _|].
  apply pres_bind; [exact _ | apply Hf, Hx | intros _; exact IH].
Qed.

End BindFacts.

(** [P s -> P s'] : the state property [P] is kept. *)
Definition kept {S} (P : S -> Prop) (s s' : S) : Prop := P s -> P s'.

#[export] Instance kept_preorder {S} (P : S -> Prop) : PreOrder (kept P).
Proof. split; [intros s H; exact H | intros a b c H1 H2 H; auto]. Qed.

Lemma pres_get_kept {S B} (P : S -> Prop) (k : S -> Py S B) :
  (forall s0, P s0 -> preserves (kept P) (k s0)) -> preserves (kept P) (py_bind py_get k).
Proof.
  intros Hk s r s' H Ps. unfold py_bind, py_get in H. exact (Hk s Ps s r s' H Ps).
Qed.

(** The row [x] is stored and the ids of the stored rows are distinct. *)
Definition row_stored (x : Entity) (s : PBState) : Prop :=
  NoDup (map id (pb_entities s)) /\ In x (pb_entities s).

Lemma kept_rows x s s' : pb_entities s' = pb_entities s -> kept (row_stored x) s s'.
Proof. intros E H. unfold row_stored. rewrite E. exact H. Qed.

Lemma modify_kept x f :
  (forall s, pb_entities (f s) = pb_entities s) -> preserves (kept (row_stored x)) (py_modify f).
Proof. intros Hf. apply pres_modify; try typeclasses eauto. intros s. apply kept_rows, Hf. Qed.

Lemma db_call_kept penv x : preserves (kept (row_stored x)) (db_call penv).
Proof.
  intros s r s' H. unfold db_call in H.
  destruct (db_fault penv (pb_calls s)); inversion H; subst; apply kept_rows; reflexivity.
Qed.

Lemma db_flush_kept penv x : preserves (kept (row_stored x)) (db_flush penv).
Proof.
  unfold db_flush. apply pres_bind; [exact _ | apply db_call_kept | intros _].
  apply modify_kept. reflexivity.
Qed.

Lemma modify_batch_kept x f : preserves (kept (row_stored x)) (modify_batch f).
Proof. apply modify_kept. reflexivity. Qed.

Lemma store_entity_kept x e : id e <> id x -> preserves (kept (row_stored x)) (store_entity e).
Proof.
  intros Hne. apply pres_modify; try typeclasses eauto. intros s [Hnd Hin]. split; simpl.
  - rewrite map_map.
    replace (map (fun y => id (if Nat.eqb (id y) (id e) then e else y)) (pb_entities s))
      with (map id (pb_entities s)); [exact Hnd|].
    apply map_ext. intros y. destruct (Nat.eqb (id y) (id e)) eqn:E; [|reflexivity].
    apply Nat.eqb_eq in E. exact E.
  - apply in_map_iff. exists x. split; [|exact Hin].
    destruct (Nat.eqb (id x) (id e)) eqn:E; [|reflexivity].
    apply Nat.eqb_eq in E. congruence.
Qed.

Lemma find_entity_kept x eid : preserves (kept (row_stored x)) (find_entity eid).
Proof. intros s r s' H. inversion H; subst. intros P; exact P. Qed.

Lemma find_entity_returns eid :
  returns (fun oe => forall e, oe = Some e -> id e = eid) (find_entity eid).
Proof.
  intros s a s' H e ->. inversion H as [Hf]. apply find_some in Hf as [_ Hf].
  apply Nat.eqb_eq in Hf. exact Hf.
Qed.

Section KeepRow.
Variable penv : PBEnv.
Variable x : Entity.
Hypothesis resolve_keeps_id : forall e r e', resolve penv e = (r, e') -> id e' = id e.

Lemma resolve_one_kept eid : eid <> id x -> preserves (kept (row_stored x)) (resolve_one penv eid).
Proof.
  intros Hne. unfold resolve_one.
  apply (pres_bind_ret _ _ _ _ (find_entity_kept x eid) (find_entity_returns eid)).
  intros [e|] He; [|apply pres_ret; exact _].
  specialize (He e eq_refl).
  destruct (resolve penv e) as [r e'] eqn:Hr.
  apply pres_bind; [exact _ | apply store_entity_kept | intros _].
  - rewrite (resolve_keeps_id _ _ _ Hr). congruence.
  - destruct r; [destruct (is_matched e')|]; [apply modify_kept; reflexivity | apply pres_ret; exact _ |
                                                apply pres_raise; exact _].
Qed.

Lemma record_failed_kept eid ex : eid <> id x -> preserves (kept (row_stored x)) (record_failed penv eid ex).
Proof.
  intros Hne. unfold record_failed.
  apply (pres_bind_ret _ _ _ _ (find_entity_kept x eid) (find_entity_returns eid)).
  intros oe He. apply pres_bind; [exact _ | | intros _; apply modify_kept; reflexivity].
  destruct oe as [e|]; [|apply pres_ret; exact _].
  apply store_entity_kept. simpl. rewrite (He e eq_refl). exact Hne.
Qed.

Lemma process_record_kept am eid :
  eid <> id x -> preserves (kept (row_stored x)) (process_record penv am eid).
Proof.
  intros Hne. unfold process_record.
  apply pres_try_finally; [exact _ | |].
  - apply pres_try_except; [exact _ | apply resolve_one_kept, Hne | intros ex; apply record_failed_kept, Hne].
  - unfold record_progress.
    apply pres_bind; [exact _ | apply modify_kept; reflexivity | intros _].
    apply pres_bind; [exact _ | apply modify_kept; reflexivity | intros _].
    apply db_flush_kept.
Qed.

Lemma nodup_map_id (l : list Entity) a b :
  NoDup (map id l) -> In a l -> In b l -> id a = id b -> a = b.
Proof.
  induction l as [|c l IH]; intros Hnd Ha Hb Hab; [destruct Ha|].
  simpl in Hnd. inversion Hnd as [|? ? Hnin Hnd']; subst.
  destruct Ha as [<-|Ha], Hb as [<-|Hb]; auto.
  - exfalso. apply Hnin. rewrite Hab. apply in_map, Hb.
  - exfalso. apply Hnin. rewrite <- Hab. apply in_map, Ha.
Qed.

Hypothesis x_settled : eligible x = false.

Lemma loop_ids_avoid s :
  row_stored x s -> Forall (fun eid => eid <> id x) (map id (filter eligible (pb_entities s))).
Proof.
  intros [Hnd Hin]. apply Forall_forall. intros eid Heid.
  apply in_map_iff in Heid as [y [<- Hy]]. apply filter_In in Hy as [Hy Hel].
  intros Hid. rewrite (nodup_map_id _ _ _ Hnd Hy Hin Hid) in Hel. congruence.
Qed.

Lemma process_body_kept : preserves (kept (row_stored x)) (process_body penv).
Proof.
  unfold process_body.
  apply pres_bind; [exact _ | apply db_call_kept | intros _].
  apply pres_get_kept. intros s0 Hs0.
  pose proof (loop_ids_avoid s0 Hs0) as Hids.
  destruct (map id (filter eligible (pb_entities s0))) as [|eid eids] eqn:E.
  - apply pres_bind; [exact _ | apply modify_batch_kept | intros _]. apply db_flush_kept.
  - apply pres_bind; [exact _ | apply db_call_kept | intros _].
    apply pres_bind; [exact _ | apply pres_get; exact _ | intros s1].
    apply pres_bind; [exact _ | apply modify_batch_kept | intros _].
    apply pres_bind; [exact _ | apply modify_kept; reflexivity | intros _].
    apply pres_bind; [exact _ | | intros _].
    + refine (pres_py_for _ (fun eid => eid <> id x) _ _ _ Hids).
      intros a Ha. apply process_record_kept, Ha.
    + apply pres_bind; [exact _ | apply pres_get; exact _ | intros s3].
      apply pres_bind; [exact _ | apply modify_batch_kept | intros _]. apply db_flush_kept.
Qed.

Lemma process_batch_kept bid : preserves (kept (row_stored x)) (process_batch penv bid).
Proof.
  unfold process_batch.
  apply pres_bind; [exact _ | apply db_call_kept | intros _].
  apply pres_bind; [exact _ | apply pres_get; exact _ | intros s].
  destruct (negb _); [apply pres_raise; exact _|].
  apply pres_bind; [exact _ | apply modify_batch_kept | intros _].
  apply pres_bind; [exact _ | apply db_flush_kept | intros _].
  apply pres_try_finally; [exact _ | | apply pres_ret; exact _].
  apply pres_try_except; [exact _ | apply process_body_kept | intros ex].
  unfold batch_failed.
  apply pres_bind; [exact _ | apply modify_batch_kept | intros _].
  apply pres_bind; [exact _ | apply db_flush_kept | intros _]. apply pres_raise; exact _.
Qed.

End KeepRow.

(** [process_batch] never touches an entity row that its loop does not
    select: if the rows of the batch have distinct ids and the resolver
    keeps the id of the record it resolves, a row [x] that is not pending,
    manual_review or multiple_matches when the run starts is still stored,
    unchanged, when the run ends, whatever its outcome. *)
Theorem process_batch_keeps_settled_records penv bid x s r s' :
  (forall e r0 e', resolve penv e = (r0, e') -> id e' = id e) ->
  NoDup (map id (pb_entities s)) -> In x (pb_entities s) -> eligible x = false ->
  process_batch penv bid s = (r, s') -> In x (pb_entities s').
Proof.
  intros Hres Hnd Hin Hel H.
  exact (proj2 (process_batch_kept penv x Hres Hel bid s r s' H (conj Hnd Hin))).
Qed.

(** An unknown batch: when the first query succeeds and the stored batch
    row has another id, [process_batch] raises [ValueError("Batch not
    found")] after that one round trip, and neither the batch row, the
    entity rows nor the flushed snapshots change. *)
Theorem process_batch_missing_batch penv bid s :
  db_fault penv (pb_calls s) = None -> b_id (pb_batch s) <> bid ->
  process_batch penv bid s =
    (Raise ValueError_batch,
     mkPBState (pb_batch s) (pb_entities s) (pb_flushed s) (S (pb_calls s))
               (pb_processed s) (pb_matched s) (pb_failed s)).
Proof.
  intros Hdb Hne. unfold process_batch, py_bind, db_call, py_get.
  rewrite Hdb. cbn [pb_batch]. apply Nat.eqb_neq in Hne. rewrite Hne. reflexivity.
Qed.


(** Reading a [Py] program step by step. *)
Lemma bind_get {S B} (k : S -> Py S B) s : py_bind py_get k s = k s s.
Proof. reflexivity. Qed.

Lemma bind_ok {S A B} (m : Py S A) (k : A -> Py S B) s a s1 :
  m s = (Ok a, s1) -> py_bind m k s = k a s1.
Proof. intros H. unfold py_bind. rewrite H. reflexivity. Qed.

Section Returns.
Context {S : Type}.

Lemma returns_ret {A} (Q : A -> Prop) a : Q a -> returns (S:=S) Q (py_ret a).
Proof. intros Hq s b s' H. inversion H; subst. exact Hq. Qed.

Lemma returns_raise {A} (Q : A -> Prop) e : returns (S:=S) Q (py_raise e).
Proof. intros s b s' H. discriminate H. Qed.

Lemma returns_any {A} (m : Py S A) : returns (fun _ => True) m.
Proof. intros s b s' H. exact I. Qed.

Lemma returns_bind {A B} (Q' : A -> Prop) (Q : B -> Prop) (m : Py S A) (k : A -> Py S B) :
  returns Q' m -> (forall a, Q' a -> returns Q (k a)) -> returns Q (py_bind m k).
Proof.
  intros Hm Hk s b s' H. unfold py_bind in H.
  destruct (m s) as [[a|x] s1] eqn:E; [|discriminate H].
  exact (Hk a (Hm _ _ _ E) _ _ _ H).
Qed.

Lemma returns_try_except {A} (Q : A -> Prop) (body : Py S A) (h : Exc -> Py S A) :
  returns Q body -> (forall x, returns Q (h x)) -> returns Q (py_try_except body h).
Proof.
  intros Hb Hh s b s' H. unfold py_try_except in H.
  destruct (body s) as [[a|x] s1] eqn:E.
  - inversion H; subst. exact (Hb _ _ _ E).
  - destruct (is_exception x); [exact (Hh x _ _ _ H) | discriminate H].
Qed.

(** A loop invariant of a Python [for] that threads an accumulator: it
    holds of the accumulator the loop stops with, normally or not. *)
Lemma for_acc_inv {A B} (I : B -> Prop) (f : B -> A -> Py S B) :
  (forall acc x, I acc -> returns I (f acc x)) ->
  forall xs acc s acc' eo s', I acc -> for_acc xs acc f s = (acc', eo, s') -> I acc'.
Proof.
  intros Hf xs. induction xs as [|x xs IH]; intros acc s acc' eo s' Hi H; simpl in H.
  - inversion H; subst. exact Hi.
  - destruct (f acc x s) as [[a|e] s1] eqn:E.
    + exact (IH _ _ _ _ _ (Hf _ _ Hi _ _ _ E) H).
    + inversion H; subst. exact Hi.
Qed.

End Returns.

Ltac ret_step :=
  match goal with
  | |- returns _ (py_ret _) => apply returns_ret
  | |- returns _ (py_raise _) => apply returns_raise
  | |- returns _ (py_bind _ _) => apply (returns_bind (fun _ => True)); [apply returns_any | intros ? _]
  | |- returns _ (py_try_except _ _) => apply returns_try_except; [|intros ?]
  | |- returns _ (match ?x with _ => _ end) => destruct x
  | |- returns _ (if ?x then _ else _) => destruct x
  end.

(** Heights of returned trees. *)
Lemma forest_height_nonneg l : (0 <= forest_height l)%Z.
Proof. induction l as [|n l IH]; simpl; lia. Qed.

Lemma forest_height_app l1 l2 :
  forest_height (app l1 l2) = Z.max (forest_height l1) (forest_height l2).
Proof.
  induction l1 as [|n l1 IH]; simpl.
  - pose proof (forest_height_nonneg l2). lia.
  - unfold forest_height in *. simpl. rewrite IH. lia.
Qed.

Lemma node_height_node i o kids : node_height (Node i o kids) = (1 + forest_height kids)%Z.
Proof.
  reflexivity.
Qed.

Lemma forest_height_snoc l i o kids :
  forest_height (app l [Node i o kids]) = Z.max (forest_height l) (1 + forest_height kids)%Z.
Proof.
  rewrite forest_height_app. unfold forest_height at 2. cbn [fold_right]. rewrite node_height_node.
  pose proof (forest_height_nonneg kids). f_equal. lia.
Qed.

(** What a recursive tree build returns at depth [cd]: the deepest level
    reached, between [cd - 1] and [max (cd - 1) D], and nodes no deeper
    than that level. *)
Definition depth_ok (cd D : Z) (r : list TreeNode * Z) : Prop :=
  let '(nodes, m) := r in
  (cd - 1 <= m <= Z.max (cd - 1) D)%Z /\ (forest_height nodes <= m - cd + 1)%Z.

Definition depth_inv (cd D : Z) (r : list TreeNode * Z) : Prop :=
  let '(nodes, m) := r in (cd <= m <= D)%Z /\ (forest_height nodes <= m - cd + 1)%Z.

Lemma depth_inv_ok cd D r : depth_inv cd D r -> depth_ok cd D r.
Proof. destruct r as [nodes m]. simpl. lia. Qed.

Lemma depth_inv_start cd D : (cd <= D)%Z -> depth_inv cd D ([], cd).
Proof. simpl. lia. Qed.

Lemma depth_inv_leaf cd D nodes m i o :
  depth_inv cd D (nodes, m) -> depth_inv cd D (app nodes [Node i o []], m).
Proof.
  simpl. rewrite forest_height_snoc. simpl. lia.
Qed.

Lemma depth_inv_deeper cd D nodes m i o kids d :
  (cd <= D)%Z -> depth_inv cd D (nodes, m) -> depth_ok (cd + 1) D (kids, d) ->
  depth_inv cd D (app nodes [Node i o kids], Z.max m d).
Proof.
  simpl. rewrite forest_height_snoc. lia.
Qed.

Lemma trustee_hits_height env parent tn level : forall cs,
  returns (fun o => match o with Some n => (node_height n <= 1)%Z | None => True end)
    (trustee_hits env parent tn level cs).
Proof.
  induction cs as [|c cs IH]; simpl; [apply returns_ret; exact I|].
  apply (returns_bind (fun _ => True)); [apply returns_any | intros st _].
  repeat first [exact IH | ret_step]; simpl; try lia; exact I.
Qed.

Lemma trustees_loop_height env parent level : forall ts,
  returns (fun l => (forest_height l <= 1)%Z) (trustees_loop env parent level ts).
Proof.
  induction ts as [|t ts IH]; simpl; [apply returns_ret; simpl; lia|].
  apply (returns_bind (fun o => match o with Some n => (node_height n <= 1)%Z | None => True end)).
  - unfold trustee_step. apply returns_try_except; [|intros x; apply returns_ret; exact I].
    destruct (search_charities env (t_name t) 3) as [[[l|]|l|]|x];
      first [apply trustee_hits_height | apply returns_ret; exact I | apply returns_raise].
  - intros o Ho. apply (returns_bind _ _ _ _ IH). intros rest Hr. apply returns_ret.
    destruct o as [n|]; [simpl; fold (forest_height rest); lia | exact Hr].
Qed.

Lemma build_downward_tree_depth env : forall fuel parent cd D,
  returns (depth_ok cd D) (build_downward_tree env fuel parent cd D).
Proof.
  induction fuel as [|fuel IH]; intros parent cd D; simpl;
    (destruct (D <? cd)%Z eqn:Hd; [apply returns_ret; simpl; lia|]);
    [apply returns_ret; simpl; lia|].
  apply Z.ltb_ge in Hd.
  apply (returns_bind (depth_inv cd D)).
  - destruct (truthy (charity_number parent)); [|apply returns_ret, depth_inv_start, Hd].
    intros s a s' H.
    destruct (get_charity_subsidiaries env _) as [subs|e].
    + destruct (for_acc _ _ _ s) as [[acc [e|]] s1] eqn:E;
        [destruct (is_exception e)|]; inversion H; subst;
        (eapply for_acc_inv; [| exact (depth_inv_start _ _ Hd) | exact E]);
        intros [kids m] sub Hi;
        repeat first [apply returns_ret; exact Hi |
                      apply (returns_bind _ _ _ _ (IH _ _ _)); intros [g d] Hg | ret_step];
        first [apply depth_inv_leaf; exact Hi | apply depth_inv_deeper; assumption].
    + destruct (is_exception e); inversion H; subst. apply depth_inv_start, Hd.
  - intros [children mdr] Hi.
    apply (returns_bind (fun l => (forest_height l <= 1)%Z)).
    + destruct (enriched_truthy _); [apply trustees_loop_height | apply returns_ret; simpl; lia].
    + intros rel Hr. apply returns_ret. simpl in *. rewrite forest_height_app. lia.
Qed.

Lemma build_upward_tree_depth : forall fuel child cd D,
  returns (depth_ok cd D) (build_upward_tree fuel child cd D).
Proof.
  induction fuel as [|fuel IH]; intros child cd D; simpl;
    (destruct (D <? cd)%Z eqn:Hd; [apply returns_ret; simpl; lia|]);
    [apply returns_ret; simpl; lia|].
  apply Z.ltb_ge in Hd.
  apply (returns_bind (fun _ => True)); [apply returns_any | intros s0 _].
  intros s a s' H.
  destruct (for_acc _ _ _ s) as [[acc [e|]] s1] eqn:E; inversion H; subst.
  apply depth_inv_ok.
  eapply for_acc_inv; [| exact (depth_inv_start _ _ Hd) | exact E].
  intros [ps m] o Hi.
  repeat first [apply returns_ret; exact Hi |
                apply (returns_bind _ _ _ _ (IH _ _ _)); intros [g d] Hg | ret_step].
  apply depth_inv_deeper; assumption.
Qed.

(** The depth reported by [build_tree_for_entity] is between 0 and
    [max 0 max_depth], and neither the children nor the parents of the
    returned tree go deeper than the depth it reports. *)
Theorem build_tree_depth_bounds env entity_id D dir s t s' :
  build_tree_for_entity env entity_id D dir s = (Ok t, s') ->
  (0 <= max_depth_reached t <= Z.max 0 D)%Z /\
  (forest_height (tree_children t) <= max_depth_reached t)%Z /\
  (forest_height (tree_parents t) <= max_depth_reached t)%Z.
Proof.
  revert s t s'.
  change (returns (fun t => (0 <= max_depth_reached t <= Z.max 0 D)%Z /\
    (forest_height (tree_children t) <= max_depth_reached t)%Z /\
    (forest_height (tree_parents t) <= max_depth_reached t)%Z)
    (build_tree_for_entity env entity_id D dir)).
  unfold build_tree_for_entity.
  apply (returns_bind (fun _ => True)); [apply returns_any | intros s0 _].
  destruct (find_entity_by_id s0 entity_id) as [root|]; [|apply returns_raise].
  apply (returns_bind (fun _ => True)); [apply returns_any | intros u _].
  apply (returns_bind (depth_ok 1 D)).
  { destruct dir; [|destruct (truthy (charity_number root))..];
      first [apply build_downward_tree_depth | apply returns_ret; simpl; lia]. }
  intros [children d1] H1.
  apply (returns_bind (depth_ok 1 D)).
  { destruct dir; first [apply build_upward_tree_depth | apply returns_ret; simpl; lia]. }
  intros [parents d2] H2. apply returns_ret. simpl in *. lia.
Qed.

#[export] Instance same_rows_preorder : PreOrder same_rows.
Proof.
  split; [intros s; split; reflexivity|].
  intros a b c [H1 H2] [H3 H4]. split; congruence.
Qed.

(** With direction "up" a build only reads: whatever its outcome, a tree
    or an error, every entity row and every ownership row is left as it
    was (only the visited sets change). *)
Theorem build_tree_up_reads_only env entity_id D s r s' :
  build_tree_for_entity env entity_id D Up s = (r, s') -> same_rows s s'.
Proof.
  intros H. revert s r s' H.
  unfold build_tree_for_entity.
  apply pres_bind; [exact _ | apply pres_get; exact _ | intros s0].
  destruct (find_entity_by_id s0 entity_id) as [root|]; [|apply pres_raise; exact _].
  apply pres_bind; [exact _ | | intros _].
  { apply pres_modify; try typeclasses eauto. intros s1. split; reflexivity. }
  apply pres_bind; [exact _ | apply pres_ret; exact _ | intros [children d1]].
  apply pres_bind; [exact _ | | intros [parents d2]; apply pres_ret; exact _].
  apply build_upward_tree_pres; try exact _.
  intros c. apply pres_modify; try typeclasses eauto. intros s1. split; reflexivity.
Qed.

(* ------------------------------------------------------------------ *)
(** ** Instances of the properties above *)

Lemma extract_charity_number_normalized_witness :
  extract_charity_number "Reg. 220949" = Some "220949" /\
  normalize_charity_number "220949" = "220949".
Proof.
  split; [vm_compute; reflexivity|].
  apply (extract_charity_number_normalized "Reg. 220949"). vm_compute. reflexivity.
Defined.

Lemma extract_bare_number_witness :
  forallb is_digit (list_ascii_of_string "220949") = true /\
  6 <= length (list_ascii_of_string "220949") <= 8 /\
  extract_charity_number (string_of_list_ascii (list_ascii_of_string "220949"))
    = Some (string_of_list_ascii (list_ascii_of_string "220949")).
Proof.
  assert (Hd : forallb is_digit (list_ascii_of_string "220949") = true) by (vm_compute; reflexivity).
  assert (Hl : 6 <= length (list_ascii_of_string "220949") <= 8) by (cbn; lia).
  split; [exact Hd|]. split; [exact Hl|].
  exact (extract_bare_number (list_ascii_of_string "220949") Hd Hl).
Defined.

Lemma mock_search_hits_have_details_witness :
  exists hits,
    search_charities_once None (fun _ => HttpFailure Fixtures.ConnectError) "Red Cross" None 1 10
      = Ok (SRDict (Some hits)) /\
    forall c, In c hits ->
      exists num d, rc_charityNumber c = Some num /\
        get_charity_by_number_once None (fun _ => HttpFailure Fixtures.ConnectError) num = Ok (Some d) /\
        rc_charityNumber d = Some num /\ rc_charityName d = rc_charityName c /\
        rc_registrationStatus d = rc_registrationStatus c.
Proof.
  exact (mock_search_hits_have_details (fun _ => HttpFailure Fixtures.ConnectError)
           (fun _ => HttpFailure Fixtures.ConnectError) "Red Cross" None 1 10).
Defined.

Lemma mock_search_blank_term_lists_all_witness :
  forallb py_isspace (list_ascii_of_string "  ") = true /\
  search_charities_once None (fun _ => HttpFailure Fixtures.ConnectError) "  " None 1 10
    = Ok (SRDict (Some (map snd mock_charities))).
Proof.
  assert (H : forallb py_isspace (list_ascii_of_string "  ") = true) by (vm_compute; reflexivity).
  split; [exact H|].
  exact (mock_search_blank_term_lists_all _ "  " None 1 10 H).
Defined.

Lemma normalize_name_canonical_witness :
  exists words, normalize_name "The Red Cross Ltd" = join_space words /\
  Forall (fun w => w <> EmptyString /\
            forallb (fun c => is_word c && negb (is_upper c)) (list_ascii_of_string w) = true) words.
Proof. exact (normalize_name_canonical "The Red Cross Ltd"). Defined.

Lemma ai_selection_is_a_candidate_witness :
  let cs := map (candidate_of Fixtures.ai_env "Alpha Care")
                [Fixtures.raw_charity "300001" "ALPHA CARE";
                 Fixtures.raw_charity "300002" "ALPHA CARE TRUST"] in
  ai_resolve_entity Fixtures.ai_env "Alpha Care" cs tt
    = (Ok (Some (Some "300002", Some (8 # 10)%Q, Some "AI matched")), tt) /\
  (tt = tt /\ openai_client Fixtures.ai_env = true /\
   exists r i c,
     openai_chat Fixtures.ai_env "Alpha Care"
       (map (fun c => (Some (cand_name c), cand_charity_number c, cand_similarity c)) cs) = Ok r /\
     ai_match_found r = true /\ ai_selected_index r = Some (Z.of_nat i + 1)%Z /\
     nth_error cs i = Some c /\ Some "300002" = cand_charity_number c).
Proof.
  intros cs.
  assert (H : ai_resolve_entity Fixtures.ai_env "Alpha Care" cs tt
              = (Ok (Some (Some "300002", Some (8 # 10)%Q, Some "AI matched")), tt))
    by (vm_compute; reflexivity).
  split; [exact H|]. exact (ai_selection_is_a_candidate Fixtures.ai_env "Alpha Care" cs tt _ _ _ tt H).
Defined.

Lemma confirm_resolution_outcomes_witness :
  let env := Fixtures.two_hits_env Fixtures.two_hits in
  let p := confirm_resolution env 7 (Some 1) None Fixtures.rs_mm in
  confirm_resolution env 7 (Some 1) None Fixtures.rs_mm = (fst p, snd p) /\
  ((id Fixtures.rec_mm <> 7 /\ fst p = Raise ValueError_entity /\ snd p = Fixtures.rs_mm) \/
   (id Fixtures.rec_mm = 7 /\ fst p = Ok tt /\
    Forall2 (fun x y => y = x \/ (Some 1 = Some (er_id x) /\ y = select_row x))
      (rs_resolutions Fixtures.rs_mm) (rs_resolutions (snd p)) /\
    (rs_entity (snd p) = Fixtures.rec_mm \/
     (resolution_status (rs_entity (snd p)) = CONFIRMED /\
      resolution_confidence (rs_entity (snd p)) = Some 1%Q /\
      resolution_method (rs_entity (snd p)) = Some "manual_confirm") \/
     rs_entity (snd p) = set_status_at Fixtures.rec_mm REJECTED (utcnow env)))).
Proof.
  intros env p. split; [apply surjective_pairing|].
  exact (confirm_resolution_outcomes env 7 (Some 1) None Fixtures.rec_mm
           (rs_resolutions Fixtures.rs_mm) (fst p) (snd p)
           (surjective_pairing (confirm_resolution env 7 (Some 1) None Fixtures.rs_mm))).
Defined.

Lemma process_batch_keeps_settled_records_witness :
  let penv := Fixtures.pb_env None NO_MATCH in
  let x := Fixtures.mk_entity 3 1 "Org C" (Some "300001") MATCHED None in
  let p := process_batch penv 1 Fixtures.pb3 in
  NoDup (map id (pb_entities Fixtures.pb3)) /\ In x (pb_entities Fixtures.pb3) /\ eligible x = false /\
  In x (pb_entities (snd p)).
Proof.
  intros penv x p.
  assert (Hres : forall e r0 e', resolve penv e = (r0, e') -> id e' = id e).
  { intros e r0 e' H. cbn in H. destruct (Nat.eqb (id e) 1); inversion H; reflexivity. }
  assert (Hnd : NoDup (map id (pb_entities Fixtures.pb3))) by (repeat constructor; cbn; lia).
  assert (Hin : In x (pb_entities Fixtures.pb3)) by (cbn; right; right; left; reflexivity).
  assert (Hel : eligible x = false) by reflexivity.
  split; [exact Hnd|]. split; [exact Hin|]. split; [exact Hel|].
  exact (process_batch_keeps_settled_records penv 1 x Fixtures.pb3 (fst p) (snd p) Hres Hnd Hin Hel
           (surjective_pairing p)).
Defined.

Lemma process_batch_missing_batch_witness :
  let penv := Fixtures.pb_env None NO_MATCH in
  db_fault penv (pb_calls Fixtures.pb0) = None /\ b_id (pb_batch Fixtures.pb0) <> 2 /\
  process_batch penv 2 Fixtures.pb0 =
    (Raise ValueError_batch,
     mkPBState Fixtures.batch0 (pb_entities Fixtures.pb0) [] 1 0 0 0).
Proof.
  intros penv.
  assert (H1 : db_fault penv (pb_calls Fixtures.pb0) = None) by reflexivity.
  assert (H2 : b_id (pb_batch Fixtures.pb0) <> 2) by (cbn; lia).
  split; [exact H1|]. split; [exact H2|].
  exact (process_batch_missing_batch penv 2 Fixtures.pb0 H1 H2).
Defined.

Lemma build_tree_depth_bounds_witness :
  exists t s', build_tree_for_entity Fixtures.sub_env 1 3 Down Fixtures.tb0 = (Ok t, s') /\
  (0 <= max_depth_reached t <= Z.max 0 3)%Z /\
  (forest_height (tree_children t) <= max_depth_reached t)%Z /\
  (forest_height (tree_parents t) <= max_depth_reached t)%Z.
Proof.
  destruct (build_tree_for_entity Fixtures.sub_env 1 3 Down Fixtures.tb0) as [[t|e] s'] eqn:E.
  - exists t, s'. split; [reflexivity|].
    exact (build_tree_depth_bounds Fixtures.sub_env 1 3 Down Fixtures.tb0 t s' E).
  - revert E. vm_compute. discriminate.
Defined.

Lemma build_tree_up_reads_only_witness :
  let p := build_tree_for_entity Fixtures.sub_env 1 3 Up Fixtures.tb0 in
  same_rows Fixtures.tb0 (snd p).
Proof.
  intros p.
  exact (build_tree_up_reads_only Fixtures.sub_env 1 3 Fixtures.tb0 (fst p) (snd p)
           (surjective_pairing p)).
Defined.
